(** * Match_cut: text-overlay video synthesis.

    A shallow embedding of the frame-synthesis and text-supply pipeline
    ([modules/text_generation.py], [modules/ai_providers.py],
    [modules/textures.py], [modules/image_processing.py] and
    [modules/video_generator.py]) together with the properties of the
    specification that were checked against it.

    Conventions of the embedding:
    - Python [int] is [Z] (or [nat] for counters that never go below zero);
      [//] and [%] are [Z.div] and [Z.modulo], which agree with Python's
      floored division; [int(x)] of a float truncates towards zero.
    - Python [float] is modelled by exact rationals [Q], except where the
      rounding of binary floating point decides what the code does: the
      scaling of a texture, whose [int(orig_width * scale)] is computed on
      Rocq's binary64 floats.  The theorems below that evaluate the rest of
      the code at concrete inputs only use values that binary floating point
      represents exactly where the difference could matter.
    - Text is [list ascii]: characters with code points below 256;
      [len s] is [length s].  Colours, messages and other opaque identifiers
      are [string].
    - The process-wide [random] generator is an explicit state: the infinite
      sequence of raw outputs it is going to produce.  Code that draws from it
      threads that state.
    - An unhandled Python exception is [Raised e]; a [while] loop that would
      exceed the iteration bound given to its model is [OutOfFuel]. *)

From Stdlib Require Import ZArith QArith Qround List Ascii String Bool Lia Lqa.
From Stdlib Require Import PrimFloat FloatOps SpecFloat Uint63.
From stdpp Require Import base list gmap strings pretty.

#[local] Open Scope string_scope.
#[local] Open Scope Z_scope.
#[local] Open Scope nat_scope.
#[local] Open Scope list_scope.

(** ** Python values and control *)

Abbreviation text := (list ascii).

Definition str (s : string) : text := list_ascii_of_string s.

Inductive PyExn :=
| ZeroDivisionError
| ValueError
| IndexError
| AttributeError
| IOError
| FontLoadError (what : string)
| FontDrawError (what : string)
| OtherError (what : string).

Inductive PyResult (A : Type) :=
| Ok (a : A)
| Raised (e : PyExn)
| OutOfFuel.
Arguments Ok {A} a.
Arguments Raised {A} e.
Arguments OutOfFuel {A}.

(** [int(x)] for a float [x]. *)
Definition py_int (x : Q) : Z :=
  if Qle_bool 0 x then Qfloor x else Qceiling x.

(** Binary64 floats: [float(z)] for an integer below [2^63] in absolute
    value, and [int(x)], which truncates and raises on infinities and NaN
    ([None]). *)
Definition float_of_int (z : Z) : float :=
  if (z <? 0)%Z then PrimFloat.opp (PrimFloat.of_uint63 (Uint63.of_Z (- z)))
  else PrimFloat.of_uint63 (Uint63.of_Z z).

Definition int_of_float (x : float) : option Z :=
  match Prim2SF x with
  | S754_zero _ => Some 0%Z
  | S754_finite negative m e =>
      let magnitude :=
        (if 0 <=? e then Z.pos m * 2 ^ e else Z.pos m / 2 ^ (- e))%Z in
      Some (if negative then (- magnitude)%Z else magnitude)
  | S754_infinity _ | S754_nan => None
  end.

(** [max(x, y)] of two floats: [y] only when it is greater. *)
Definition float_max (x y : float) : float :=
  if PrimFloat.ltb x y then y else x.

Definition Qmax (a b : Q) : Q := if Qle_bool a b then b else a.
Definition Qmin (a b : Q) : Q := if Qle_bool a b then a else b.
Definition Qltb (a b : Q) : bool := negb (Qle_bool b a).

(** [l[i]] for a Python list: negative indices count from the end. *)
Definition py_index {A} (l : list A) (i : Z) : PyResult A :=
  let n := Z.of_nat (length l) in
  let j := (if i <? 0 then n + i else i)%Z in
  if (j <? 0)%Z then Raised IndexError
  else match l !! Z.to_nat j with
       | Some a => Ok a
       | None => Raised IndexError
       end.

(** The index of the first element that satisfies [p], or [-1]:
    [for i, x in enumerate(l): if p(x): index = i; break]. *)
Fixpoint first_index {A} (p : A → bool) (l : list A) : Z :=
  match l with
  | [] => (-1)%Z
  | x :: l' =>
      if p x then 0%Z
      else let i := first_index p l' in
           if (i =? -1)%Z then (-1)%Z else (i + 1)%Z
  end.

(** ** Strings *)
Module PyStr.

Definition eqc (a b : ascii) : bool := Ascii.eqb a b.

(** [s.startswith(p)] *)
Fixpoint startswith (p s : text) : bool :=
  match p, s with
  | [], _ => true
  | _ :: _, [] => false
  | a :: p', b :: s' => eqc a b && startswith p' s'
  end.

(** [p in s] *)
Fixpoint contains (p s : text) : bool :=
  startswith p s ||
  match s with
  | [] => false
  | _ :: s' => contains p s'
  end.

(** [s.find(p)], [None] standing for [-1] *)
Fixpoint find (p s : text) : option nat :=
  if startswith p s then Some 0%nat
  else match s with
       | [] => None
       | _ :: s' => S <$> find p s'
       end.

(** [s.replace(old, new, 1)] *)
Fixpoint replace_first (old new s : text) : text :=
  if startswith old s then new ++ drop (length old) s
  else match s with
       | [] => []
       | c :: s' => c :: replace_first old new s'
       end.

(** [s.replace(old, new)] for a non-empty [old]; [skip] characters of a
    match that was just replaced are still to be dropped. *)
Fixpoint replace_all_from (skip : nat) (old new s : text) : text :=
  match s with
  | [] => []
  | c :: s' =>
      match skip with
      | S k => replace_all_from k old new s'
      | O => if startswith old s
             then new ++ replace_all_from (pred (length old)) old new s'
             else c :: replace_all_from 0 old new s'
      end
  end.
Definition replace_all (old new s : text) : text :=
  replace_all_from 0 old new s.

(** [s.endswith(p)] *)
Definition endswith (p s : text) : bool :=
  startswith (rev p) (rev s).

(** [s[:-1]] *)
Definition drop_last (s : text) : text := removelast s.

(** [c.isspace()] on the 8-bit range *)
Definition isspace (c : ascii) : bool :=
  let n := nat_of_ascii c in
  ((9 <=? n) && (n <=? 13)) || ((28 <=? n) && (n <=? 32))
  || (n =? 133) || (n =? 160).

(** [c.isdigit()] on the 8-bit range (superscript digits included) *)
Definition isdigit (c : ascii) : bool :=
  let n := nat_of_ascii c in
  ((48 <=? n) && (n <=? 57)) || (n =? 178) || (n =? 179) || (n =? 185).

Fixpoint lstrip (s : text) : text :=
  match s with
  | c :: s' => if isspace c then lstrip s' else s
  | [] => []
  end.
(** [s.strip()] *)
Definition strip (s : text) : text := rev (lstrip (rev (lstrip s))).

(** [s.split(sep)] for a one-character separator *)
Fixpoint split_on (sep : ascii) (s : text) : list text :=
  match s with
  | [] => [[]]
  | c :: s' =>
      if eqc c sep then [] :: split_on sep s'
      else match split_on sep s' with
           | w :: ws => (c :: w) :: ws
           | [] => [[c]]
           end
  end.

(** [s.split()]: the maximal runs of non-whitespace characters.  [cur] is
    the run being read, reversed. *)
Fixpoint split_ws_from (cur : text) (s : text) : list text :=
  match s with
  | [] => match cur with [] => [] | _ => [rev cur] end
  | c :: s' =>
      if isspace c
      then match cur with
           | [] => split_ws_from [] s'
           | _ => rev cur :: split_ws_from [] s'
           end
      else split_ws_from (c :: cur) s'
  end.
Definition split (s : text) : list text := split_ws_from [] s.

(** [sep.join(ws)] *)
Fixpoint join (sep : text) (ws : list text) : text :=
  match ws with
  | [] => []
  | [w] => w
  | w :: ws' => w ++ sep ++ join sep ws'
  end.

Definition upper_char (c : ascii) : ascii :=
  let n := nat_of_ascii c in
  if (97 <=? n) && (n <=? 122) then ascii_of_nat (n - 32) else c.
Definition lower_char (c : ascii) : ascii :=
  let n := nat_of_ascii c in
  if (65 <=? n) && (n <=? 90) then ascii_of_nat (n + 32) else c.

(** [s.isascii()] *)
Definition isascii (s : text) : bool :=
  forallb (λ c, nat_of_ascii c <? 128) s.

(** [s.lower()] and [s.capitalize()] of ASCII text.  Python also changes
    the case of letters outside ASCII, not always to a character below 256;
    what is proved of the result of [capitalize] is proved of ASCII text. *)
Definition lower (s : text) : text := map lower_char s.
Definition capitalize (s : text) : text :=
  match s with
  | [] => []
  | c :: s' => upper_char c :: map lower_char s'
  end.

(** [s[i]] *)
Definition char_at (s : text) (i : nat) : option ascii := s !! i.

End PyStr.

(** ** The [random] module *)
Module Random.

(** The generator's future raw outputs. *)
Definition state := nat → nat.

Definition next (r : state) : nat * state := (r 0%nat, λ n, r (S n)).

(** [random.randint(a, b)] *)
Definition randint (a b : Z) (r : state) : PyResult Z * state :=
  if (b <? a)%Z then (Raised ValueError, r)
  else let '(x, r') := next r in
       (Ok (a + Z.of_nat x mod (b - a + 1))%Z, r').

(** [random.choice(seq)] *)
Definition choice {A} (seq : list A) (r : state) : PyResult A * state :=
  match seq with
  | [] => (Raised IndexError, r)
  | _ =>
      let '(x, r') := next r in
      match seq !! (x mod length seq)%nat with
      | Some a => (Ok a, r')
      | None => (Raised IndexError, r')
      end
  end.

(** [random.uniform(a, b)]: [a + (b-a) * random()], the unit draw having
    53 bits. *)
Definition unit_draw (x : nat) : Q :=
  inject_Z (Z.of_nat x mod 2 ^ 53) / inject_Z (2 ^ 53).
Definition uniform (a b : Q) (r : state) : Q * state :=
  let '(x, r') := next r in (a + (b - a) * unit_draw x, r')%Q.

(** The generator that returns the outputs of [l] and then zeros. *)
Definition of_list (l : list nat) : state := λ n, nth n l 0%nat.

End Random.

(** ** Stateful code that may raise

    [St S A] is a computation over a state [S]: the random generator for the
    text generator, the whole outside world for the generation loop. *)
Definition St (S A : Type) : Type := S → PyResult A * S.

Definition ret {S A} (a : A) : St S A := λ s, (Ok a, s).
Definition bind {S A B} (m : St S A) (k : A → St S B) : St S B :=
  λ s, match m s with
       | (Ok a, s') => k a s'
       | (Raised e, s') => (Raised e, s')
       | (OutOfFuel, s') => (OutOfFuel, s')
       end.
Definition raise {S A} (e : PyExn) : St S A := λ s, (Raised e, s).
Definition out_of_fuel {S A} : St S A := λ s, (OutOfFuel, s).

(** Code that only draws random numbers. *)
Abbreviation R := (St Random.state).

Declare Scope py_scope.
Delimit Scope py_scope with py.
Notation "'let*' x ':=' m 'in' k" := (bind m (λ x, k))
  (at level 10, x name, m at level 100, k at level 200) : py_scope.
Notation "'let*' ' p ':=' m 'in' k" := (bind m (λ x, let 'p := x in k))
  (at level 10, p pattern, m at level 100, k at level 200) : py_scope.
#[local] Open Scope py_scope.

(** ** modules/text_generation.py *)
Module TextGeneration.
Import PyStr.

(** The keys of [parts], in the order the dictionary lists them. *)
Inductive Category := noun | verb | adj | adv | prep | pronoun | det.

#[global] Instance Category_eq_dec : EqDecision Category.
Proof. solve_decision. Defined.

Definition categories : list Category :=
  [noun; verb; adj; adv; prep; pronoun; det].

Definition category_name (c : Category) : text :=
  match c with
  | noun => str "noun" | verb => str "verb" | adj => str "adj"
  | adv => str "adv" | prep => str "prep" | pronoun => str "pronoun"
  | det => str "det"
  end.

(** ['{' + category + '}'] *)
Definition placeholder (c : Category) : text :=
  str "{" ++ category_name c ++ str "}".

Definition structures : list text :=
  [str "The {adj} {noun} {verb} {adv} {prep} the {adj} {noun}.";
   str "{det} {adj} {noun} {verb} {det} {adj} {noun} {prep} {det} {adj} {noun}.";
   str "{pronoun} {adv} {verb} that {det} {noun} {verb} {adv} {prep} {det} {noun}.";
   str "When {det} {adj} {noun} {verb} {adv}, {det} {adj} {noun} {verb} {prep} {det} {noun}.";
   str "If {pronoun} {verb} {det} {adj} {noun}, {pronoun} will {verb} {det} {adj} {noun} {adv}.";
   str "{det} {adj} {noun} {verb} to {verb} {prep} {det} {adj} {noun} {prep} {det} {noun}.";
   str "{det} {noun} {verb} {adv}, but {det} {adj} {noun} {verb} {prep} {det} {adj} {noun}.";
   str "Although {det} {noun} {verb} {adv}, {det} {adj} {noun} {verb} {prep} {det} {adj} {noun}.";
   str "Not only {verb} {det} {adj} {noun} {adv}, but it also {verb} {prep} {det} {adj} {noun}.";
   str "During {det} {adj} {noun}, {det} {adj} {noun} {verb} {adv} {prep} {det} {noun}.";
   str "{det} {adj} {noun} {verb} {adv} because {det} {adj} {noun} {verb} {prep} {det} {noun}.";
   str "{det} {noun} that {verb} {prep} {det} {adj} {noun} {adv} {verb} {det} {adj} {noun}.";
   str "Why {verb} {det} {adj} {noun} {adv} {prep} {det} {adj} {noun}?";
   str "How {adv} {verb} {det} {adj} {noun} {prep} {det} {adj} {noun}?"].

Definition generate_sentence_structure : R text :=
  Random.choice structures.

Definition parts (c : Category) : list text :=
  match c with
  | noun =>
      [str "time"; str "person"; str "year"; str "way"; str "day";
       str "thing"; str "world"; str "life"; str "hand"; str "part";
       str "child"; str "eye"; str "place"; str "work"; str "week";
       str "case"; str "company"; str "system"; str "program";
       str "question"; str "government"; str "number"; str "night";
       str "point"; str "home"; str "water"; str "room"; str "mother";
       str "area"; str "money"; str "story"; str "fact"; str "month";
       str "lot"; str "right"; str "study"; str "book"; str "word";
       str "business"]
  | verb =>
      [str "is"; str "are"; str "was"; str "were"; str "be"; str "been";
       str "being"; str "have"; str "has"; str "had"; str "do"; str "does";
       str "did"; str "done"; str "make"; str "makes"; str "made";
       str "know"; str "thinks"; str "takes"; str "goes"; str "comes";
       str "uses"; str "finds"; str "gives"; str "tells"; str "works";
       str "likes"; str "needs"; str "feels"; str "becomes"; str "leaves";
       str "puts"; str "means"; str "keeps"; str "lets"; str "begins";
       str "seems"; str "helps"; str "shows"; str "plays"]
  | adj =>
      [str "good"; str "new"; str "first"; str "last"; str "long";
       str "great"; str "little"; str "own"; str "other"; str "old";
       str "right"; str "big"; str "high"; str "different"; str "small";
       str "large"; str "early"; str "young"; str "important"; str "few";
       str "public"; str "same"; str "able"; str "best"; str "better";
       str "low"; str "certain"; str "special"; str "hard"; str "major";
       str "personal"; str "current"; str "national"; str "natural";
       str "physical"; str "strong"; str "possible"; str "clear"]
  | adv =>
      [str "quickly"; str "slowly"; str "carefully"; str "happily";
       str "sadly"; str "really"; str "very"; str "extremely"; str "quite";
       str "rather"; str "almost"; str "nearly"; str "too"; str "also";
       str "then"; str "however"; str "again"; str "still"; str "sometimes";
       str "often"; str "usually"; str "always"; str "never"; str "ever";
       str "perhaps"; str "especially"; str "actually"; str "clearly";
       str "certainly"; str "absolutely"; str "completely"]
  | prep =>
      [str "in"; str "on"; str "with"; str "at"; str "by"; str "for";
       str "from"; str "to"; str "of"; str "about"; str "between";
       str "among"; str "through"; str "without"; str "before"; str "after";
       str "during"; str "around"; str "beyond"; str "under"; str "over";
       str "into"; str "against"; str "despite"; str "throughout";
       str "within"; str "along"; str "upon"; str "beside"]
  | pronoun =>
      [str "I"; str "you"; str "he"; str "she"; str "it"; str "we";
       str "they"; str "me"; str "him"; str "her"; str "us"; str "them";
       str "my"; str "your"; str "his"; str "her"; str "its"; str "our";
       str "their"; str "mine"; str "yours"; str "hers"; str "ours";
       str "theirs"; str "myself"; str "yourself"; str "himself";
       str "herself"; str "itself"; str "ourselves"; str "themselves"]
  | det =>
      [str "the"; str "a"; str "an"; str "this"; str "that"; str "these";
       str "those"; str "my"; str "your"; str "his"; str "her"; str "its";
       str "our"; str "their"; str "some"; str "any"; str "each";
       str "every"; str "many"; str "much"; str "few"; str "several";
       str "all"; str "both"; str "either"; str "neither"; str "no";
       str "another"]
  end.

(** Python truthiness of [special_word]. *)
Definition truthy (w : option text) : bool :=
  match w with Some (_ :: _) => true | _ => false end.

(** [while '{'+category+'}' in result: ...] for one category.  It returns
    the new [result] and what is left of [special_word]. *)
Fixpoint fill_category (fuel : nat) (category : Category)
    (special_word : option text) (special_word_pos : option Category)
    (result : text) : R (text * option text) :=
  match fuel with
  | O => out_of_fuel
  | S fuel' =>
      if contains (placeholder category) result then
        let* word := Random.choice (parts category) in
        let '(word, special_word) :=
          if truthy special_word
             && bool_decide (special_word_pos = Some category)
          then (default [] special_word, None)
          else (word, special_word) in
        fill_category fuel' category special_word special_word_pos
          (replace_first (placeholder category) word result)
      else ret (result, special_word)
  end.

(** A bound on the iterations of the loop above: every pass but the one
    that places [special_word] removes a brace from [result]. *)
Definition fill_fuel (special_word : option text) (result : text) : nat :=
  S (length result + length (default [] special_word)).

(** [for category in parts: while ...] *)
Fixpoint fill_categories (cats : list Category)
    (special_word : option text) (special_word_pos : option Category)
    (result : text) : R text :=
  match cats with
  | [] => ret result
  | c :: cats' =>
      let* '(result, special_word) :=
        fill_category (fill_fuel special_word result) c
          special_word special_word_pos result in
      fill_categories cats' special_word special_word_pos result
  end.

Definition suffixes : list text :=
  [str "indeed"; str "for sure"; str "without doubt"; str "as expected";
   str "interestingly"].

(** [while len(result) < 50: ...] *)
Fixpoint lengthen (fuel : nat) (result : text) : R text :=
  match fuel with
  | O => out_of_fuel
  | S fuel' =>
      if length result <? 50 then
        if contains (str " the ") result then
          let* a := Random.choice (parts adj) in
          lengthen fuel'
            (replace_first (str " the ") (str " the " ++ a ++ str " ") result)
        else if contains (str " a ") result then
          let* a := Random.choice (parts adj) in
          lengthen fuel'
            (replace_first (str " a ") (str " a " ++ a ++ str " ") result)
        else if endswith (str ".") result then
          let* s := Random.choice suffixes in
          ret (drop_last result ++ str " " ++ s ++ str ".")
        else ret result
      else ret result
  end.

(** Every pass of [lengthen] that does not leave the loop makes [result]
    longer, so 50 passes and the final test are enough. *)
Definition lengthen_fuel : nat := 51.

Definition fill_sentence_structure (structure : text)
    (special_word : option text) (special_word_pos : option Category)
    : R text :=
  let* result := fill_categories categories special_word special_word_pos
             structure in
  lengthen lengthen_fuel result.

Definition MIN_LINE_LENGTH : nat := 50.
Definition MAX_LINE_LENGTH : nat := 80.

(** The five templates of the highlighted line for a multi-word phrase. *)
Definition highlight_structures (highlighted_text : text) : list text :=
  [str "The {adj} {noun} " ++ highlighted_text
     ++ str " {prep} {det} {adj} {noun}.";
   str "{det} {adj} {noun} {adv} " ++ highlighted_text
     ++ str " {prep} {det} {noun}.";
   str "When " ++ highlighted_text
     ++ str ", {det} {adj} {noun} {verb} {adv} {prep} {det} {noun}.";
   str "{pronoun} {verb} that " ++ highlighted_text
     ++ str " {verb} {adv} {prep} {det} {adj} {noun}.";
   str "Because of " ++ highlighted_text
     ++ str ", {det} {adj} {noun} {verb} {adv} {prep} {det} {noun}."].

Definition retry_structure (highlighted_text : text) : text :=
  str "Although {det} {adj} {noun} {verb} {adv}, " ++ highlighted_text
    ++ str " {verb} {prep} {det} {adj} {noun}.".

Definition pos_options : list Category := [noun; verb; adj].

(** [' ' in highlighted_text and words_count > 1] *)
Definition is_phrase (highlighted_text : text) : bool :=
  contains (str " ") highlighted_text
  && (1 <? length (split highlighted_text)).

(** [while len(sentence) < MIN_LINE_LENGTH and attempts < 5] with the body
    [again]; [left] is [5 - attempts]. *)
Fixpoint retry_short (left : nat) (again : R text) (sentence : text)
    : R text :=
  match left with
  | O => ret sentence
  | S left' =>
      if length sentence <? MIN_LINE_LENGTH then
        let* sentence := again in retry_short left' again sentence
      else ret sentence
  end.

Definition highlighted_line (highlighted_text : text) : R text :=
  if is_phrase highlighted_text then
    let* sentence := Random.choice (highlight_structures highlighted_text) in
    let* sentence := fill_sentence_structure sentence None None in
    retry_short 5
      (fill_sentence_structure (retry_structure highlighted_text) None None)
      sentence
  else
    let* special_pos := Random.choice pos_options in
    let* structure := generate_sentence_structure in
    let* sentence := fill_sentence_structure structure
                 (Some highlighted_text) (Some special_pos) in
    retry_short 5
      (let* structure := generate_sentence_structure in
       fill_sentence_structure structure
         (Some highlighted_text) (Some special_pos))
      sentence.

Definition normal_line : R text :=
  let* structure := generate_sentence_structure in
  let* sentence := fill_sentence_structure structure None None in
  retry_short 5
    (let* structure := generate_sentence_structure in
     fill_sentence_structure structure None None)
    sentence.

(** [for i in range(num_lines)], from [i] on, [todo] lines to go. *)
Fixpoint build_lines (highlighted_text : text) (highlight_line_index : Z)
    (i : Z) (todo : nat) : R (list text) :=
  match todo with
  | O => ret []
  | S todo' =>
      let* sentence := (if (i =? highlight_line_index)%Z
                  then highlighted_line highlighted_text
                  else normal_line) in
      let* rest := build_lines highlighted_text highlight_line_index
               (i + 1)%Z todo' in
      ret (sentence :: rest)
  end.

(** [while cut_point > 0 and line[cut_point] != ' ': cut_point -= 1] *)
Fixpoint find_cut_point (line : text) (cut_point : nat) : nat :=
  match cut_point with
  | O => O
  | S below =>
      if bool_decide (line !! cut_point = Some " "%char) then cut_point
      else find_cut_point line below
  end.

Definition extra_phrases : list text :=
  [str " in the most unexpected way";
   str " as we had anticipated earlier";
   str " according to recent observations";
   str " with remarkable precision and detail";
   str " throughout the entire process";
   str " despite previous contradicting evidence";
   str " in this particular context"].

(** The body of [for line in lines] that cuts and extends one line. *)
Definition fit_line (line : text) : R text :=
  let line :=
    if MAX_LINE_LENGTH <? length line then
      let cut_point := find_cut_point line MAX_LINE_LENGTH in
      if MIN_LINE_LENGTH <? cut_point
      then take cut_point line ++ str "."
      else line
    else line in
  if length line <? MIN_LINE_LENGTH then
    if endswith (str ".") line then
      let* e := Random.choice extra_phrases in ret (drop_last line ++ e ++ str ".")
    else if endswith (str "?") line then
      let* e := Random.choice extra_phrases in ret (drop_last line ++ e ++ str "?")
    else if endswith (str "!") line then
      let* e := Random.choice extra_phrases in ret (drop_last line ++ e ++ str "!")
    else ret line
  else ret line.

Fixpoint fit_lines (lines : list text) : R (list text) :=
  match lines with
  | [] => ret []
  | line :: rest =>
      let* line := fit_line line in
      let* rest := fit_lines rest in
      ret (line :: rest)
  end.

(** [generate_random_text_snippet]; the result [(None, -1)] of the source
    is [(None, -1)] here as well. *)
Definition generate_random_text_snippet (highlighted_text : text)
    (min_lines max_lines : Z) : R (option (list text) * Z) :=
  let* num_lines :=
    Random.randint (Z.max 1 min_lines) (Z.max min_lines max_lines) in
  let* highlight_line_index := Random.randint 0 (num_lines - 1) in
  let* lines := build_lines highlighted_text highlight_line_index 0
            (Z.to_nat num_lines) in
  let* final_lines := fit_lines lines in
  if (Z.of_nat (length final_lines) <? min_lines)%Z
  then ret (None, (-1)%Z)
  else ret (Some final_lines, highlight_line_index).

End TextGeneration.

(** ** The outside world

    What the run consumes as it goes: the [random] generator, numpy's
    generator (its future standard normal variates) and the answers the text
    service gives to the requests still to come ([None]: the request raises). *)
Record World := {
  py_random : Random.state;
  np_random : nat → Q;
  service : nat → option text;
}.

Definition with_random {A} (m : R A) : St World A :=
  λ w, let '(x, r) := m (py_random w) in
       (x, {| py_random := r; np_random := np_random w;
              service := service w |}).

(** [try: m  except Exception: handler] *)
Definition try_except {S A} (m : St S A) (handler : PyExn → St S A)
    : St S A :=
  λ s, match m s with
       | (Raised e, s') => handler e s'
       | other => other
       end.

Definition of_result {S A} (x : PyResult A) : St S A :=
  λ s, (x, s).

(** ** modules/ai_providers.py *)
Module AiProviders.
Import PyStr.

(** A client object of one of the provider libraries. *)
Record Client := { client_provider : string; client_key : string }.

(** [initialize_ai_client]; [available p] is the module flag of provider
    [p] ([MISTRAL_AVAILABLE], ...) and [construct] is the provider's
    constructor, [None] when it raises. *)
Definition initialize_ai_client (available : string → bool)
    (construct : string → string → option Client)
    (provider api_key : string) : option Client :=
  if bool_decide (api_key = EmptyString) then None
  else if existsb (λ p, bool_decide (provider = p) && available p)
            ["mistral"; "gemini"; "anthropic"; "deepseek"]
       then construct provider api_key
       else None.

Definition skipped (line : text) : bool :=
  startswith (str "#") line || startswith (str "-") line
  || startswith (str "*") line || startswith (str "Note:") line
  || startswith (str "Format:") line.

(** [if len(line) > 2 and line[0].isdigit() and line[1] == '.' and
    line[2] == ' ': line = line[3:]] *)
Definition unnumbered (line : text) : text :=
  match line with
  | c0 :: c1 :: c2 :: rest =>
      if isdigit c0 && eqc c1 "."%char && eqc c2 " "%char then rest
      else line
  | _ => line
  end.

Definition MIN_REQUIRED_LINES : nat := 12.

(** One pass of the loop that pads the answer with altered copies. *)
Definition duplicate (original : list text) (highlight_index : Z) (i : nat)
    : PyResult text :=
  let n := length original in
  if n =? 0 then Raised ZeroDivisionError
  else
    let source_idx := i mod n in
    let source_idx :=
      if (Z.of_nat source_idx =? highlight_index)%Z && (1 <? n)
      then (source_idx + 1) mod n else source_idx in
    match original !! source_idx with
    | None => Raised IndexError
    | Some source_line =>
        let words := split source_line in
        if 3 <? length words
        then Ok (capitalize (join (str " ") (rev words)) ++ str ".")
        else Ok source_line
    end.

Fixpoint duplicates (original : list text) (highlight_index : Z)
    (passes : list nat) : PyResult (list text) :=
  match passes with
  | [] => Ok []
  | i :: passes' =>
      match duplicate original highlight_index i with
      | Ok l =>
          match duplicates original highlight_index passes' with
          | Ok ls => Ok (l :: ls)
          | other => other
          end
      | Raised e => Raised e
      | OutOfFuel => OutOfFuel
      end
  end.

Definition process_ai_response (content highlighted_text : text)
    : PyResult (list text * Z) :=
  let cleaned_content :=
    strip (replace_all (str "**") [] (replace_all (str "```") [] content)) in
  let lines :=
    map strip
      (filter (λ line, bool_decide (strip line ≠ []))
         (split_on "010"%char cleaned_content)) in
  let filtered_lines :=
    map unnumbered (filter (λ line, negb (skipped line)) lines) in
  let highlight_index :=
    first_index (contains highlighted_text) filtered_lines in
  if length filtered_lines <? MIN_REQUIRED_LINES then
    match duplicates filtered_lines highlight_index
            (seq 0 (MIN_REQUIRED_LINES - length filtered_lines)) with
    | Ok extra => Ok (filtered_lines ++ extra, highlight_index)
    | Raised e => Raised e
    | OutOfFuel => OutOfFuel
    end
  else Ok (filtered_lines, highlight_index).

(** The next answer of the text service. *)
Definition ask_service : St World text :=
  λ w, let w' := {| py_random := py_random w; np_random := np_random w;
                    service := λ n, service w (S n) |} in
       match service w 0 with
       | Some content => (Ok content, w')
       | None => (Raised (OtherError "text service request failed"), w')
       end.

(** [generate_mistral_text], [generate_gemini_text],
    [generate_anthropic_text], [generate_deepseek_text]: ask the service
    and process its answer.  The prompt only influences what the service
    answers. *)
Definition generate_provider_text (highlighted_text : text)
    : St World (list text * Z) :=
  let* content := ask_service in
  of_result (process_ai_response content highlighted_text).

(** The quality test of one line. *)
Definition acceptable (line : text) : bool :=
  (40 <=? length line) && (length line <=? 100)
  && contains (str " ") line
  && (contains (str ".") line || contains (str "?") line
      || contains (str "!") line)
  && negb (startswith (str "#") line)
  && negb (startswith (str "```") line)
  && negb (startswith (str "---") line)
  && bool_decide (strip line ≠ [])
  && (5 <=? length (split line)).

Definition known_provider (provider : string) : bool :=
  bool_decide (provider ∈ ["mistral"; "gemini"; "anthropic"; "deepseek"]).

(** The validation of lines 209 to 241. *)
Definition validate (lines : option (list text)) (highlight_index : Z)
    (highlighted_text : text) (min_lines : Z) : option (list text) * Z :=
  match lines with
  | Some (l :: ls) =>
      if (highlight_index =? -1)%Z then (None, (-1)%Z)
      else
        let valid_lines := filter acceptable (l :: ls) in
        match valid_lines with
        | [] => (None, (-1)%Z)
        | _ =>
            if (min_lines <=? Z.of_nat (length valid_lines))%Z then
              let new_highlight_index :=
                first_index (contains highlighted_text) valid_lines in
              if (new_highlight_index =? -1)%Z then (None, (-1)%Z)
              else (Some valid_lines, new_highlight_index)
            else (None, (-1)%Z)
        end
  | _ => (None, (-1)%Z)
  end.

Definition generate_ai_text_snippet (client : option Client)
    (provider model : string) (highlighted_text : text)
    (min_lines max_lines : Z) : St World (option (list text) * Z) :=
  match client with
  | None => ret (None, (-1)%Z)
  | Some _ =>
      try_except
        (let* '(lines, highlight_index) :=
           (if known_provider provider
            then let* '(ls, i) := generate_provider_text highlighted_text in
                 ret (Some ls, i)
            else ret (None, (-1)%Z)) in
         ret (validate lines highlight_index highlighted_text min_lines))
        (λ _, ret (None, (-1)%Z))
  end.

End AiProviders.

(** ** Pictures

    The raster library (PIL) is outside the repository.  A picture is
    represented by the library calls that produce it, with their arguments:
    two equal values of [Img] are the same pixels, because every one of those
    calls is a function of its arguments. *)
Record Font := { font_file : text; font_px : Z }.

Inductive Paint :=
| Colour (name : string)
| Level (v : Z).

Inductive Img :=
| Image_new (mode : string) (w h : Z) (colour : Paint)
| Image_open (path : text)
| Image_fromarray (h w : Z) (values : list Z)
| Resize (i : Img) (w h : Z)
| Crop (i : Img) (left top right bottom : Z)
| Brightness (i : Img) (factor : Q)
| Contrast (i : Img) (factor : Q)
| Sharpness (i : Img) (factor : Q)
| Putalpha (i mask : Img)
| Blend (a b : Img) (alpha : Q)
| Composite (a b mask : Img)
| Paste (onto i : Img) (x y : Z)
| GaussianBlur (i : Img) (radius : Q)
| Ellipse (i : Img) (x0 y0 x1 y1 : Q) (fill : Paint)
| Rectangle (i : Img) (x0 y0 x1 y1 : Q) (fill outline : option Paint)
| Text (i : Img) (x y : Q) (s : text) (font : Font) (fill : Paint).

(** What the raster library refuses, with [ValueError]: a picture of
    negative width or height ([Image.new]), a box whose second corner lies
    left of or above the first ([draw.rectangle], [draw.ellipse],
    [image.crop]) and a picture without width or height as the result of
    [image.resize]. *)
Definition image_new (mode : string) (w h : Z) (colour : Paint)
    : PyResult Img :=
  if (w <? 0)%Z || (h <? 0)%Z then Raised ValueError
  else Ok (Image_new mode w h colour).

Definition rectangle (i : Img) (x0 y0 x1 y1 : Q) (fill outline : option Paint)
    : PyResult Img :=
  if Qltb x1 x0 || Qltb y1 y0 then Raised ValueError
  else Ok (Rectangle i x0 y0 x1 y1 fill outline).

Definition ellipse (i : Img) (x0 y0 x1 y1 : Q) (fill : Paint) : PyResult Img :=
  if Qltb x1 x0 || Qltb y1 y0 then Raised ValueError
  else Ok (Ellipse i x0 y0 x1 y1 fill).

Definition crop (i : Img) (left top right bottom : Z) : PyResult Img :=
  if (right <? left)%Z || (bottom <? top)%Z then Raised ValueError
  else Ok (Crop i left top right bottom).

Definition resize (i : Img) (w h : Z) : PyResult Img :=
  if (w <=? 0)%Z || (h <=? 0)%Z then Raised ValueError
  else Ok (Resize i w h).

(** ** The host: files, fonts and libraries outside the repository *)
Record Host := {
  (** [os.path.exists], [os.path.isdir], [os.listdir] *)
  path_exists : text → bool;
  isdir : text → bool;
  listdir : text → list text;
  (** [Image.open(path)]: the size of the picture, or the error *)
  image_open : text → PyResult (Z * Z);
  (** [ImageFont.truetype(path, size)] *)
  truetype : text → Z → PyResult Font;
  (** [font.getmetrics()], [font.getlength(s)], [font.getbbox(s, anchor="lt")] *)
  getmetrics : Font → PyResult (Z * Z);
  getlength : Font → text → PyResult Q;
  getbbox : Font → text → PyResult (Z * Z * Z * Z);
  (** whether [draw.text(..., s, font=font, ...)] succeeds *)
  draws : Font → text → bool;
  (** [fm.findSystemFonts(...)] and [fm.findfont(..., fallback_to_default=True)] *)
  system_fonts : PyResult (list text);
  fallback_font : PyResult (option text);
  (** the provider libraries *)
  provider_available : string → bool;
  provider_client : string → string → option AiProviders.Client;
  (** [str(e)] for an exception [e] that a library raised *)
  exception_text : PyExn → string;
}.

(** [os.path.join(a, b)] on a POSIX host. *)
Definition path_join (a b : text) : text :=
  if PyStr.startswith (str "/") b then b
  else if bool_decide (a = []) || PyStr.endswith (str "/") a then a ++ b
  else a ++ str "/" ++ b.

(** [range(n)] *)
Definition range (n : Z) : list Z := map Z.of_nat (seq 0 (Z.to_nat n)).

(** [for x in xs: acc = body(acc, x)] in stateful code. *)
Fixpoint for_each {S A B} (xs : list B) (body : A → B → St S A) (acc : A)
    : St S A :=
  match xs with
  | [] => ret acc
  | x :: xs' => let* acc := body acc x in for_each xs' body acc
  end.

(** Code without state that may raise. *)
Definition pure_bind {A B} (x : PyResult A) (k : A → PyResult B)
    : PyResult B :=
  match x with
  | Ok a => k a
  | Raised e => Raised e
  | OutOfFuel => OutOfFuel
  end.

(** [for x in xs: acc = body(acc, x)] in such code. *)
Fixpoint for_each_pure {A B} (xs : list B) (body : A → B → PyResult A)
    (acc : A) : PyResult A :=
  match xs with
  | [] => Ok acc
  | x :: xs' => pure_bind (body acc x) (for_each_pure xs' body)
  end.

(** ** modules/textures.py *)
Module Textures.
Import PyStr.

Definition nonempty (s : option text) : bool :=
  match s with Some (_ :: _) => true | _ => false end.

(** The size of a picture ([image.size]). *)
Fixpoint size (host : Host) (i : Img) : Z * Z :=
  match i with
  | Image_new _ w h _ => (w, h)
  | Image_open path =>
      match image_open host path with Ok s => s | _ => (0, 0)%Z end
  | Image_fromarray h w _ => (w, h)
  | Resize _ w h => (w, h)
  | Crop _ l t r b => (r - l, b - t)%Z
  | Brightness i _ | Contrast i _ | Sharpness i _ | Putalpha i _
  | Blend i _ _ | Composite i _ _ | Paste i _ _ _ | GaussianBlur i _
  | Ellipse i _ _ _ _ _ | Rectangle i _ _ _ _ _ _ | Text i _ _ _ _ _ =>
      size host i
  end.

(** The part of [create_paper_texture] that loads a named texture; the
    whole of it runs inside [try], so every error gives [None].  The scale
    and the new size are floats in the code. *)
Definition load_texture (host : Host) (width height : Z)
    (texture_name media_dir : text) : option Img :=
  let texture_path :=
    if startswith (str "custom_texture_") texture_name
       || contains (str ".") texture_name
    then path_join media_dir texture_name
    else path_join media_dir (texture_name ++ str ".jpg") in
  if negb (path_exists host texture_path) then None
  else
    match image_open host texture_path with
    | Ok (orig_width, orig_height) =>
        if (orig_width =? 0)%Z || (orig_height =? 0)%Z then None
        else
          let texture := Image_open texture_path in
          let scale_w :=
            PrimFloat.div (float_of_int width) (float_of_int orig_width) in
          let scale_h :=
            PrimFloat.div (float_of_int height) (float_of_int orig_height) in
          let scale := float_max scale_w scale_h in
          match int_of_float (PrimFloat.mul (float_of_int orig_width) scale),
                int_of_float (PrimFloat.mul (float_of_int orig_height) scale)
          with
          | Some new_width, Some new_height =>
              let processed :=
                pure_bind (resize texture new_width new_height) (λ texture,
                pure_bind
                  (if (width <? new_width)%Z || (height <? new_height)%Z
                   then
                     let left := ((new_width - width) / 2)%Z in
                     let top := ((new_height - height) / 2)%Z in
                     crop texture left top (left + width) (top + height)
                   else Ok texture) (λ texture,
                pure_bind
                  (if bool_decide (size host texture = (width, height))
                   then Ok texture else resize texture width height)
                  (λ texture,
                let texture := Brightness texture 1.2 in
                let texture := Contrast texture 0.9 in
                let '(w, h) := size host texture in
                pure_bind (image_new "L" w h (Level 255)) (λ alpha,
                Ok (Putalpha texture alpha))))) in
              match processed with
              | Ok texture => Some texture
              | _ => None
              end
          | _, _ => None
          end
    | _ => None
    end.

(** [np.random.normal(mu, sigma, shape)] for [count] values. *)
Definition np_normal (mu sigma : Q) (count : nat) : St World (list Q) :=
  λ w, (Ok (map (λ k, mu + sigma * np_random w k)%Q (seq 0 count)),
        {| py_random := py_random w;
           np_random := λ k, np_random w (count + k);
           service := service w |}).

(** [(np.clip(x, 0, 1) * 255).astype(np.uint8)] *)
Definition to_uint8 (x : Q) : Z := py_int (Qmax 0 (Qmin x 1) * 255).

Definition grain_dot (width height grain_size : Z) (grain : Img)
    : St World Img :=
  let* x := with_random (Random.randint 0 (width - 1)) in
  let* y := with_random (Random.randint 0 (height - 1)) in
  let* size := with_random (Random.randint 1 grain_size) in
  let* brightness := with_random (Random.randint 200 255) in
  of_result
    (ellipse grain (inject_Z x) (inject_Z y)
       (inject_Z (x + size)) (inject_Z (y + size)) (Level brightness)).

Definition edge_shadow (width height shadow_width : Z) (shadow : Img)
    (i : Z) : PyResult Img :=
  let alpha := py_int (255 * (inject_Z i / inject_Z shadow_width)) in
  rectangle shadow (inject_Z i) (inject_Z i)
    (inject_Z (width - i)) (inject_Z (height - i)) None (Some (Level alpha)).

(** The procedural paper of [create_paper_texture]. *)
Definition paper (width height : Z) (color : string) (noise_intensity : Q)
    (grain_size : Z) : St World Img :=
  let* base := of_result (image_new "RGB" width height (Colour color)) in
  let* noise :=
    np_normal 0.5 noise_intensity (Z.to_nat height * Z.to_nat width * 3) in
  let noise_img := Image_fromarray height width (map to_uint8 noise) in
  let* grain := of_result (image_new "L" width height (Level 0)) in
  let* grain :=
    for_each (range (width * height / 100))
      (λ grain _, grain_dot width height grain_size grain) grain in
  let result := Blend base noise_img 0.1 in
  let result := Composite result base grain in
  let* shadow := of_result (image_new "L" width height (Level 255)) in
  let shadow_width := (width / 20)%Z in
  let* shadow :=
    of_result
      (for_each_pure (range shadow_width)
         (edge_shadow width height shadow_width) shadow) in
  ret (Putalpha result shadow).

Definition create_paper_texture (host : Host) (width height : Z)
    (color : string) (noise_intensity : Q) (grain_size : Z)
    (texture_name media_dir : option text) : St World (option Img) :=
  if nonempty texture_name
     && bool_decide (texture_name ≠ Some (str "none"))
     && nonempty media_dir
  then ret (load_texture host width height
              (default [] texture_name) (default [] media_dir))
  else
    let* result := paper width height color noise_intensity grain_size in
    ret (Some result).

Definition create_radial_blur_mask (width height : Z)
    (center_x center_y sharp_radius fade_radius : Q) : PyResult Img :=
  pure_bind (image_new "L" width height (Level 0)) (λ mask,
  pure_bind
    (ellipse mask (center_x - sharp_radius) (center_y - sharp_radius)
       (center_x + sharp_radius) (center_y + sharp_radius) (Level 255))
    (λ mask,
  let blur_amount := Qmax 0.1 ((fade_radius - sharp_radius) / 3.5) in
  Ok (GaussianBlur mask blur_amount))).

Definition vignette_ring (width height : Z) (mask : Img) (i : Z)
    : PyResult Img :=
  let q := (inject_Z i / (inject_Z width / 4))%Q in
  let alpha := py_int (255 * (1 - q * q)) in
  rectangle mask (inject_Z i) (inject_Z i)
    (inject_Z (width - i)) (inject_Z (height - i)) None (Some (Level alpha)).

Definition apply_vignette (host : Host) (image : Img) : PyResult Img :=
  let '(width, height) := size host image in
  pure_bind (image_new "L" width height (Level 255)) (λ mask,
  pure_bind
    (for_each_pure (range (width / 4)) (vignette_ring width height) mask)
    (λ mask,
  let mask := GaussianBlur mask (inject_Z (width / 30)) in
  Ok (Putalpha image mask))).

End Textures.

(** ** modules/image_processing.py *)
Module ImageProcessing.
Import PyStr.

(** [get_random_font]: a path out of [set(font_paths) - set(exclude_list)],
    or matplotlib's sans-serif fallback once that set is empty. *)
Definition get_random_font (host : Host) (font_paths : list text)
    (exclude_list : gset text) : St World (option text) :=
  let available_fonts :=
    elements (list_to_set font_paths ∖ exclude_list : gset text) in
  match available_fonts with
  | [] =>
      match fallback_font host with
      | Ok (Some fallback_path) =>
          if bool_decide (fallback_path = []) then ret None
          else ret (Some fallback_path)
      | _ => ret None
      end
  | _ =>
      let* p := with_random (Random.choice available_fonts) in
      ret (Some p)
  end.

(** The arguments of [create_text_image_frame]. *)
Record FrameArgs := {
  width : Z;
  height : Z;
  text_lines : list text;
  highlight_line_index : Z;
  highlighted_text : text;
  font_path : text;
  font_size : Z;
  text_color : string;
  bg_color : string;
  highlight_color : string;
  blur_type : string;
  blur_radius : Q;
  radial_sharp_radius_factor : Q;
  vertical_spread_factor : Q;
  y_offset : Q;
  background_texture : option text;
  media_dir : option text;
}.

(** [os.path.splitext(path)[0]]: the path without the extension of its
    last component (leading dots of the component do not start one). *)
Fixpoint ext_start (component : text) (seen_other : bool) (i : nat)
    (last_dot : option nat) : option nat :=
  match component with
  | [] => last_dot
  | c :: rest =>
      if eqc c "."%char
      then ext_start rest seen_other (S i)
             (if seen_other then Some i else last_dot)
      else ext_start rest true (S i) last_dot
  end.
Definition base_name (path : text) : text :=
  let parts := split_on "/"%char path in
  let dir_len := length path - length (List.last parts []) in
  match ext_start (List.last parts []) false 0 None with
  | Some k => take (dir_len + k) path
  | None => path
  end.

Definition common_bold_suffixes : list text :=
  [str "bd.ttf"; str "-Bold.ttf"; str "b.ttf"; str "_Bold.ttf";
   str " Bold.ttf"].

(** [for suffix in common_bold_suffixes]; a candidate that exists but does
    not load ([continue]) skips the second candidate of its suffix. *)
Fixpoint find_bold (host : Host) (base : text) (font_size : Z)
    (regular : Font) (suffixes : list text) : PyResult Font :=
  match suffixes with
  | [] => Ok regular
  | suffix :: rest =>
      let first :=
        replace_all (str "regular") []
          (replace_all (str "Regular") [] base) ++ suffix in
      if path_exists host first then
        match truetype host first font_size with
        | Ok f => Ok f
        | Raised IOError => find_bold host base font_size regular rest
        | other => other
        end
      else
        let second := base ++ suffix in
        if path_exists host second then
          match truetype host second font_size with
          | Ok f => Ok f
          | Raised IOError => find_bold host base font_size regular rest
          | other => other
          end
        else find_bold host base font_size regular rest
  end.

(** The block "Font Loading": the regular and the bold font. *)
Definition load_fonts (host : Host) (a : FrameArgs)
    : PyResult (Font * Font) :=
  match truetype host (font_path a) (font_size a) with
  | Ok font =>
      match find_bold host (base_name (font_path a)) (font_size a) font
              common_bold_suffixes with
      | Ok bold_font => Ok (font, bold_font)
      | Raised IOError =>
          Raised (FontLoadError "Failed to load font")
      | Raised _ => Raised (FontLoadError "Unexpected error loading font")
      | OutOfFuel => OutOfFuel
      end
  | Raised IOError => Raised (FontLoadError "Failed to load font")
  | Raised _ => Raised (FontLoadError "Unexpected error loading font")
  | OutOfFuel => OutOfFuel
  end.

(** What the block "Calculations" hands to the drawing code. *)
Record Layout := {
  line_height : Z;
  highlight_width_bold : Q;
  highlight_height_bold : Z;
  highlight_target_x : Q;
  highlight_target_y : Q;
  block_start_y : Q;
  highlight_found_in_line : bool;
  bg_highlight_line_start_x : Q;
}.

(** [line_height], lines 93 to 102. *)
Definition measure_line_height (host : Host) (font : Font)
    (font_size : Z) (vertical_spread_factor : Q) : PyResult Z :=
  pure_bind
    (match getmetrics host font with
     | Ok (ascent, descent) =>
         let metric_height := (ascent + Z.abs descent)%Z in
         Ok (py_int (inject_Z metric_height * vertical_spread_factor))
     | Raised AttributeError =>
         pure_bind (getbbox host font (str "Ay"))
           (λ '(_, top, _, bottom),
              Ok (py_int (inject_Z (bottom - top) * vertical_spread_factor)))
     | other => pure_bind other (λ _, Ok 0%Z)
     end)
    (λ line_height,
       if Qle_bool (inject_Z line_height) (inject_Z font_size * 0.8)
       then Ok (py_int (inject_Z font_size * 1.2 * vertical_spread_factor))
       else Ok line_height).

(** The statements of lines 93 to 146, before their errors are turned into
    [FontDrawError]. *)
Definition calculations (host : Host) (a : FrameArgs)
    (font bold_font : Font) : PyResult Layout :=
  pure_bind
    (measure_line_height host font (font_size a) (vertical_spread_factor a))
    (λ line_height,
  pure_bind (getlength host bold_font (highlighted_text a))
    (λ highlight_width_bold,
  pure_bind (getbbox host bold_font (highlighted_text a))
    (λ '(_, top, _, bottom),
  let highlight_height_bold := (bottom - top)%Z in
  let degenerate :=
    Qle_bool highlight_width_bold 0 || (highlight_height_bold <=? 0)%Z in
  let highlight_height_bold :=
    if degenerate then py_int (inject_Z (font_size a) * 1.1)
    else highlight_height_bold in
  let highlight_width_bold :=
    if degenerate && Qle_bool highlight_width_bold 0
    then (inject_Z (Z.of_nat (length (highlighted_text a)))
          * inject_Z (font_size a) * 0.6)%Q
    else highlight_width_bold in
  let highlight_target_x :=
    ((inject_Z (width a) - highlight_width_bold) / 2)%Q in
  let highlight_target_y :=
    ((inject_Z (height a) - inject_Z highlight_height_bold) / 2)%Q in
  let total_block_height :=
    (line_height * Z.of_nat (length (text_lines a)))%Z in
  let vertical_center_offset :=
    ((inject_Z (height a) - inject_Z total_block_height) / 2)%Q in
  let block_start_y := Qmax 10 vertical_center_offset in
  let highlight_target_y :=
    (block_start_y
     + inject_Z (highlight_line_index a * line_height))%Q in
  pure_bind (py_index (text_lines a) (highlight_line_index a))
    (λ highlight_line_full_text,
  let '(prefix_text, highlight_found_in_line) :=
    match find (highlighted_text a) highlight_line_full_text with
    | Some start_index => (take start_index highlight_line_full_text, true)
    | None => ([], false)
    end in
  pure_bind (getlength host font prefix_text)
    (λ prefix_width_regular,
  Ok {| line_height := line_height;
        highlight_width_bold := highlight_width_bold;
        highlight_height_bold := highlight_height_bold;
        highlight_target_x := highlight_target_x;
        highlight_target_y := highlight_target_y;
        block_start_y := block_start_y;
        highlight_found_in_line := highlight_found_in_line;
        bg_highlight_line_start_x :=
          (highlight_target_x - prefix_width_regular)%Q |}))))).

(** The block "Calculations" with its [except] clauses. *)
Definition measure (host : Host) (a : FrameArgs) (font bold_font : Font)
    : PyResult Layout :=
  match calculations host a font bold_font with
  | Raised AttributeError => Raised (FontDrawError "Font lacks methods.")
  | Raised _ => Raised (FontDrawError "Measurement fail")
  | other => other
  end.

(** [draw_text_with_shadow] *)
Definition draw_text_with_shadow (host : Host) (a : FrameArgs) (img : Img)
    (pos_x pos_y : Q) (s : text) (font : Font) (color : string)
    : PyResult Img :=
  if draws host font s then
    let shadow_offset :=
      inject_Z (Z.max 1 (py_int (inject_Z (font_size a) * 0.02))) in
    let img :=
      Text img (pos_x + shadow_offset) (pos_y + shadow_offset) s font
        (Colour "#333333") in
    Ok (Text img pos_x pos_y s font (Colour color))
  else Raised (OtherError "text drawing failed").

(** The horizontal position of line [i]. *)
Definition line_position (host : Host) (a : FrameArgs) (lay : Layout)
    (font : Font) (i : nat) (line : text) : PyResult Q :=
  if (Z.of_nat i =? highlight_line_index a)%Z && highlight_found_in_line lay
  then Ok (bg_highlight_line_start_x lay)
  else
    pure_bind
      (match getlength host font line with
       | Raised AttributeError =>
           pure_bind (getbbox host font line)
             (λ '(x0, _, x1, _), Ok (inject_Z (x1 - x0)))
       | other => other
       end)
      (λ line_width,
         let line_x := Qmax 20 ((inject_Z (width a) - line_width) / 2) in
         if Qltb line_width (inject_Z (width a) * 0.3) then
           let center_column_width := (inject_Z (width a) * 0.7)%Q in
           Ok (Qmax line_x ((inject_Z (width a) - center_column_width) / 2))
         else Ok line_x).

(** [for i, line in enumerate(text_lines)], drawing on both pictures. *)
Fixpoint draw_lines (host : Host) (a : FrameArgs) (lay : Layout)
    (font : Font) (i : nat) (lines : list text) (current_y : Q)
    (img_base img_sharp : Img) : PyResult (Img * Img) :=
  match lines with
  | [] => Ok (img_base, img_sharp)
  | line :: rest =>
      pure_bind (line_position host a lay font i line) (λ line_x,
      pure_bind (draw_text_with_shadow host a img_base line_x current_y
                   line font (text_color a)) (λ img_base,
      pure_bind (draw_text_with_shadow host a img_sharp line_x current_y
                   line font (text_color a)) (λ img_sharp,
      draw_lines host a lay font (S i) rest
        (current_y + inject_Z (line_height lay)) img_base img_sharp)))
  end.

(** The block "Base Image Drawing" with its [except] clause. *)
Definition base_drawing (host : Host) (a : FrameArgs) (lay : Layout)
    (font : Font) (img_base : Img) : PyResult (Img * Img) :=
  match draw_lines host a lay font 0 (text_lines a)
          (block_start_y lay + y_offset a) img_base img_base with
  | Raised _ => Raised (FontDrawError "Base draw fail")
  | other => other
  end.

(** The block "Apply Blur"; the padded Gaussian blur runs inside [try]
    and falls back to the direct blur. *)
Definition apply_blur (a : FrameArgs) (img_base img_sharp : Img)
    : PyResult Img :=
  let padding_for_blur := py_int (blur_radius a * 3) in
  if bool_decide (blur_type a = "gaussian") && Qltb 0 (blur_radius a) then
    let padded_width := (width a + 2 * padding_for_blur)%Z in
    let padded_height := (height a + 2 * padding_for_blur)%Z in
    match
      pure_bind
        (image_new "RGB" padded_width padded_height (Colour (bg_color a)))
        (λ img_padded,
           let img_padded :=
             Paste img_padded img_base padding_for_blur padding_for_blur in
           let img_padded_blurred :=
             GaussianBlur img_padded (blur_radius a) in
           crop img_padded_blurred padding_for_blur padding_for_blur
             (padding_for_blur + width a) (padding_for_blur + height a))
    with
    | Raised _ => Ok (GaussianBlur img_base (blur_radius a))
    | other => other
    end
  else if bool_decide (blur_type a = "radial") && Qltb 0 (blur_radius a)
  then
    let img_fully_blurred := GaussianBlur img_base (blur_radius a * 1.5) in
    let sharp_center_radius :=
      (inject_Z (Z.min (width a) (height a))
       * radial_sharp_radius_factor a)%Q in
    let fade_radius :=
      (sharp_center_radius
       + inject_Z (Z.max (width a) (height a)) * 0.15)%Q in
    pure_bind
      (Textures.create_radial_blur_mask (width a) (height a)
         (inject_Z (width a) / 2) (inject_Z (height a) / 2)
         sharp_center_radius fade_radius)
      (λ mask, Ok (Composite img_sharp img_fully_blurred mask))
  else Ok img_base.

(** The block "Final Image": the highlight rectangle and the phrase in the
    bold font, with its [except] clause. *)
Definition final_overlay (host : Host) (a : FrameArgs) (lay : Layout)
    (bold_font : Font) (img_blurred : Img) : PyResult Img :=
  let padding := (inject_Z (font_size a) * 0.10)%Q in
  match
    rectangle img_blurred
      (highlight_target_x lay - padding) (highlight_target_y lay - padding)
      (highlight_target_x lay + highlight_width_bold lay + padding)
      (highlight_target_y lay + inject_Z (highlight_height_bold lay)
       + padding)
      (Some (Colour (highlight_color a))) None
  with
  | Ok final_img =>
      if draws host bold_font (highlighted_text a) then
        Ok (Text final_img (highlight_target_x lay) (highlight_target_y lay)
              (highlighted_text a) bold_font (Colour (text_color a)))
      else Raised (FontDrawError "Failed final highlight draw")
  | Raised _ => Raised (FontDrawError "Failed final highlight draw")
  | OutOfFuel => OutOfFuel
  end.

Definition create_text_image_frame (host : Host) (a : FrameArgs)
    : St World Img :=
  let* img_base :=
    Textures.create_paper_texture host (width a) (height a) (bg_color a)
      0.08 2 (background_texture a) (media_dir a) in
  let* img_base :=
    match img_base with
    | Some img => ret img
    | None => Textures.paper (width a) (height a) (bg_color a) 0.08 2
    end in
  let* '(font, bold_font) := of_result (load_fonts host a) in
  let* lay := of_result (measure host a font bold_font) in
  let* '(img_base, img_sharp) :=
    of_result (base_drawing host a lay font img_base) in
  let* img_base := of_result (Textures.apply_vignette host img_base) in
  let* img_sharp := of_result (Textures.apply_vignette host img_sharp) in
  let* img_blurred := of_result (apply_blur a img_base img_sharp) in
  let* final_img :=
    of_result (final_overlay host a lay bold_font img_blurred) in
  let final_img := Contrast final_img 1.1 in
  let final_img := Sharpness final_img 1.2 in
  ret final_img.

End ImageProcessing.

(** ** modules/video_generator.py *)
Module VideoGenerator.
Import PyStr ImageProcessing.

(** The module constants. *)
Record Constants := {
  RADIAL_SHARP_RADIUS_FACTOR : Q;
  MAX_FONT_RETRIES_PER_FRAME : nat;
  FRAMES_PER_SNIPPET : nat;
  TEXT_POOL_SIZE : nat;
}.

Definition module_constants : Constants :=
  {| RADIAL_SHARP_RADIUS_FACTOR := 0.3;
     MAX_FONT_RETRIES_PER_FRAME := 5;
     FRAMES_PER_SNIPPET := 3;
     TEXT_POOL_SIZE := 10 |}.

(** The dictionary [params]; an optional key is an [option]. *)
Record Params := {
  p_width : Z;
  p_height : Z;
  p_fps : Z;
  p_duration : Z;
  p_highlighted_text : text;
  p_highlight_color : string;
  p_text_color : string;
  p_background_color : string;
  p_blur_type : string;
  p_blur_radius : Q;
  p_ai_enabled : bool;
  p_ai_provider : string;
  p_api_key : string;
  p_background_texture : option text;
  p_selected_font : option text;
  p_text_density : option Z;
  p_min_lines : option Z;
  p_max_lines : option Z;
  p_mistral_model : option string;
}.

(** The dictionary [app_config]. *)
Record AppConfig := {
  FONT_DIR : text;
  MEDIA_DIR : option text;
  UPLOAD_FOLDER : text;
}.

(** An entry of [text_pool]. *)
Record Snippet := {
  lines : list text;
  highlight_index : Z;
}.

(** The variables of the frame loop. *)
Record Loop := {
  frames : list Img;
  failed_fonts : gset text;
  text_pool : list Snippet;
  current_pool_index : nat;
  frames_with_current_text : nat;
  frame_num : nat;
}.

Definition initial : Loop :=
  {| frames := []; failed_fonts := ∅; text_pool := [];
     current_pool_index := 0; frames_with_current_text := 0;
     frame_num := 0 |}.

(** The assignments of the loop to its variables. *)
Definition rotated (st : Loop) (pool : list Snippet) : Loop :=
  {| frames := frames st; failed_fonts := failed_fonts st;
     text_pool := pool;
     current_pool_index := (current_pool_index st + 1) mod length pool;
     frames_with_current_text := 0;
     frame_num := frame_num st |}.

Definition count_use (st : Loop) : Loop :=
  {| frames := frames st; failed_fonts := failed_fonts st;
     text_pool := text_pool st;
     current_pool_index := current_pool_index st;
     frames_with_current_text := frames_with_current_text st + 1;
     frame_num := frame_num st |}.

Definition add_frame (st : Loop) (img : Img) : Loop :=
  {| frames := frames st ++ [img]; failed_fonts := failed_fonts st;
     text_pool := text_pool st;
     current_pool_index := current_pool_index st;
     frames_with_current_text := frames_with_current_text st;
     frame_num := frame_num st |}.

Definition record_failure (st : Loop) (current_font_path : text) : Loop :=
  {| frames := frames st;
     failed_fonts := {[current_font_path]} ∪ failed_fonts st;
     text_pool := text_pool st;
     current_pool_index := current_pool_index st;
     frames_with_current_text := frames_with_current_text st;
     frame_num := frame_num st |}.

Definition next_frame (st : Loop) : Loop :=
  {| frames := frames st; failed_fonts := failed_fonts st;
     text_pool := text_pool st;
     current_pool_index := current_pool_index st;
     frames_with_current_text := frames_with_current_text st;
     frame_num := frame_num st + 1 |}.

(** Where a piece of [generate_video] leaves the function body: it goes
    on, or the function returns [(filename, error)]. *)
Inductive Step (A : Type) :=
| Next (a : A)
| Return (filename : option text) (error : option string).
Arguments Next {A} a.
Arguments Return {A} filename error.

(** What the loop needs of [params], as computed before it starts. *)
Record Settings := {
  min_lines : Z;
  max_lines : Z;
  vertical_spread_factor : Q;
  total_frames : Z;
  font_size : Z;
  ai_client : option AiProviders.Client;
  font_paths : list text;
}.

Definition density (params : Params) : Z := default 2%Z (p_text_density params).

(** Lines 43 to 54. *)
Definition line_settings (params : Params) : Z * Z * Q :=
  if (density params =? 1)%Z then
    (default 10%Z (p_min_lines params), default 12%Z (p_max_lines params),
     1.5%Q)
  else if (density params =? 3)%Z then
    (default 14%Z (p_min_lines params), default 20%Z (p_max_lines params),
     1.1%Q)
  else
    (default 12%Z (p_min_lines params), default 16%Z (p_max_lines params),
     1.3%Q).

(** Line 58; [fps] and [duration] are integers. *)
Definition frame_count (fps duration_seconds : Z) : Z :=
  (fps * duration_seconds)%Z.

(** Lines 62 to 67. *)
Definition font_size_of (params : Params) : Z :=
  if (density params =? 1)%Z then py_int (inject_Z (p_height params) * 0.06)
  else if (density params =? 3)%Z
  then py_int (inject_Z (p_height params) * 0.04)
  else py_int (inject_Z (p_height params) * 0.05).

(** Lines 82 to 94. *)
Definition discover_fonts (host : Host) (font_dir : text) : list text :=
  if bool_decide (font_dir ≠ []) && isdir host font_dir then
    map (path_join font_dir)
      (filter (λ filename,
                 endswith (str ".ttf") (lower filename)
                 || endswith (str ".otf") (lower filename))
         (listdir host font_dir))
  else match system_fonts host with
       | Ok paths => paths
       | _ => []
       end.

(** Lines 141 to 144, negated: the line passes the test. *)
Definition plausible (line : text) : bool :=
  negb ((length line <? 40)
        || negb (contains (str " ") line)
        || (length (split line) <? 5)
        || negb (existsb (λ p, contains p line)
                   [str "."; str "!"; str "?"])).

(** [if lines and hl_index != -1] *)
Definition usable (result : option (list text) * Z) : option Snippet :=
  match result with
  | (Some (l :: ls), hl_index) =>
      if (hl_index =? -1)%Z then None
      else Some {| lines := l :: ls; highlight_index := hl_index |}
  | _ => None
  end.

Section Generation.

Variable host : Host.
Variable constants : Constants.

(** The functions the module imports from [modules.ai_providers],
    [modules.text_generation] and [modules.image_processing], and the
    two calls into libraries that end the function. *)
Variable generate_ai_text_snippet :
  option AiProviders.Client → string → string → text → Z → Z
  → St World (option (list text) * Z).
Variable generate_random_text_snippet :
  text → Z → Z → St World (option (list text) * Z).
Variable create_text_image_frame : FrameArgs → St World Img.
Variable uuid4 : St World text.
Variable write_videofile : list Img → Z → text → St World ().

Variable params : Params.
Variable app_config : AppConfig.
Variable settings : Settings.

(** [for attempt in range(max_ai_attempts)], [left] attempts to go. *)
Fixpoint ai_attempts (left : nat) : St World (option Snippet) :=
  match left with
  | O => ret None
  | S left' =>
      let* result :=
        generate_ai_text_snippet (ai_client settings)
          (p_ai_provider params)
          (default "mistral-large-latest" (p_mistral_model params))
          (p_highlighted_text params)
          (min_lines settings) (max_lines settings) in
      match usable result with
      | Some snippet =>
          if forallb plausible (lines snippet) then ret (Some snippet)
          else ai_attempts left'
      | None => ai_attempts left'
      end
  end.

Definition random_text : St World (option Snippet) :=
  let* result :=
    generate_random_text_snippet (p_highlighted_text params)
      (min_lines settings) (max_lines settings) in
  ret (usable result).

(** Lines 119 to 166: the snippet that is appended to the pool, if
    any. *)
Definition new_text : St World (option Snippet) :=
  match ai_client settings with
  | Some _ =>
      let* found := ai_attempts 3 in
      match found with
      | Some snippet => ret (Some snippet)
      | None => random_text
      end
  | None => random_text
  end.

(** [frames_with_current_text >= FRAMES_PER_SNIPPET or not text_pool] *)
Definition due (st : Loop) : bool :=
  (FRAMES_PER_SNIPPET constants <=? frames_with_current_text st)
  || bool_decide (text_pool st = []).

(** Lines 115 to 174: grow the pool and rotate. *)
Definition refresh_text (st : Loop) : St World (Step Loop) :=
  if due st then
    let* text_pool :=
      (if length (text_pool st) <? TEXT_POOL_SIZE constants
       then let* added := new_text in
            ret (text_pool st ++ option_list added)
       else ret (text_pool st)) in
    match text_pool with
    | [] => ret (Return None (Some "Failed to generate valid text content."))
    | _ => ret (Next (rotated st text_pool))
    end
  else ret (Next st).

(** Lines 185 to 191. *)
Definition select_font (failed : gset text) : St World (option text) :=
  match p_selected_font params with
  | Some selected_font =>
      if bool_decide (selected_font ≠ str "random") then
        let current_font_path :=
          path_join (FONT_DIR app_config) selected_font in
        if path_exists host current_font_path
        then ret (Some current_font_path)
        else get_random_font host (font_paths settings) failed
      else get_random_font host (font_paths settings) failed
  | None => get_random_font host (font_paths settings) failed
  end.

Definition frame_args (current_text : Snippet) (current_font_path : text)
    (position_jitter : Q) : FrameArgs :=
  {| width := p_width params;
     height := p_height params;
     text_lines := lines current_text;
     highlight_line_index := highlight_index current_text;
     highlighted_text := p_highlighted_text params;
     font_path := current_font_path;
     ImageProcessing.font_size := font_size settings;
     text_color := p_text_color params;
     bg_color := p_background_color params;
     highlight_color := p_highlight_color params;
     blur_type := p_blur_type params;
     blur_radius := p_blur_radius params;
     radial_sharp_radius_factor := RADIAL_SHARP_RADIUS_FACTOR constants;
     ImageProcessing.vertical_spread_factor :=
       vertical_spread_factor settings;
     y_offset := position_jitter;
     background_texture :=
       Some (default (str "none") (p_background_texture params));
     media_dir := Some (default (str "media") (MEDIA_DIR app_config)) |}.

Definition is_font_error (e : PyExn) : bool :=
  match e with
  | FontLoadError _ | FontDrawError _ => true
  | _ => false
  end.

Definition font_failure (n : nat) : string :=
  "Failed to generate frame " +:+ pretty (n + 1)
  +:+ ". Font issues likely.".

(** The body of [try], lines 197 to 226: one attempt at the frame. *)
Definition attempt (st : Loop) (current_text : Snippet)
    (current_font_path : text) : St World (Step Loop) :=
  let* position_jitter :=
    with_random (λ r, let '(x, r') := Random.uniform (-5) 5 r in
                      (Ok x, r')) in
  let* img :=
    create_text_image_frame
      (frame_args current_text current_font_path position_jitter) in
  (** [frame_num % (total_frames // 10)] *)
  if (total_frames settings / 10 =? 0)%Z
  then raise ZeroDivisionError
  else ret (Next (add_frame st img)).

(** Lines 183 to 234: [while font_retries < MAX_FONT_RETRIES_PER_FRAME],
    [left] being the retries that remain. *)
Fixpoint font_loop (left : nat) (st : Loop) (current_text : Snippet)
    : St World (Step Loop) :=
  match left with
  | O => ret (Return None (Some (font_failure (frame_num st))))
  | S left' =>
      let* current_font_path := select_font (failed_fonts st) in
      match current_font_path with
      | None =>
          ret (Return None
                 (Some "No usable fonts available after multiple attempts."))
      | Some current_font_path =>
          try_except (attempt st current_text current_font_path)
            (λ e,
               if is_font_error e
               then font_loop left' (record_failure st current_font_path)
                      current_text
               else raise e)
      end
  end.

(** One pass of [while frame_num < total_frames]. *)
Definition frame_pass (st : Loop) : St World (Step Loop) :=
  let* refreshed := refresh_text st in
  match refreshed with
  | Return filename error => ret (Return filename error)
  | Next st =>
      let* current_text :=
        of_result (py_index (text_pool st)
                     (Z.of_nat (current_pool_index st))) in
      let* drawn :=
        font_loop (MAX_FONT_RETRIES_PER_FRAME constants) (count_use st)
          current_text in
      match drawn with
      | Return filename error => ret (Return filename error)
      | Next st => ret (Next (next_frame st))
      end
  end.

(** [passes] passes of the body of the loop. *)
Fixpoint frame_passes (passes : nat) (st : Loop) : St World (Step Loop) :=
  match passes with
  | O => ret (Next st)
  | S passes' =>
      let* r := frame_pass st in
      match r with
      | Next st' => frame_passes passes' st'
      | Return filename error => ret (Return filename error)
      end
  end.

(** [while frame_num < total_frames: ...], with at most [fuel] passes. *)
Fixpoint frame_loop_from (fuel : nat) (st : Loop)
    : St World (Step Loop) :=
  match fuel with
  | O => out_of_fuel
  | S fuel' =>
      if (Z.of_nat (frame_num st) <? total_frames settings)%Z then
        let* r := frame_pass st in
        match r with
        | Next st' => frame_loop_from fuel' st'
        | Return filename error => ret (Return filename error)
        end
      else ret (Next st)
  end.

(** The loop from [initial].  A pass that goes on has added one to
    [frame_num], so [total_frames] passes and the last test of the
    condition are the most the loop can make. *)
Definition frame_loop : St World (Step Loop) :=
  frame_loop_from (S (Z.to_nat (total_frames settings))) initial.

Definition writing_failure (what : string) : string :=
  "Error during video writing: " +:+ what
  +:+ ". Check server logs and FFmpeg installation/codec support (libx264).".

(** Lines 238 to 281. *)
Definition create_video (st : Loop)
    : St World (option text * option string) :=
  match frames st with
  | [] =>
      ret (None,
           Some "No frames were generated, possibly due to persistent font errors.")
  | _ =>
      let* unique_id := uuid4 in
      let output_filename :=
        str "text_match_cut_" ++ unique_id ++ str ".mp4" in
      let output_path :=
        path_join (UPLOAD_FOLDER app_config) output_filename in
      try_except
        (let* _ := write_videofile (frames st) (p_fps params) output_path in
         ret (Some output_filename, None))
        (λ e, ret (None, Some (writing_failure (exception_text host e))))
  end.

End Generation.

(** Lines 25 to 79: what the loop uses of [params]. *)
Definition settings_of (host : Host) (params : Params)
    (app_config : AppConfig) : Settings :=
  let '(min_lines, max_lines, vertical_spread_factor) :=
    line_settings params in
  {| min_lines := min_lines;
     max_lines := max_lines;
     vertical_spread_factor := vertical_spread_factor;
     total_frames := frame_count (p_fps params) (p_duration params);
     font_size := font_size_of params;
     ai_client :=
       if p_ai_enabled params
       then AiProviders.initialize_ai_client (provider_available host)
              (provider_client host) (p_ai_provider params)
              (p_api_key params)
       else None;
     font_paths := discover_fonts host (FONT_DIR app_config) |}.

Section Whole.

Variable host : Host.
Variable constants : Constants.
Variable generate_ai_text_snippet :
  option AiProviders.Client → string → string → text → Z → Z
  → St World (option (list text) * Z).
Variable generate_random_text_snippet :
  text → Z → Z → St World (option (list text) * Z).
Variable create_text_image_frame : FrameArgs → St World Img.
Variable uuid4 : St World text.
Variable write_videofile : list Img → Z → text → St World ().

Definition generate_video_with (params : Params) (app_config : AppConfig)
    : St World (option text * option string) :=
  let settings := settings_of host params app_config in
  match font_paths settings with
  | [] =>
      ret (None,
           Some "No fonts found. Please add fonts to the 'fonts' directory or install system fonts.")
  | _ =>
      let* looped :=
        frame_loop host constants generate_ai_text_snippet
          generate_random_text_snippet create_text_image_frame
          params app_config settings in
      match looped with
      | Return filename error => ret (filename, error)
      | Next st =>
          create_video host uuid4 write_videofile params app_config st
      end
  end.

End Whole.

(** [generate_video] with the functions of this repository in the place
    of the imports. *)
Definition generate_video (host : Host) (uuid4 : St World text)
    (write_videofile : list Img → Z → text → St World ())
    : Params → AppConfig → St World (option text * option string) :=
  generate_video_with host module_constants
    AiProviders.generate_ai_text_snippet
    (λ highlighted_text min_lines max_lines,
       with_random
         (TextGeneration.generate_random_text_snippet highlighted_text
            min_lines max_lines))
    (ImageProcessing.create_text_image_frame host)
    uuid4 write_videofile.

End VideoGenerator.

(** * A concrete installation

    One font in [fonts/], one texture in [media/], a text service that is
    down.  The font measures every character as half its pixel size wide and
    its pixel size high; [font_loads] says whether its file can be read. *)
Module Studio.
Import ImageProcessing VideoGenerator.

Definition arial : text := str "fonts/Arial.ttf".
Definition paper_jpg : text := str "media/paper.jpg".

Definition installation (font_loads : bool) : Host :=
  {| path_exists := λ p, bool_decide (p = arial) || bool_decide (p = paper_jpg);
     isdir := λ p, bool_decide (p = str "fonts");
     listdir := λ _, [str "Arial.ttf"];
     image_open := λ p,
       if bool_decide (p = paper_jpg) then Ok (1024, 1024)%Z
       else Raised IOError;
     truetype := λ p size,
       if font_loads && bool_decide (p = arial)
       then Ok {| font_file := p; font_px := size |}
       else Raised IOError;
     getmetrics := λ f, Ok (font_px f, font_px f / 4)%Z;
     getlength := λ f s,
       Ok (inject_Z (Z.of_nat (length s) * font_px f) / 2)%Q;
     getbbox := λ f s,
       Ok (0, 0, Z.of_nat (length s) * font_px f / 2, font_px f)%Z;
     draws := λ _ _, true;
     system_fonts := Ok [];
     fallback_font := Ok None;
     provider_available := λ _, false;
     provider_client := λ _ _, None;
     exception_text := λ e,
       match e with
       | OtherError what => what
       | _ => EmptyString
       end |}.

Definition host : Host := installation true.

(** The same installation with a font file that cannot be read. *)
Definition corrupt : Host := installation false.

Definition phrase : text := str "Better Gaming Experience".

Definition line : text :=
  str "The council promised a Better Gaming Experience before winter.".

Definition other_line : text :=
  str "Nobody in the valley had ever heard the old bell ring twice.".

(** Twelve lines, the phrase in the first. *)
Definition page : list text := line :: replicate 11 other_line.

Definition frame (texture : text) (blur : string) : FrameArgs :=
  {| width := 1024; height := 1024;
     text_lines := page;
     highlight_line_index := 0;
     highlighted_text := phrase;
     font_path := arial;
     ImageProcessing.font_size := 51;
     text_color := "#000000";
     bg_color := "#FFFFFF";
     highlight_color := "#FFFF00";
     blur_type := blur;
     blur_radius := 4;
     radial_sharp_radius_factor := 0.3;
     ImageProcessing.vertical_spread_factor := 1.3;
     y_offset := 0;
     background_texture := Some texture;
     media_dir := Some (str "media") |}.

(** The same request for a small frame on procedural paper. *)
Definition thumbnail : FrameArgs :=
  {| width := 16; height := 16;
     text_lines := [line];
     highlight_line_index := 0;
     highlighted_text := phrase;
     font_path := arial;
     ImageProcessing.font_size := 51;
     text_color := "#000000";
     bg_color := "#FFFFFF";
     highlight_color := "#FFFF00";
     blur_type := "none";
     blur_radius := 0;
     radial_sharp_radius_factor := 0.3;
     ImageProcessing.vertical_spread_factor := 1.3;
     y_offset := 0;
     background_texture := Some (str "none");
     media_dir := Some (str "media") |}.

(** A request for a small frame on procedural paper, without blur. *)
Definition plain : FrameArgs :=
  {| width := 72; height := 64;
     text_lines := [line];
     highlight_line_index := 0;
     highlighted_text := phrase;
     font_path := arial;
     ImageProcessing.font_size := 4;
     text_color := "#000000";
     bg_color := "#FFFFFF";
     highlight_color := "#FFFF00";
     blur_type := "none";
     blur_radius := 0;
     radial_sharp_radius_factor := 0.3;
     ImageProcessing.vertical_spread_factor := 1.3;
     y_offset := 0;
     background_texture := Some (str "none");
     media_dir := Some (str "media") |}.

Definition world : World :=
  {| py_random := λ n, n * 2 + 10;
     np_random := λ k, (inject_Z (Z.of_nat (k mod 5)) - 2)%Q;
     service := λ _, None |}.

Definition params_with (selected_font : text) (fps duration : Z)
    : Params :=
  {| p_width := 1024; p_height := 1024;
     p_fps := fps; p_duration := duration;
     p_highlighted_text := phrase;
     p_highlight_color := "#FFFF00";
     p_text_color := "#000000";
     p_background_color := "#FFFFFF";
     p_blur_type := "gaussian";
     p_blur_radius := 4;
     p_ai_enabled := false;
     p_ai_provider := "mistral";
     p_api_key := EmptyString;
     p_background_texture := Some (str "paper.jpg");
     p_selected_font := Some selected_font;
     p_text_density := None;
     p_min_lines := Some 7%Z;
     p_max_lines := Some 12%Z;
     p_mistral_model := None |}.

Definition params : Z → Z → Params := params_with (str "random").

Definition app_config : AppConfig :=
  {| FONT_DIR := str "fonts"; MEDIA_DIR := Some (str "media");
     UPLOAD_FOLDER := str "uploads" |}.

Definition uuid4 : St World text := ret (str "0f8fad5b").

Definition write_videofile (_ : list Img) (_ : Z) (_ : text)
    : St World () := ret ().

Definition snippet : Snippet := {| lines := page; highlight_index := 0 |}.

(** A text service that answers with [page], one line per line. *)
Definition answering (lines : list text) : World :=
  {| py_random := py_random world;
     np_random := np_random world;
     service := λ _, Some (PyStr.join ["010"%char] lines) |}.

Definition client : AiProviders.Client :=
  {| AiProviders.client_provider := "mistral";
     AiProviders.client_key := "secret" |}.

End Studio.

(** * Facts about the monad *)

Lemma bind_ok {S A B} (m : St S A) (k : A → St S B) s b s' :
  bind m k s = (Ok b, s') →
  ∃ a s1, m s = (Ok a, s1) ∧ k a s1 = (Ok b, s').
Proof.
  unfold bind. destruct (m s) as [[a| e |] s1]; intros H; try discriminate.
  eauto.
Qed.

Lemma bind_eq_ok {S A B} (m : St S A) (k : A → St S B) s a s1 :
  m s = (Ok a, s1) → bind m k s = k a s1.
Proof. unfold bind. now intros ->. Qed.

Lemma ret_ok {S A} (a b : A) (s s' : S) :
  ret a s = (Ok b, s') → a = b ∧ s = s'.
Proof. unfold ret. intros H. now inversion H. Qed.

Ltac bind_inv H :=
  let a := fresh "a" in
  let s := fresh "w" in
  let Ha := fresh "Hm" in
  apply bind_ok in H; destruct H as (a & s & Ha & H).

Lemma py_index_inside {A} (l : list A) (i : Z) a :
  (0 <= i)%Z → l !! Z.to_nat i = Some a → py_index l i = Ok a.
Proof.
  intros Hi Hl. unfold py_index.
  destruct (i <? 0)%Z eqn:E; [apply Z.ltb_lt in E; lia|].
  rewrite E. by rewrite Hl.
Qed.

Lemma py_index_nat {A} (l : list A) (i : nat) a :
  l !! i = Some a → py_index l (Z.of_nat i) = Ok a.
Proof. intros H. apply py_index_inside; [lia|]. by rewrite Nat2Z.id. Qed.

Lemma py_index_nat_ok {A} (l : list A) (i : nat) a :
  py_index l (Z.of_nat i) = Ok a → l !! i = Some a.
Proof.
  unfold py_index.
  destruct (Z.of_nat i <? 0)%Z eqn:E; [apply Z.ltb_lt in E; lia|].
  rewrite E, Nat2Z.id. destruct (l !! i); [|discriminate]. congruence.
Qed.

(** * The snippet pool *)
Module PoolFacts.
Import ImageProcessing VideoGenerator.

Section Pool.

Variable host : Host.
Variable constants : Constants.
Variable generate_ai_text_snippet :
  option AiProviders.Client → string → string → text → Z → Z
  → St World (option (list text) * Z).
Variable generate_random_text_snippet :
  text → Z → Z → St World (option (list text) * Z).
Variable create_text_image_frame : FrameArgs → St World Img.
Variable params : Params.
Variable app_config : AppConfig.
Variable settings : Settings.

#[local] Abbreviation F := (FRAMES_PER_SNIPPET constants).
#[local] Abbreviation P := (TEXT_POOL_SIZE constants).
#[local] Abbreviation new_text' :=
  (new_text generate_ai_text_snippet generate_random_text_snippet
     params settings).
#[local] Abbreviation refresh_text' :=
  (refresh_text constants generate_ai_text_snippet
     generate_random_text_snippet params settings).
#[local] Abbreviation font_loop' :=
  (font_loop host constants create_text_image_frame params app_config
     settings).
#[local] Abbreviation frame_pass' :=
  (frame_pass host constants generate_ai_text_snippet
     generate_random_text_snippet create_text_image_frame params
     app_config settings).
#[local] Abbreviation frame_passes' :=
  (frame_passes host constants generate_ai_text_snippet
     generate_random_text_snippet create_text_image_frame params
     app_config settings).

#[local] Abbreviation attempt' :=
  (attempt constants create_text_image_frame params app_config settings).

(** The image of a frame comes from [create_text_image_frame] applied
    to the lines of snippet [s]. *)
Definition rendered_from (s : Snippet) (img : Img) : Prop :=
  ∃ path jitter w1 w2,
    create_text_image_frame
      (frame_args constants params app_config settings s path jitter) w1
    = (Ok img, w2).

(** The font loop leaves the pool alone and adds one frame. *)
Lemma font_loop_next left st ct w st' w' :
  font_loop' left st ct w = (Ok (Next st'), w') →
  text_pool st' = text_pool st
  ∧ current_pool_index st' = current_pool_index st
  ∧ frames_with_current_text st' = frames_with_current_text st
  ∧ frame_num st' = frame_num st
  ∧ failed_fonts st ⊆ failed_fonts st'
  ∧ (total_frames settings / 10 ≠ 0)%Z
  ∧ ∃ img, frames st' = frames st ++ [img] ∧ rendered_from ct img.
Proof.
  revert st w. induction left as [|left IH]; intros st w H;
    cbn [font_loop] in H.
  - discriminate.
  - bind_inv H. destruct a as [path|]; [|discriminate].
    unfold try_except in H.
    destruct (attempt' st ct path w0) as [[r|e|] w1] eqn:E.
    + inversion H; subst; clear H.
      unfold attempt in E. bind_inv E. bind_inv E.
      destruct (total_frames settings / 10 =? 0)%Z eqn:Ez;
        [discriminate|].
      apply ret_ok in E as [E _]. inversion E; subst; clear E. simpl.
      repeat split; try done.
      * now apply Z.eqb_neq in Ez.
      * eexists; split; [done|]. red. eauto.
    + destruct (is_font_error e); [|discriminate].
      apply IH in H. simpl in H.
      destruct H as (? & ? & ? & ? & ? & ? & ?).
      repeat split; try done.
      etrans; [|done]. apply union_subseteq_r.
    + discriminate.
Qed.

(** The refresh step, case by case. *)
#[local] Abbreviation due' := (due constants).

Lemma refresh_not_due st w :
  due' st = false → refresh_text' st w = (Ok (Next st), w).
Proof. unfold refresh_text, due. now intros ->. Qed.

Lemma refresh_full st w :
  due' st = true → text_pool st ≠ [] → P <= length (text_pool st) →
  refresh_text' st w = (Ok (Next (rotated st (text_pool st))), w).
Proof.
  unfold refresh_text, due. intros -> Hne Hfull.
  destruct (length (text_pool st) <? P) eqn:E;
    [apply Nat.ltb_lt in E; lia|].
  unfold bind, ret. destruct (text_pool st); [done|]. done.
Qed.

Lemma refresh_grow st w added w' :
  due' st = true → length (text_pool st) < P →
  new_text' w = (Ok added, w') →
  refresh_text' st w =
    match text_pool st ++ option_list added with
    | [] => (Ok (Return None
                   (Some "Failed to generate valid text content.")), w')
    | pool => (Ok (Next (rotated st pool)), w')
    end.
Proof.
  unfold refresh_text, due. intros -> Hlt Hnew.
  apply Nat.ltb_lt in Hlt. rewrite Hlt.
  unfold bind at 1. unfold bind at 1. rewrite Hnew. unfold ret.
  destruct (text_pool st ++ option_list added); done.
Qed.

(** A pass of the loop keeps what the pool holds. *)
Lemma refresh_prefix st w st' w' :
  refresh_text' st w = (Ok (Next st'), w') →
  text_pool st `prefix_of` text_pool st'
  ∧ frames st' = frames st ∧ frame_num st' = frame_num st
  ∧ failed_fonts st' = failed_fonts st.
Proof.
  unfold refresh_text.
  destruct (due' st); [|intros [= <- <-]; done].
  intros H. bind_inv H.
  destruct a as [|s pool]; [discriminate|].
  apply ret_ok in H as [[= <-] _]. simpl.
  repeat split; try done.
  destruct (_ <? _).
  - bind_inv Hm. apply ret_ok in Hm as [<- _]. by apply prefix_app_r.
  - apply ret_ok in Hm as [<- _]. done.
Qed.

Lemma frame_pass_next st w st' w' :
  frame_pass' st w = (Ok (Next st'), w') →
  ∃ st1 w1 ct img,
    refresh_text' st w = (Ok (Next st1), w1)
    ∧ text_pool st1 !! current_pool_index st1 = Some ct
    ∧ text_pool st' = text_pool st1
    ∧ current_pool_index st' = current_pool_index st1
    ∧ frames_with_current_text st' = frames_with_current_text st1 + 1
    ∧ frame_num st' = frame_num st + 1
    ∧ frames st' = frames st ++ [img]
    ∧ rendered_from ct img
    ∧ (total_frames settings / 10 ≠ 0)%Z.
Proof.
  unfold frame_pass. intros H. bind_inv H.
  destruct a as [st1|]; [|discriminate].
  bind_inv H. bind_inv H.
  destruct a0 as [st2|]; [|discriminate].
  apply ret_ok in H as [[= <-] _]. simpl.
  apply font_loop_next in Hm1. simpl in Hm1.
  destruct Hm1 as (Hp & Hi & Hf & Hn & _ & Hz & img & Hfr & Hr).
  apply refresh_prefix in Hm as Hpre.
  destruct Hpre as (_ & Hfr1 & Hn1 & _).
  exists st1, w0, a, img.
  unfold of_result in Hm0. injection Hm0 as Hm0 <-.
  apply py_index_nat_ok in Hm0.
  repeat split; try done; congruence.
Qed.

(** ** Failure of the text supply *)

Definition no_text : string := "Failed to generate valid text content.".
Definition no_font : string :=
  "No usable fonts available after multiple attempts.".

(** What remains of a pass once the text is there. *)
Definition draw_frame (st1 : Loop) (ct : Snippet) : St World (Step Loop) :=
  let* drawn :=
    font_loop' (MAX_FONT_RETRIES_PER_FRAME constants) (count_use st1) ct in
  match drawn with
  | Return filename error => ret (Return filename error)
  | Next st => ret (Next (next_frame st))
  end.

Lemma refresh_empty_failure st w w' :
  text_pool st = [] → new_text' w = (Ok None, w') →
  ∃ w1, refresh_text' st w = (Ok (Return None (Some no_text)), w1).
Proof.
  intros Hempty Hnew.
  assert (Hdue : due' st = true).
  { unfold due. rewrite Hempty. rewrite bool_decide_eq_true_2 by done.
    apply orb_true_r. }
  destruct (decide (length (text_pool st) < P)) as [Hroom|Hfull].
  - exists w'. rewrite (refresh_grow st w None w') by done.
    by rewrite Hempty.
  - exists w. unfold refresh_text. rewrite Hdue.
    destruct (length (text_pool st) <? P) eqn:E;
      [apply Nat.ltb_lt in E; lia|].
    unfold bind, ret. by rewrite Hempty.
Qed.


Lemma frame_pass_draw st w st1 w1 ct :
  refresh_text' st w = (Ok (Next st1), w1) →
  text_pool st1 !! current_pool_index st1 = Some ct →
  frame_pass' st w = draw_frame st1 ct w1.
Proof.
  intros H Hct. unfold frame_pass. rewrite (bind_eq_ok _ _ _ _ _ H).
  unfold of_result. rewrite (py_index_nat _ _ _ Hct). reflexivity.
Qed.

Lemma refresh_nonempty st w added w' :
  text_pool st ≠ [] →
  current_pool_index st < length (text_pool st) →
  new_text' w = (Ok added, w') →
  ∃ st1 w1 ct,
    refresh_text' st w = (Ok (Next st1), w1)
    ∧ text_pool st `prefix_of` text_pool st1
    ∧ (added = None → text_pool st1 = text_pool st)
    ∧ (due' st = true →
       current_pool_index st1
       = (current_pool_index st + 1) mod length (text_pool st1)
       ∧ frames_with_current_text st1 = 0)
    ∧ (due' st = false → st1 = st)
    ∧ text_pool st1 !! current_pool_index st1 = Some ct.
Proof.
  intros Hne Hidx Hnew.
  destruct (due' st) eqn:Hdue.
  - assert (∃ pool, refresh_text' st w
                    = (Ok (Next (rotated st pool)),
                       if length (text_pool st) <? P then w' else w)
                    ∧ pool ≠ []
                    ∧ text_pool st `prefix_of` pool
                    ∧ (added = None → pool = text_pool st))
      as (pool & Href & Hpool & Hpre & Hsame).
    { destruct (length (text_pool st) <? P) eqn:E.
      - apply Nat.ltb_lt in E.
        exists (text_pool st ++ option_list added).
        rewrite (refresh_grow st w added w') by done.
        destruct (text_pool st ++ option_list added) eqn:Ep.
        + by apply app_eq_nil in Ep as [? _].
        + rewrite <- Ep. repeat split; try done.
          * intros Hn. by apply app_eq_nil in Hn as [? _].
          * by apply prefix_app_r.
          * intros ->. simpl. by rewrite app_nil_r.
      - apply Nat.ltb_ge in E. exists (text_pool st).
        rewrite refresh_full by done. done. }
    assert (Hlt : current_pool_index (rotated st pool) < length pool).
    { simpl. apply Nat.mod_upper_bound.
      destruct pool; [done|]. simpl. lia. }
    apply lookup_lt_is_Some_2 in Hlt as [ct Hct].
    exists (rotated st pool), (if length (text_pool st) <? P then w' else w), ct.
    repeat split; try done.
  - rewrite refresh_not_due by done.
    apply lookup_lt_is_Some_2 in Hidx as [ct Hct].
    exists st, w, ct. repeat split; try done.
Qed.




(** ** Fonts *)

Lemma choice_elem {A} (l : list A) r a r' :
  Random.choice l r = (Ok a, r') → a ∈ l.
Proof.
  unfold Random.choice. destruct l as [|x l]; [discriminate|].
  destruct (Random.next r) as [n r1].
  destruct ((x :: l) !! _) eqn:E; [|discriminate].
  intros [= <- _]. by eapply list_elem_of_lookup_2.
Qed.

Lemma get_random_font_fresh paths failed w q w' :
  (∃ p, p ∈ paths ∧ p ∉ failed) →
  get_random_font host paths failed w = (Ok (Some q), w') →
  q ∈ paths ∧ q ∉ failed.
Proof.
  intros (p & Hp & Hnp). unfold get_random_font.
  destruct (elements _) as [|x l] eqn:E.
  - assert (p ∈ elements (list_to_set paths ∖ failed : gset text)) as Hin.
    { apply elem_of_elements. set_solver. }
    rewrite E in Hin. by apply elem_of_nil in Hin.
  - intros H. bind_inv H. apply ret_ok in H as [[= <-] _].
    unfold with_random in Hm.
    destruct (Random.choice _ _) as [x0 r] eqn:Ec.
    inversion Hm; subst; clear Hm.
    apply choice_elem in Ec. rewrite <- E in Ec.
    apply elem_of_elements in Ec. set_solver.
Qed.

(** One failed attempt: the font is recorded and the loop goes on. *)
Lemma font_loop_retry left st ct w path w1 e w2 :
  select_font host params app_config settings (failed_fonts st) w
  = (Ok (Some path), w1) →
  attempt' st ct path w1 = (Raised e, w2) →
  is_font_error e = true →
  font_loop' (S left) st ct w
  = font_loop' left (record_failure st path) ct w2.
Proof.
  intros Hsel Hatt Herr. cbn [font_loop].
  rewrite (bind_eq_ok _ _ _ _ _ Hsel).
  unfold try_except. rewrite Hatt.
  by rewrite Herr.
Qed.

Lemma font_loop_success left st ct w path w1 st' w2 :
  select_font host params app_config settings (failed_fonts st) w
  = (Ok (Some path), w1) →
  attempt' st ct path w1 = (Ok st', w2) →
  font_loop' (S left) st ct w = (Ok st', w2).
Proof.
  intros Hsel Hatt. cbn [font_loop].
  rewrite (bind_eq_ok _ _ _ _ _ Hsel).
  unfold try_except. by rewrite Hatt.
Qed.

Lemma font_loop_zero_division left st ct w path w1 w2 :
  select_font host params app_config settings (failed_fonts st) w
  = (Ok (Some path), w1) →
  attempt' st ct path w1 = (Raised ZeroDivisionError, w2) →
  font_loop' (S left) st ct w = (Raised ZeroDivisionError, w2).
Proof.
  intros Hsel Hatt. cbn [font_loop].
  rewrite (bind_eq_ok _ _ _ _ _ Hsel).
  unfold try_except. by rewrite Hatt.
Qed.

(** When every attempt ends in a font error the loop gives up after
    [left] attempts at most. *)
Lemma attempt_fails st ct path w :
  (∀ path jitter w, ∃ e w',
     create_text_image_frame
       (frame_args constants params app_config settings ct path jitter) w
     = (Raised e, w')
     ∧ is_font_error e = true) →
  ∃ e w', attempt' st ct path w = (Raised e, w')
          ∧ is_font_error e = true.
Proof.
  intros Hfail. unfold attempt, bind, with_random at 1.
  destruct (Random.uniform _ _ _) as [j r].
  match goal with
  | |- context [create_text_image_frame (frame_args _ _ _ _ _ ?p ?j) ?w0] =>
      destruct (Hfail p j w0) as (e & w' & -> & He)
  end.
  eauto.
Qed.

Lemma choice_ok {A} (l : list A) r :
  l ≠ [] → ∃ a, Random.choice l r = (Ok a, snd (Random.next r)).
Proof.
  intros Hl. unfold Random.choice. destruct l as [|x l]; [done|].
  destruct (Random.next r) as [n r1]. simpl snd.
  destruct (lookup_lt_is_Some_2 (x :: l) (n mod length (x :: l)))
    as [a Ha].
  { apply Nat.mod_upper_bound. simpl. lia. }
  rewrite Ha. eauto.
Qed.

Lemma get_random_font_result paths failed w :
  ∃ p w', get_random_font host paths failed w = (Ok p, w').
Proof.
  unfold get_random_font.
  destruct (elements _) as [|x l] eqn:E.
  - repeat case_match; unfold ret; eauto.
  - unfold bind, with_random.
    destruct (choice_ok (x :: l) (py_random w)) as [a ->]; [done|].
    unfold ret. eauto.
Qed.

Lemma select_font_result failed w :
  ∃ p w', select_font host params app_config settings failed w
          = (Ok p, w').
Proof.
  unfold select_font.
  repeat case_match; try apply get_random_font_result.
  unfold ret. eauto.
Qed.

Lemma font_loop_all_fail left st ct w :
  (∀ path jitter w, ∃ e w',
     create_text_image_frame
       (frame_args constants params app_config settings ct path jitter) w
     = (Raised e, w')
     ∧ is_font_error e = true) →
  ∃ e w', font_loop' left st ct w = (Ok (Return None (Some e)), w')
          ∧ (e = font_failure (frame_num st) ∨ e = no_font).
Proof.
  intros Hfail. revert st w.
  induction left as [|left IH]; intros st w; cbn [font_loop].
  - eexists _, _. split; [done|]. by left.
  - destruct (select_font_result (failed_fonts st) w) as (p & w1 & Hsel).
    rewrite (bind_eq_ok _ _ _ _ _ Hsel).
    destruct p as [path|].
    + destruct (attempt_fails st ct path w1 Hfail) as (e & w2 & Hatt & He).
      unfold try_except. rewrite Hatt, He.
      destruct (IH (record_failure st path) w2) as (e' & w' & -> & He').
      eexists _, _. split; [done|]. done.
    + eexists _, _. split; [done|]. by right.
Qed.

(** ** Indices stay in range *)

Definition snippet_ok (s : Snippet) : Prop :=
  (0 <= highlight_index s < Z.of_nat (length (lines s)))%Z.

Definition pool_ok (st : Loop) : Prop :=
  (text_pool st ≠ [] → current_pool_index st < length (text_pool st))
  ∧ Forall snippet_ok (text_pool st).

Lemma pool_ok_initial : pool_ok initial.
Proof. split; [done|]. constructor. Qed.

Lemma refresh_pool_ok st w st' w' :
  (∀ w s w', new_text' w = (Ok (Some s), w') → snippet_ok s) →
  pool_ok st →
  refresh_text' st w = (Ok (Next st'), w') →
  pool_ok st' ∧ text_pool st' ≠ [].
Proof.
  intros Hgen [Hidx Hall] H. unfold refresh_text in H.
  destruct (due' st) eqn:Hdue.
  - bind_inv H. destruct a as [|s0 pool] eqn:Ea; [discriminate|].
    apply ret_ok in H as [[= <-] _]. rewrite <- Ea in *.
    assert (a ≠ []) by (by rewrite Ea).
    split; [split|]; simpl; try done.
    + intros _. apply Nat.mod_upper_bound.
      destruct a; [done|]. simpl. lia.
    + destruct (length (text_pool st) <? P).
      * bind_inv Hm. apply ret_ok in Hm as [<- _].
        apply Forall_app. split; [done|].
        destruct a0 as [s|]; simpl; [|constructor].
        constructor; [|constructor]. by eapply Hgen.
      * apply ret_ok in Hm as [<- _]. done.
  - inversion H; subst; clear H.
    assert (text_pool st' ≠ []).
    { unfold due in Hdue. apply orb_false_iff in Hdue as [_ Hd].
      by apply bool_decide_eq_false in Hd. }
    split; [split|]; auto.
Qed.

Lemma pool_ok_reads st :
  pool_ok st → text_pool st ≠ [] →
  ∃ snippet line,
    py_index (text_pool st) (Z.of_nat (current_pool_index st)) = Ok snippet
    ∧ py_index (lines snippet) (highlight_index snippet) = Ok line.
Proof.
  intros [Hidx Hall] Hne. specialize (Hidx Hne).
  apply lookup_lt_is_Some_2 in Hidx as Hs. destruct Hs as [s Hs].
  assert (snippet_ok s) as Hok.
  { rewrite Forall_forall in Hall. apply Hall.
    by eapply list_elem_of_lookup_2. }
  assert (Z.to_nat (highlight_index s) < length (lines s)) as Hl
    by (unfold snippet_ok in Hok; lia).
  apply lookup_lt_is_Some_2 in Hl as [line Hline].
  exists s, line. split.
  - by apply py_index_nat.
  - apply py_index_inside; [|done]. unfold snippet_ok in Hok. lia.
Qed.

Lemma frame_pass_pool_ok st w st' w' :
  (∀ w s w', new_text' w = (Ok (Some s), w') → snippet_ok s) →
  pool_ok st →
  frame_pass' st w = (Ok (Next st'), w') →
  pool_ok st' ∧ text_pool st' ≠ [].
Proof.
  intros Hgen Hok H.
  apply frame_pass_next in H
    as (st1 & w1 & ct & img & Href & Hct & Hp & Hi & _).
  apply refresh_pool_ok in Href as [[Hidx Hall] Hne]; try done.
  unfold pool_ok. rewrite Hp, Hi. auto.
Qed.

Lemma frame_passes_prefix k st w st' w' :
  frame_passes' k st w = (Ok (Next st'), w') →
  text_pool st `prefix_of` text_pool st'.
Proof.
  revert st w. induction k as [|k IH]; intros st w H.
  - apply ret_ok in H as [[= <-] _]. done.
  - simpl in H. bind_inv H.
    destruct a as [st1|]; [|discriminate].
    apply IH in H. etrans; [|done].
    apply frame_pass_next in Hm
      as (st2 & w2 & _ & _ & Href & _ & Hp & _).
    apply refresh_prefix in Href as (Hpre & _). by rewrite Hp.
Qed.

Lemma frame_passes_split k j st w st' w' :
  frame_passes' (k + j) st w = (Ok (Next st'), w') →
  ∃ st1 w1, frame_passes' k st w = (Ok (Next st1), w1)
            ∧ frame_passes' j st1 w1 = (Ok (Next st'), w').
Proof.
  revert st w. induction k as [|k IH]; intros st w H.
  - by exists st, w.
  - simpl in H. bind_inv H.
    destruct a as [st1|]; [|discriminate].
    apply IH in H as (st2 & w2 & H1 & H2).
    exists st2, w2. split; [|done].
    simpl. by rewrite (bind_eq_ok _ _ _ _ _ Hm).
Qed.

(** ** The condition of the loop

    The loop tests [frame_num < total_frames] before every pass; as a
    pass that goes on adds one to [frame_num], it makes the passes that
    are left to make and stops. *)
Lemma frame_loop_from_passes k fuel st w :
  frame_num st + k = Z.to_nat (total_frames settings) →
  k < fuel →
  frame_loop_from host constants generate_ai_text_snippet
    generate_random_text_snippet create_text_image_frame params
    app_config settings fuel st w
  = frame_passes' k st w.
Proof.
  revert fuel st w. induction k as [|k IH]; intros fuel st w Hk Hfuel;
    (destruct fuel as [|fuel]; [lia|]); cbn [frame_loop_from frame_passes].
  - replace (Z.of_nat (frame_num st) <? total_frames settings)%Z
      with false; [done|].
    symmetry. apply Z.ltb_ge. lia.
  - replace (Z.of_nat (frame_num st) <? total_frames settings)%Z
      with true by (symmetry; apply Z.ltb_lt; lia).
    unfold bind.
    destruct (frame_pass' st w) as [[[st'|f e]|e|] w1] eqn:E; try done.
    apply frame_pass_next in E as (_ & _ & _ & _ & _ & _ & _ & _ & _ & Hn & _).
    apply IH; lia.
Qed.

Lemma frame_loop_passes w :
  frame_loop host constants generate_ai_text_snippet
    generate_random_text_snippet create_text_image_frame params
    app_config settings w
  = frame_passes' (Z.to_nat (total_frames settings)) initial w.
Proof. unfold frame_loop. apply frame_loop_from_passes; simpl; lia. Qed.

(** ** Growth of the pool when every request succeeds *)
Section Supplied.

Hypothesis pool_size_positive : 1 <= P.
Hypothesis frames_per_snippet_positive : 1 <= F.
Hypothesis supplied :
  ∀ w, ∃ s w', new_text' w = (Ok (Some s), w').

(** The state after [n] frames: frame [n-1] was the frame number
    [r] of group number [g]. *)
Definition pool_at (n : nat) (st : Loop) : Prop :=
  frame_num st = n ∧ length (frames st) = n ∧
  match n with
  | O => text_pool st = [] ∧ current_pool_index st = 0
         ∧ frames_with_current_text st = 0
  | S m =>
      ∃ g r, m = g * F + r ∧ r < F
             ∧ frames_with_current_text st = r + 1
             ∧ length (text_pool st) = Nat.min P (g + 1)
             ∧ current_pool_index st = g mod P
  end.

Lemma pool_at_initial : pool_at 0 initial.
Proof. done. Qed.

Lemma mod_succ g : (g mod P + 1) mod P = (g + 1) mod P.
Proof. rewrite Nat.Div0.add_mod_idemp_l. done. Qed.

Lemma pool_at_step n st w st' w' :
  pool_at n st →
  frame_pass' st w = (Ok (Next st'), w') →
  pool_at (S n) st'.
Proof.
  intros (Hn & Hlen & Hst) H.
  apply frame_pass_next in H
    as (st1 & w1 & ct & img & Href & Hct & Hp & Hi & Hf & Hn' & Hfr & _).
  split; [lia|]. split; [rewrite Hfr, length_app; simpl; lia|].
  destruct n as [|m].
  - (* the first frame *)
    destruct Hst as (Hpool & Hidx & Hfw).
    destruct (supplied w) as (s & w2 & Hs).
    rewrite (refresh_grow st w (Some s) w2) in Href.
    + rewrite Hpool in Href. simpl in Href.
      inversion Href; subst; clear Href.
      exists 0, 0. rewrite Hf, Hp, Hi. simpl. rewrite Hidx.
      repeat split; try lia.
      rewrite Nat.Div0.mod_0_l. done.
    + unfold due. rewrite Hpool. rewrite bool_decide_eq_true_2 by done.
      apply orb_true_r.
    + rewrite Hpool. simpl. lia.
    + done.
  - destruct Hst as (g & r & Hm & Hr & Hfw & Hlp & Hidx).
    assert (Hne : text_pool st ≠ []).
    { intros E. rewrite E in Hlp. simpl in Hlp. lia. }
    destruct (decide (r + 1 = F)) as [Hlast|Hmore].
    + (* a new group starts *)
      assert (Hdue : due' st = true).
      { unfold due. apply orb_true_iff. left. apply Nat.leb_le. lia. }
      exists (g + 1), 0.
      destruct (decide (length (text_pool st) < P)) as [Hroom|Hfull].
      * destruct (supplied w) as (s & w2 & Hs).
        rewrite (refresh_grow st w (Some s) w2) in Href by done.
        simpl in Href.
        destruct (text_pool st ++ [s]) as [|x pool'] eqn:Epool.
        { by apply app_eq_nil in Epool as [_ ?]. }
        assert (Hgrown : length (x :: pool') = length (text_pool st) + 1).
        { by rewrite <- Epool, length_app. }
        inversion Href; subst st1 w1; clear Href.
        rewrite Hf, Hp, Hi. cbn [rotated text_pool current_pool_index
          frames_with_current_text]. rewrite Hgrown.
        assert (g + 1 < P) by lia.
        repeat split; try lia.
        rewrite Hidx, Hlp.
        rewrite (Nat.mod_small g) by lia.
        rewrite Nat.min_r by lia.
        rewrite Nat.mod_small by lia.
        rewrite Nat.mod_small by lia. done.
      * rewrite refresh_full in Href by (done || lia).
        inversion Href; subst st1 w1; clear Href.
        rewrite Hf, Hp, Hi. simpl.
        repeat split; try lia.
        assert (length (text_pool st) = P) by lia.
        rewrite Hidx. replace (length (text_pool st)) with P by lia.
        apply mod_succ.
    + (* the group goes on *)
      assert (Hdue : due' st = false).
      { unfold due. apply orb_false_iff. split.
        - apply Nat.leb_gt. lia.
        - by apply bool_decide_eq_false_2. }
      rewrite refresh_not_due in Href by done.
      inversion Href; subst st1 w1; clear Href.
      exists g, (r + 1). rewrite Hf, Hp, Hi.
      repeat split; try lia.
Qed.

Lemma pool_at_passes k n st w st' w' :
  pool_at n st →
  frame_passes' k st w = (Ok (Next st'), w') →
  pool_at (n + k) st'.
Proof.
  revert n st w. induction k as [|k IH]; intros n st w Hat H.
  - apply ret_ok in H as [[= <-] _]. by rewrite Nat.add_0_r.
  - simpl in H. bind_inv H.
    destruct a as [st1|]; [|discriminate].
    replace (n + S k) with (S n + k) by lia.
    eapply IH; [|done]. by eapply pool_at_step.
Qed.

(** [ceil(k / F)] *)
Definition ceil_div (k d : nat) : nat := (k + d - 1) / d.

Lemma ceil_div_group g r :
  r < F → ceil_div (S (g * F + r)) F = g + 1.
Proof.
  intros Hr. unfold ceil_div.
  symmetry. apply (Nat.div_unique _ _ _ r); lia.
Qed.

Lemma pool_at_length n st :
  pool_at n st → length (text_pool st) = Nat.min P (ceil_div n F).
Proof.
  intros (_ & _ & Hst). destruct n as [|m].
  - destruct Hst as (-> & _). unfold ceil_div.
    replace (0 + F - 1) with (F - 1) by lia.
    rewrite Nat.div_small by lia. simpl. lia.
  - destruct Hst as (g & r & -> & Hr & _ & Hlp & _).
    by rewrite ceil_div_group.
Qed.





End Supplied.

End Pool.
End PoolFacts.

(** * Runs in which every frame renders *)
Module RunFacts.
Import ImageProcessing VideoGenerator PoolFacts.

Section Run.

Variable host : Host.
Variable constants : Constants.
Variable generate_ai_text_snippet :
  option AiProviders.Client → string → string → text → Z → Z
  → St World (option (list text) * Z).
Variable generate_random_text_snippet :
  text → Z → Z → St World (option (list text) * Z).
Variable create_text_image_frame : FrameArgs → St World Img.
Variable params : Params.
Variable app_config : AppConfig.
Variable settings : Settings.

(** A font that the selection of the first attempt at a frame can
    give. *)
Definition selected (path : text) : Prop :=
  ∃ w w',
    select_font host params app_config settings ∅ w
    = (Ok (Some path), w').

Hypothesis pool_size_positive : 1 <= TEXT_POOL_SIZE constants.
Hypothesis retries_positive : 1 <= MAX_FONT_RETRIES_PER_FRAME constants.
Hypothesis ten_frames : (10 <= total_frames settings)%Z.
Hypothesis supplied :
  ∀ w, ∃ s w',
    new_text generate_ai_text_snippet generate_random_text_snippet params
      settings w = (Ok (Some s), w').
Hypothesis in_range :
  ∀ w s w',
    new_text generate_ai_text_snippet generate_random_text_snippet params
      settings w = (Ok (Some s), w') →
    snippet_ok s.
Hypothesis font_found :
  ∀ w, ∃ path w',
    select_font host params app_config settings ∅ w
    = (Ok (Some path), w').
Hypothesis rendered :
  ∀ s path jitter w,
    snippet_ok s → selected path →
    ∃ img w',
      create_text_image_frame
        (frame_args constants params app_config settings s path jitter) w
      = (Ok img, w').

(** No font has failed, the cursor is inside the pool and the highlight
    indices are inside their snippets. *)
Definition steady (st : Loop) : Prop :=
  failed_fonts st = ∅ ∧ pool_ok st.

Lemma attempt_renders st ct path w :
  snippet_ok ct → selected path →
  ∃ img w',
    attempt constants create_text_image_frame params app_config settings
      st ct path w = (Ok (Next (add_frame st img)), w').
Proof.
  intros Hct Hpath. unfold attempt, bind, with_random at 1.
  destruct (Random.uniform _ _ _) as [j r].
  match goal with
  | |- context [create_text_image_frame
                  (frame_args _ _ _ _ _ _ ?j0) ?w0] =>
      destruct (rendered ct path j0 w0 Hct Hpath) as (img & w' & ->)
  end.
  replace (total_frames settings / 10 =? 0)%Z with false.
  - by exists img, w'.
  - symmetry. apply Z.eqb_neq.
    pose proof (Z.div_le_mono 10 (total_frames settings) 10
                  ltac:(lia) ten_frames) as Hd.
    change (10 / 10)%Z with 1%Z in Hd. lia.
Qed.

Lemma refresh_supplied st w :
  steady st →
  ∃ st1 w1 ct,
    refresh_text constants generate_ai_text_snippet
      generate_random_text_snippet params settings st w
    = (Ok (Next st1), w1)
    ∧ failed_fonts st1 = ∅
    ∧ frames st1 = frames st
    ∧ frame_num st1 = frame_num st
    ∧ pool_ok st1
    ∧ text_pool st1 !! current_pool_index st1 = Some ct
    ∧ snippet_ok ct.
Proof.
  intros [Hfailed Hok]. destruct (supplied w) as (s & w' & Hnew).
  assert (∃ st1 w1,
            refresh_text constants generate_ai_text_snippet
              generate_random_text_snippet params settings st w
            = (Ok (Next st1), w1)) as (st1 & w1 & Hr).
  { destruct (text_pool st) as [|s0 pool] eqn:Epool.
    - exists (rotated st [s]), w'.
      rewrite (refresh_grow constants _ _ params settings st w (Some s) w');
        [|unfold due; rewrite Epool; apply orb_true_r
         |rewrite Epool; simpl; lia|done].
      by rewrite Epool.
    - destruct (refresh_nonempty constants generate_ai_text_snippet
                  generate_random_text_snippet params settings st w
                  (Some s) w')
        as (st1 & w1 & ct & Hr & _); [by rewrite Epool| |done|by eauto].
      destruct Hok as [Hidx _]. apply Hidx. by rewrite Epool. }
  destruct (refresh_pool_ok constants generate_ai_text_snippet
              generate_random_text_snippet params settings st w st1 w1
              in_range Hok Hr) as [Hok1 Hne].
  destruct Hok1 as [Hidx1 Hall1].
  destruct (lookup_lt_is_Some_2 _ _ (Hidx1 Hne)) as [ct Hct].
  assert (snippet_ok ct) as Hsn.
  { rewrite Forall_forall in Hall1. apply Hall1.
    by eapply list_elem_of_lookup_2. }
  exists st1, w1, ct. split; [done|].
  apply refresh_prefix in Hr as (_ & Hframes & Hnum & Hf).
  split; [congruence|]. split; [done|]. split; [done|].
  split; [by split|]. by split.
Qed.

Lemma frame_pass_progress st w :
  steady st →
  ∃ st' w',
    frame_pass host constants generate_ai_text_snippet
      generate_random_text_snippet create_text_image_frame params
      app_config settings st w = (Ok (Next st'), w')
    ∧ steady st'
    ∧ length (frames st') = S (length (frames st))
    ∧ frame_num st' = S (frame_num st).
Proof.
  intros Hsteady.
  destruct (refresh_supplied st w Hsteady)
    as (st1 & w1 & ct & Hr & Hfailed & Hframes & Hnum & Hok1 & Hct & Hsn).
  rewrite (frame_pass_draw host constants _ _ create_text_image_frame
             params app_config settings st w st1 w1 ct Hr Hct).
  unfold draw_frame.
  assert (∃ left, MAX_FONT_RETRIES_PER_FRAME constants = S left)
    as [left Emax].
  { exists (MAX_FONT_RETRIES_PER_FRAME constants - 1). lia. }
  rewrite Emax.
  destruct (font_found w1) as (path & w2 & Hsel).
  destruct (attempt_renders (count_use st1) ct path w2 Hsn)
    as (img & w3 & Hatt); [by exists w1, w2|].
  assert (font_loop host constants create_text_image_frame params
            app_config settings (S left) (count_use st1) ct w1
          = (Ok (Next (add_frame (count_use st1) img)), w3)) as Hloop.
  { apply font_loop_success with path w2; [|done].
    cbn [count_use failed_fonts]. by rewrite Hfailed. }
  rewrite (bind_eq_ok _ _ _ _ _ Hloop).
  eexists _, _. split; [reflexivity|]. split; [|split].
  - split; [done|]. exact Hok1.
  - cbn. rewrite length_app, Hframes. simpl. lia.
  - cbn. lia.
Qed.

Lemma frame_passes_progress k :
  ∀ st w,
    steady st →
    ∃ st' w',
      frame_passes host constants generate_ai_text_snippet
        generate_random_text_snippet create_text_image_frame params
        app_config settings k st w = (Ok (Next st'), w')
      ∧ length (frames st') = length (frames st) + k
      ∧ frame_num st' = frame_num st + k.
Proof.
  induction k as [|k IH]; intros st w Hsteady; cbn [frame_passes].
  - exists st, w. split; [done|lia].
  - destruct (frame_pass_progress st w Hsteady)
      as (st1 & w1 & Hpass & Hsteady1 & Hlen & Hnum).
    destruct (IH st1 w1 Hsteady1) as (st' & w' & Hrest & Hlen' & Hnum').
    exists st', w'. rewrite (bind_eq_ok _ _ _ _ _ Hpass).
    split; [done|lia].
Qed.

(** The loop comes to its end with as many frames as were asked for. *)
Lemma frame_loop_progress w :
  ∃ st w',
    frame_loop host constants generate_ai_text_snippet
      generate_random_text_snippet create_text_image_frame params
      app_config settings w = (Ok (Next st), w')
    ∧ Z.of_nat (length (frames st)) = total_frames settings
    ∧ Z.of_nat (frame_num st) = total_frames settings.
Proof.
  destruct (frame_passes_progress (Z.to_nat (total_frames settings))
              initial w) as (st & w' & H & Hlen & Hnum).
  { split; [done|]. apply pool_ok_initial. }
  exists st, w'. rewrite frame_loop_passes. split; [done|].
  simpl in Hlen, Hnum. lia.
Qed.

End Run.

End RunFacts.

(** * Strings *)
Module PyStrFacts.
Import PyStr.

Lemma eqc_true a b : eqc a b = true ↔ a = b.
Proof. unfold eqc. apply Ascii.eqb_eq. Qed.

Lemma eqc_refl a : eqc a a = true.
Proof. by apply eqc_true. Qed.

Lemma startswith_app p s : startswith p (p ++ s) = true.
Proof. induction p as [|a p IH]; simpl; [done|]. by rewrite eqc_refl. Qed.

Lemma startswith_spec p s :
  startswith p s = true ↔ ∃ t, s = p ++ t.
Proof.
  split.
  - revert s. induction p as [|a p IH]; intros s H; simpl in *.
    + by exists s.
    + destruct s as [|b s]; [done|].
      apply andb_true_iff in H as [Hab H]. apply eqc_true in Hab as ->.
      apply IH in H as [t ->]. by exists t.
  - intros [t ->]. apply startswith_app.
Qed.

Lemma contains_unfold p s :
  contains p s
  = startswith p s || match s with [] => false | _ :: s' => contains p s' end.
Proof. by destruct s. Qed.

Lemma contains_spec p s :
  contains p s = true ↔ ∃ a b, s = a ++ p ++ b.
Proof.
  split.
  - induction s as [|c s IH]; simpl; intros H.
    + rewrite orb_false_r in H. apply startswith_spec in H as [t Ht].
      by exists [], t.
    + apply orb_true_iff in H as [H|H].
      * apply startswith_spec in H as [t Ht]. by exists [], t.
      * apply IH in H as (a & b & ->). by exists (c :: a), b.
  - intros (a & b & ->). induction a as [|c a IH]; simpl.
    + by rewrite contains_unfold, startswith_app.
    + rewrite IH. apply orb_true_r.
Qed.

Lemma contains_app_r p a s : contains p s = true → contains p (a ++ s) = true.
Proof.
  intros H. apply contains_spec in H as (x & y & ->).
  apply contains_spec. exists (a ++ x), y. by rewrite <- app_assoc.
Qed.

Lemma contains_app_l p s b : contains p s = true → contains p (s ++ b) = true.
Proof.
  intros H. apply contains_spec in H as (x & y & ->).
  apply contains_spec. exists x, (y ++ b). by rewrite <- !app_assoc.
Qed.

Lemma replace_first_unfold old new s :
  replace_first old new s
  = if startswith old s then new ++ drop (length old) s
    else match s with
         | [] => []
         | c :: s' => c :: replace_first old new s'
         end.
Proof. by destruct s. Qed.

Lemma startswith_nil p : startswith p [] = true → p = [].
Proof. by destruct p. Qed.

(** Lengths and character counts under [replace_first]. *)
Lemma replace_first_length old new s :
  contains old s = true →
  length (replace_first old new s) + length old = length s + length new.
Proof.
  induction s as [|c s IH]; intros H;
    rewrite contains_unfold in H; rewrite replace_first_unfold.
  - rewrite orb_false_r in H. rewrite H.
    apply startswith_nil in H as ->. simpl. rewrite app_nil_r. lia.
  - destruct (startswith old (c :: s)) eqn:E.
    + apply startswith_spec in E as [t Ht]. rewrite Ht.
      rewrite drop_app_length, !length_app. lia.
    + simpl in H. specialize (IH H). simpl. lia.
Qed.

Lemma replace_first_absent old new s :
  contains old s = false → replace_first old new s = s.
Proof.
  induction s as [|c s IH]; intros H;
    rewrite contains_unfold in H; rewrite replace_first_unfold.
  - rewrite orb_false_r in H. by rewrite H.
  - apply orb_false_iff in H as [-> H]. by rewrite IH.
Qed.

Definition count (c : ascii) (s : text) : nat :=
  length (filter (λ x, x = c) s).

Lemma count_app c s t : count c (s ++ t) = count c s + count c t.
Proof. unfold count. by rewrite filter_app, length_app. Qed.

Lemma count_le c s : count c s <= length s.
Proof. unfold count. apply length_filter. Qed.

Lemma replace_first_count ch old new s :
  contains old s = true →
  count ch (replace_first old new s) + count ch old
  = count ch s + count ch new.
Proof.
  induction s as [|c s IH]; intros H;
    rewrite contains_unfold in H; rewrite replace_first_unfold.
  - rewrite orb_false_r in H. rewrite H.
    apply startswith_nil in H as ->. simpl. rewrite app_nil_r.
    unfold count. simpl. lia.
  - destruct (startswith old (c :: s)) eqn:E.
    + apply startswith_spec in E as [t Ht]. rewrite Ht.
      rewrite drop_app_length, !count_app. lia.
    + simpl in H. specialize (IH H).
      change (c :: replace_first old new s)
        with ([c] ++ replace_first old new s).
      change (c :: s) with ([c] ++ s). rewrite !count_app. lia.
Qed.

(** A pattern that does not hold character [c] leaves a final [c] alone. *)
Lemma startswith_snoc old s c :
  old ≠ [] → c ∉ old →
  startswith old (s ++ [c]) = startswith old s.
Proof.
  intros Hne Hc. revert old Hne Hc.
  induction s as [|x s IH]; intros old Hne Hc.
  - destruct old as [|a old]; [done|]. simpl.
    destruct (eqc a c) eqn:E.
    + apply eqc_true in E as ->. exfalso. apply Hc. by left.
    + done.
  - destruct old as [|a old]; [done|]. simpl.
    destruct old as [|b old].
    + done.
    + rewrite IH; [done|done|]. intros ?. apply Hc. by right.
Qed.

Lemma replace_first_snoc old new s c :
  old ≠ [] → c ∉ old →
  replace_first old new (s ++ [c]) = replace_first old new s ++ [c].
Proof.
  intros Hne Hc. induction s as [|x s IH].
  - simpl. destruct old as [|a old]; [done|]. simpl.
    destruct (eqc a c) eqn:E.
    + apply eqc_true in E as ->. exfalso. apply Hc. by left.
    + done.
  - rewrite (replace_first_unfold _ _ ((x :: s) ++ [c])),
      (replace_first_unfold _ _ (x :: s)).
    rewrite startswith_snoc by done.
    destruct (startswith old (x :: s)) eqn:E.
    + apply startswith_spec in E as [t Ht]. rewrite Ht.
      rewrite <- app_assoc, !drop_app_length. by rewrite app_assoc.
    + simpl. by rewrite IH.
Qed.

Lemma contains_snoc old s c :
  old ≠ [] → c ∉ old → contains old (s ++ [c]) = contains old s.
Proof.
  intros Hne Hc. induction s as [|x s IH].
  - simpl. destruct old as [|a old]; [done|]. simpl.
    destruct (eqc a c) eqn:E; [|done].
    apply eqc_true in E as ->. exfalso. apply Hc. by left.
  - rewrite (contains_unfold _ ((x :: s) ++ [c])),
      (contains_unfold _ (x :: s)).
    rewrite startswith_snoc by done. simpl. by rewrite IH.
Qed.

Lemma endswith_snoc s c : endswith [c] (s ++ [c]) = true.
Proof. unfold endswith. rewrite rev_app_distr. simpl. by rewrite eqc_refl. Qed.

Lemma endswith_spec c s : endswith [c] s = true → ∃ s', s = s' ++ [c].
Proof.
  unfold endswith. simpl. intros H.
  destruct (rev s) as [|x t] eqn:E; [done|].
  rewrite andb_true_r in H. apply eqc_true in H as <-.
  exists (rev t). apply rev_inj. by rewrite rev_app_distr, rev_involutive.
Qed.

Lemma drop_last_snoc (s : text) c : drop_last (s ++ [c]) = s.
Proof. unfold drop_last. apply removelast_last. Qed.

(** ** Replacing next to a phrase

    [clash x y]: a non-empty end of [x] and a beginning of [y] agree, or
    [y] lies in [x] up to its end.  When neither [clash p h] nor
    [clash h p], an occurrence of [p] cannot touch an occurrence of [h]. *)
Fixpoint clash (x y : text) : bool :=
  match x with
  | [] => false
  | _ :: x' => startswith x y || startswith y x || clash x' y
  end.

Definition apart (p h : text) : bool :=
  negb (clash p h) && negb (clash h p).

Lemma clash_intro x y l :
  l ≠ [] → l `suffix_of` x →
  startswith l y = true ∨ startswith y l = true →
  clash x y = true.
Proof.
  intros Hl [k ->] H. induction k as [|c k IH]; simpl.
  - destruct l as [|c l]; [done|]. cbn [clash].
    destruct H as [-> | ->]; by rewrite ?orb_true_r.
  - rewrite IH. apply orb_true_r.
Qed.

Lemma overlap_clash l t h b :
  l ≠ [] → l ++ t = h ++ b →
  startswith l h = true ∨ startswith h l = true.
Proof.
  intros Hl E. apply app_eq_app in E as [k [[-> ->] | [-> ->]]].
  - right. apply startswith_app.
  - left. apply startswith_app.
Qed.

Lemma startswith_app_l p s t :
  startswith p s = true → startswith p (s ++ t) = true.
Proof.
  intros H. apply startswith_spec in H as [k ->].
  rewrite <- app_assoc. apply startswith_app.
Qed.

(** Inside [h] the pattern does not start. *)
Lemma replace_first_through p w h b :
  p ≠ [] → clash h p = false →
  replace_first p w (h ++ b) = h ++ replace_first p w b.
Proof.
  intros Hp Hclash.
  assert (∀ h', h' `suffix_of` h →
            replace_first p w (h' ++ b) = h' ++ replace_first p w b) as H.
  { induction h' as [|x h' IH]; intros Hsuf; [done|].
    rewrite replace_first_unfold.
    destruct (startswith p ((x :: h') ++ b)) eqn:E.
    - apply startswith_spec in E as [t Ht].
      assert (clash h p = true); [|congruence].
      apply (clash_intro h p (x :: h')); [done|done|].
      symmetry in Ht. apply overlap_clash in Ht; [|done]. tauto.
    - simpl. rewrite IH; [done|].
      destruct Hsuf as [k ->]. exists (k ++ [x]).
      by rewrite <- app_assoc. }
  apply H. done.
Qed.

Lemma contains_through p h b :
  p ≠ [] → clash h p = false →
  contains p (h ++ b) = contains p b.
Proof.
  intros Hp Hclash.
  assert (∀ h', h' `suffix_of` h →
            contains p (h' ++ b) = contains p b) as H.
  { induction h' as [|x h' IH]; intros Hsuf; [done|].
    rewrite contains_unfold.
    destruct (startswith p ((x :: h') ++ b)) eqn:E.
    - apply startswith_spec in E as [t Ht].
      assert (clash h p = true); [|congruence].
      apply (clash_intro h p (x :: h')); [done|done|].
      symmetry in Ht. apply overlap_clash in Ht; [|done]. tauto.
    - simpl. rewrite IH; [done|].
      destruct Hsuf as [k ->]. exists (k ++ [x]).
      by rewrite <- app_assoc. }
  apply H. done.
Qed.

Lemma startswith_before p a h b :
  p ≠ [] → clash p h = false →
  startswith p (a ++ h ++ b) = startswith p a.
Proof.
  intros Hp Hclash.
  destruct (startswith p a) eqn:Ea.
  - by apply startswith_app_l.
  - destruct (startswith p (a ++ h ++ b)) eqn:E; [|done].
    apply startswith_spec in E as [t Ht].
    apply app_eq_app in Ht as [k [[-> Hk] | [-> Hk]]].
    + rewrite startswith_app in Ea. done.
    + destruct k as [|c k].
      * rewrite app_nil_r in Ea. pose proof (startswith_app a []) as Hs.
        rewrite app_nil_r in Hs. congruence.
      * assert (clash (a ++ c :: k) h = true); [|congruence].
        apply (clash_intro _ _ (c :: k)); [done|by exists a|].
        symmetry in Hk. by apply overlap_clash in Hk.
Qed.

Lemma replace_first_around p w a h b :
  p ≠ [] → apart p h = true →
  replace_first p w (a ++ h ++ b)
  = if contains p a then replace_first p w a ++ h ++ b
    else a ++ h ++ replace_first p w b.
Proof.
  intros Hp Hap. unfold apart in Hap.
  apply andb_true_iff in Hap as [H1 H2].
  apply negb_true_iff in H1, H2.
  induction a as [|c a IH].
  - replace (contains p []) with false by (by destruct p).
    simpl. by apply replace_first_through.
  - rewrite (replace_first_unfold _ _ ((c :: a) ++ h ++ b)).
    rewrite startswith_before by done.
    rewrite (contains_unfold _ (c :: a)), (replace_first_unfold _ _ (c :: a)).
    destruct (startswith p (c :: a)) eqn:E.
    + simpl orb. cbv iota. apply startswith_spec in E as [t Ht]. rewrite Ht.
      rewrite <- (app_assoc p t), !drop_app_length.
      by rewrite <- !app_assoc.
    + simpl orb. rewrite <- app_comm_cons, IH.
      by destruct (contains p a).
Qed.

Lemma contains_around p a h b :
  p ≠ [] → apart p h = true →
  contains p (a ++ h ++ b) = contains p a || contains p b.
Proof.
  intros Hp Hap. unfold apart in Hap.
  apply andb_true_iff in Hap as [H1 H2].
  apply negb_true_iff in H1, H2.
  induction a as [|c a IH].
  - replace (contains p []) with false by (by destruct p).
    simpl. by apply contains_through.
  - rewrite (contains_unfold _ ((c :: a) ++ h ++ b)).
    rewrite startswith_before by done.
    rewrite (contains_unfold _ (c :: a)).
    rewrite <- app_comm_cons, IH. by rewrite orb_assoc.
Qed.

End PyStrFacts.

(** * The procedural text generator *)
Module TextGenerationFacts.
Import PyStr PyStrFacts TextGeneration.

(** ** Monadic steps *)

Lemma choice_in {A} (l : list A) r :
  l ≠ [] →
  ∃ a, Random.choice l r = (Ok a, snd (Random.next r)) ∧ a ∈ l.
Proof.
  intros Hl. destruct (PoolFacts.choice_ok l r Hl) as [a Ha].
  exists a. split; [done|]. by eapply PoolFacts.choice_elem.
Qed.

Lemma randint_range a b r :
  (a <= b)%Z →
  ∃ x, Random.randint a b r = (Ok x, snd (Random.next r))
       ∧ (a <= x <= b)%Z.
Proof.
  intros Hab. unfold Random.randint.
  destruct (b <? a)%Z eqn:E; [apply Z.ltb_lt in E; lia|].
  destruct (Random.next r) as [n r']. simpl.
  eexists. split; [done|].
  pose proof (Z.mod_pos_bound (Z.of_nat n) (b - a + 1)). lia.
Qed.

Lemma randint_ok a b r x r' :
  Random.randint a b r = (Ok x, r') → (a <= x <= b)%Z.
Proof.
  unfold Random.randint.
  destruct (b <? a)%Z eqn:E; [discriminate|]. apply Z.ltb_ge in E.
  destruct (Random.next r) as [n r1]. intros [= <- _].
  pose proof (Z.mod_pos_bound (Z.of_nat n) (b - a + 1)). lia.
Qed.

(** ** The word lists *)

Definition braces (s : text) : nat := count "{"%char s.

Definition plain (s : text) : bool :=
  forallb (λ x, negb (eqc x "{"%char)) s.

Definition min_len (c : Category) : nat :=
  match c with
  | noun => 3 | verb => 2 | adj => 3 | adv => 3 | prep => 2
  | pronoun => 1 | det => 1
  end.
Definition max_len (c : Category) : nat :=
  match c with
  | noun => 10 | verb => 7 | adj => 9 | adv => 10 | prep => 10
  | pronoun => 10 | det => 7
  end.

Definition word_ok (c : Category) (w : text) : bool :=
  plain w && (min_len c <=? length w) && (length w <=? max_len c).

Lemma parts_ok c : forallb (word_ok c) (parts c) = true.
Proof. destruct c; vm_compute; reflexivity. Qed.

Lemma parts_word c w : w ∈ parts c → word_ok c w = true.
Proof.
  intros H. pose proof (parts_ok c) as Hall.
  rewrite forallb_forall in Hall. apply Hall. by apply list_elem_of_In.
Qed.

Lemma parts_nonempty c : parts c ≠ [].
Proof. by destruct c. Qed.

Lemma plain_braces s : plain s = true → braces s = 0.
Proof.
  unfold braces, count. induction s as [|x s IH]; simpl; [done|].
  intros H. apply andb_true_iff in H as [Hx H].
  rewrite filter_cons. destruct (decide (x = "{"%char)) as [->|].
  - done.
  - by apply IH.
Qed.

Lemma placeholder_braces c : braces (placeholder c) = 1.
Proof. by destruct c. Qed.

Lemma placeholder_nonempty c : placeholder c ≠ [].
Proof. by destruct c. Qed.

(** ** The placeholder loops always end *)

Definition weight (special_word : option text) (result : text) : nat :=
  braces result + braces (default [] special_word).

Lemma fill_category_total fuel c special pos result r :
  weight special result < fuel →
  ∃ res sp r',
    fill_category fuel c special pos result r = (Ok (res, sp), r').
Proof.
  revert special result r.
  induction fuel as [|fuel IH]; intros special result r Hw; [lia|].
  cbn [fill_category].
  destruct (contains (placeholder c) result) eqn:Hc.
  - destruct (choice_in (parts c) r (parts_nonempty c)) as (w & Hch & Hw').
    unfold bind at 1. rewrite Hch.
    apply parts_word in Hw'. unfold word_ok in Hw'.
    apply andb_true_iff in Hw' as [Hw' _].
    apply andb_true_iff in Hw' as [Hplain _].
    apply plain_braces in Hplain.
    pose proof (replace_first_count "{"%char (placeholder c)) as Hcount.
    fold braces in Hcount.
    destruct (truthy special && bool_decide (pos = Some c)) eqn:Hsp.
    + apply IH. unfold weight in *. simpl.
      specialize (Hcount (default [] special) result Hc).
      fold (braces (default [] special)) in Hcount.
      fold (braces (replace_first (placeholder c) (default [] special) result)) in Hcount.
      fold (braces result) in Hcount.
      rewrite placeholder_braces in Hcount. unfold braces at 2.
      unfold count at 1. simpl. lia.
    + apply IH. unfold weight in *.
      specialize (Hcount w result Hc).
      fold (braces w) in Hcount.
      fold (braces (replace_first (placeholder c) w result)) in Hcount.
      fold (braces result) in Hcount.
      rewrite placeholder_braces in Hcount. lia.
  - unfold ret. eauto.
Qed.

Lemma fill_fuel_enough special result :
  weight special result < fill_fuel special result.
Proof.
  unfold weight, fill_fuel, braces.
  pose proof (count_le "{"%char result).
  pose proof (count_le "{"%char (default [] special)). lia.
Qed.

Lemma fill_categories_total cats special pos result r :
  ∃ res r', fill_categories cats special pos result r = (Ok res, r').
Proof.
  revert special result r. induction cats as [|c cats IH];
    intros special result r; cbn [fill_categories].
  - unfold ret. eauto.
  - destruct (fill_category_total (fill_fuel special result) c special pos
                result r (fill_fuel_enough _ _)) as (res & sp & r' & H).
    unfold bind at 1. rewrite H. apply IH.
Qed.

(** ** The loop that lengthens a sentence *)

Definition the_ : text := str " the ".
Definition a_ : text := str " a ".

(** Where [lengthen] stops, for a property [Inv] that its two
    replacements keep: at a sentence of 50 characters or more, or at a
    shorter one without article, which gets a suffix when it ends in a
    full stop. *)
Lemma lengthen_result (Inv : text → Prop) :
  (∀ s w, Inv s → length s < 50 → contains the_ s = true →
          w ∈ parts adj →
          Inv (replace_first the_ (the_ ++ w ++ str " ") s)) →
  (∀ s w, Inv s → length s < 50 → contains the_ s = false →
          contains a_ s = true → w ∈ parts adj →
          Inv (replace_first a_ (a_ ++ w ++ str " ") s)) →
  ∀ fuel s r,
    1 <= fuel → 51 <= fuel + length s → Inv s →
    ∃ s1 res r',
      lengthen fuel s r = (Ok res, r')
      ∧ Inv s1 ∧ length s <= length s1
      ∧ ((50 <= length s1 ∧ res = s1)
         ∨ (length s1 < 50 ∧ contains the_ s1 = false
            ∧ contains a_ s1 = false
            ∧ ((endswith (str ".") s1 = true
                ∧ ∃ sfx, sfx ∈ suffixes
                         ∧ res = drop_last s1 ++ str " " ++ sfx ++ str ".")
               ∨ (endswith (str ".") s1 = false ∧ res = s1)))).
Proof.
  intros Hthe Ha. induction fuel as [|fuel IH]; intros s r Hf Hlen HI; [lia|].
  cbn [lengthen]. destruct (length s <? 50) eqn:Hshort.
  - apply Nat.ltb_lt in Hshort.
    fold the_. fold a_.
    destruct (contains the_ s) eqn:Hc1.
    + destruct (choice_in (parts adj) r (parts_nonempty adj))
        as (w & Hch & Hw).
      unfold bind at 1. rewrite Hch.
      pose proof (replace_first_length the_ (the_ ++ w ++ str " ") s Hc1)
        as Hl. rewrite !length_app in Hl.
      change (length (str " ")) with 1 in Hl.
      destruct (IH (replace_first the_ (the_ ++ w ++ str " ") s)
                  (snd (Random.next r))) as (s1 & res & r' & H & HI1 & Hl1 & Hres).
      { lia. } { lia. } { by apply Hthe. }
      exists s1, res, r'. repeat split; try done. lia.
    + destruct (contains a_ s) eqn:Hc2.
      * destruct (choice_in (parts adj) r (parts_nonempty adj))
          as (w & Hch & Hw).
        unfold bind at 1. rewrite Hch.
        pose proof (replace_first_length a_ (a_ ++ w ++ str " ") s Hc2)
          as Hl. rewrite !length_app in Hl.
        change (length (str " ")) with 1 in Hl.
        destruct (IH (replace_first a_ (a_ ++ w ++ str " ") s)
                    (snd (Random.next r)))
          as (s1 & res & r' & H & HI1 & Hl1 & Hres).
        { lia. } { lia. } { by apply Ha. }
        exists s1, res, r'. repeat split; try done. lia.
      * destruct (endswith (str ".") s) eqn:He.
        -- destruct (choice_in suffixes r) as (sfx & Hch & Hs); [done|].
           unfold bind at 1. rewrite Hch. unfold ret.
           exists s. eexists _, _. split; [done|].
           repeat split; try done. right.
           repeat split; try done. left. split; [done|]. eauto.
        -- unfold ret. exists s, s, r. repeat split; try done. right.
           repeat split; try done. by right.
  - apply Nat.ltb_ge in Hshort. unfold ret.
    exists s, s, r. repeat split; try done. by left.
Qed.

Lemma lengthen_total s r :
  ∃ res r', lengthen lengthen_fuel s r = (Ok res, r').
Proof.
  destruct (lengthen_result (λ _, True)) with (fuel := lengthen_fuel)
    (s := s) (r := r) as (s1 & res & r' & H & _); try done.
  - unfold lengthen_fuel. lia.
  - unfold lengthen_fuel. lia.
  - eauto.
Qed.

Lemma fill_sentence_structure_total structure special pos r :
  ∃ res r',
    fill_sentence_structure structure special pos r = (Ok res, r').
Proof.
  unfold fill_sentence_structure.
  destruct (fill_categories_total categories special pos structure r)
    as (res & r1 & H).
  unfold bind. rewrite H. apply lengthen_total.
Qed.

Lemma retry_short_total left again sentence r :
  (∀ r, ∃ res r', again r = (Ok res, r')) →
  ∃ res r', retry_short left again sentence r = (Ok res, r').
Proof.
  intros Hagain. revert sentence r.
  induction left as [|left IH]; intros sentence r; cbn [retry_short].
  - unfold ret. eauto.
  - destruct (length sentence <? MIN_LINE_LENGTH).
    + destruct (Hagain r) as (s1 & r1 & H1).
      unfold bind. rewrite H1. apply IH.
    + unfold ret. eauto.
Qed.

Lemma retry_short_long left again sentence r :
  MIN_LINE_LENGTH <= length sentence →
  retry_short left again sentence r = (Ok sentence, r).
Proof.
  intros H. destruct left; cbn [retry_short]; [done|].
  apply Nat.ltb_ge in H. by rewrite H.
Qed.

Lemma generate_sentence_structure_total r :
  ∃ res r', generate_sentence_structure r = (Ok res, r').
Proof.
  unfold generate_sentence_structure.
  destruct (choice_in structures r) as (a & H & _); [done|]. eauto.
Qed.

Lemma structure_then_fill_total special pos r :
  ∃ res r',
    (let* structure := generate_sentence_structure in
     fill_sentence_structure structure special pos) r = (Ok res, r').
Proof.
  destruct (generate_sentence_structure_total r) as (st & r1 & H1).
  unfold bind. rewrite H1. apply fill_sentence_structure_total.
Qed.

Lemma normal_line_total r : ∃ res r', normal_line r = (Ok res, r').
Proof.
  unfold normal_line.
  destruct (generate_sentence_structure_total r) as (st & r1 & H1).
  unfold bind at 1. rewrite H1.
  destruct (fill_sentence_structure_total st None None r1)
    as (s & r2 & H2).
  unfold bind at 1. rewrite H2.
  apply retry_short_total. intros r3. apply structure_then_fill_total.
Qed.

Lemma highlighted_line_total highlighted_text r :
  ∃ res r', highlighted_line highlighted_text r = (Ok res, r').
Proof.
  unfold highlighted_line. destruct (is_phrase highlighted_text).
  - destruct (choice_in (highlight_structures highlighted_text) r)
      as (st & H1 & _); [done|].
    unfold bind at 1. rewrite H1.
    destruct (fill_sentence_structure_total st None None
                (snd (Random.next r))) as (s & r2 & H2).
    unfold bind at 1. rewrite H2.
    apply retry_short_total. intros r3.
    apply fill_sentence_structure_total.
  - destruct (choice_in pos_options r) as (pos & H1 & _); [done|].
    unfold bind at 1. rewrite H1.
    destruct (generate_sentence_structure_total (snd (Random.next r)))
      as (st & r1 & H2).
    unfold bind at 1. rewrite H2.
    destruct (fill_sentence_structure_total st (Some highlighted_text)
                (Some pos) r1) as (s & r2 & H3).
    unfold bind at 1. rewrite H3.
    apply retry_short_total. intros r3. apply structure_then_fill_total.
Qed.

Lemma fit_line_total line r : ∃ res r', fit_line line r = (Ok res, r').
Proof.
  unfold fit_line.
  repeat match goal with
         | |- context [if ?b then _ else _] => destruct b
         end;
    unfold ret; eauto;
    destruct (choice_in extra_phrases r) as (e & H & _); try done;
    unfold bind; rewrite H; eauto.
Qed.

(** ** The lines of a snippet *)

Lemma build_lines_result (good : text → Prop) highlighted_text idx :
  (∀ r, ∃ line r', highlighted_line highlighted_text r = (Ok line, r')
                   ∧ good line) →
  ∀ todo i r,
    ∃ ls r',
      build_lines highlighted_text idx i todo r = (Ok ls, r')
      ∧ length ls = todo
      ∧ ∀ k, k < todo → (i + Z.of_nat k)%Z = idx →
             ∃ line, ls !! k = Some line ∧ good line.
Proof.
  intros Hgood. induction todo as [|todo IH]; intros i r;
    cbn [build_lines].
  - unfold ret. exists [], r. repeat split; try done. lia.
  - assert (∃ line r1,
              (if (i =? idx)%Z then highlighted_line highlighted_text
               else normal_line) r = (Ok line, r1)
              ∧ (i = idx → good line)) as (line & r1 & H1 & Hl).
    { destruct (i =? idx)%Z eqn:E.
      - destruct (Hgood r) as (line & r1 & H & Hg). eauto.
      - apply Z.eqb_neq in E. destruct (normal_line_total r) as (line & r1 & H).
        exists line, r1. split; [done|]. intros. done. }
    unfold bind at 1. rewrite H1.
    destruct (IH (i + 1)%Z r1) as (ls & r2 & H2 & Hlen & Hat).
    unfold bind at 1. rewrite H2. unfold ret.
    exists (line :: ls), r2. repeat split; try done.
    + simpl. lia.
    + intros k Hk Hik. destruct k as [|k].
      * exists line. split; [done|]. apply Hl. lia.
      * simpl. apply Hat; lia.
Qed.

Lemma build_lines_length highlighted_text idx todo i r ls r' :
  build_lines highlighted_text idx i todo r = (Ok ls, r') →
  length ls = todo.
Proof.
  assert (∀ r, ∃ line r', highlighted_line highlighted_text r
                          = (Ok line, r') ∧ True) as H0.
  { intros r0. destruct (highlighted_line_total highlighted_text r0)
      as (l & r1 & H). eauto. }
  destruct (build_lines_result (λ _, True) highlighted_text idx H0
              todo i r) as (ls' & r2 & H & Hlen & _).
  rewrite H. by intros [= <- _].
Qed.

Lemma fit_lines_result (good kept : text → Prop) :
  (∀ line r, good line →
             ∃ line' r', fit_line line r = (Ok line', r') ∧ kept line') →
  ∀ ls r,
    ∃ ls' r',
      fit_lines ls r = (Ok ls', r')
      ∧ length ls' = length ls
      ∧ ∀ k line, ls !! k = Some line → good line →
                  ∃ line', ls' !! k = Some line' ∧ kept line'.
Proof.
  intros Hfit. induction ls as [|l ls IH]; intros r; cbn [fit_lines].
  - unfold ret. exists [], r. repeat split; try done.
  - destruct (fit_line_total l r) as (l' & r1 & H1).
    unfold bind at 1. rewrite H1.
    destruct (IH r1) as (ls' & r2 & H2 & Hlen & Hat).
    unfold bind at 1. rewrite H2. unfold ret.
    exists (l' :: ls'), r2. repeat split; try done.
    + simpl. lia.
    + intros k line Hk Hg. destruct k as [|k].
      * injection Hk as ->. exists l'. split; [done|].
        destruct (Hfit line r Hg) as (l2 & r3 & H3 & Hkept).
        rewrite H1 in H3. by injection H3 as -> _.
      * simpl in Hk. simpl. by eapply Hat.
Qed.

Lemma fit_lines_length ls r ls' r' :
  fit_lines ls r = (Ok ls', r') → length ls' = length ls.
Proof.
  assert (∀ line r, False →
            ∃ line' r', fit_line line r = (Ok line', r') ∧ True) as H0
    by done.
  destruct (fit_lines_result (λ _, False) (λ _, True) H0 ls r)
    as (ls2 & r2 & H & Hlen & _).
  rewrite H. by intros [= <- _].
Qed.

(** What [generate_random_text_snippet] returns when the line bounds
    leave [randint] a range, with a property [kept] of the highlighted
    line that the cutting and padding of a [good] line give. *)
Lemma generate_result (good kept : text → Prop) highlighted_text
    min_lines max_lines r :
  (Z.max 1 min_lines <= Z.max min_lines max_lines)%Z →
  (∀ r, ∃ line r', highlighted_line highlighted_text r = (Ok line, r')
                   ∧ good line) →
  (∀ line r, good line →
             ∃ line' r', fit_line line r = (Ok line', r') ∧ kept line') →
  ∃ ls idx r',
    generate_random_text_snippet highlighted_text min_lines max_lines r
    = (Ok (Some ls, idx), r')
    ∧ (Z.max 1 min_lines <= Z.of_nat (length ls)
       <= Z.max min_lines max_lines)%Z
    ∧ (0 <= idx < Z.of_nat (length ls))%Z
    ∧ ∃ line, ls !! Z.to_nat idx = Some line ∧ kept line.
Proof.
  intros Hrange Hgood Hfit. unfold generate_random_text_snippet.
  destruct (randint_range _ _ r Hrange) as (n & Hn & Hnr).
  unfold bind at 1. rewrite Hn.
  destruct (randint_range 0 (n - 1) (snd (Random.next r)))
    as (idx & Hi & Hir); [lia|].
  unfold bind at 1. rewrite Hi.
  destruct (build_lines_result good highlighted_text idx Hgood
              (Z.to_nat n) 0%Z (snd (Random.next (snd (Random.next r)))))
    as (ls & r1 & Hb & Hlen & Hat).
  unfold bind at 1. rewrite Hb.
  destruct (fit_lines_result good kept Hfit ls r1)
    as (ls' & r2 & Hf & Hlen' & Hat').
  unfold bind at 1. rewrite Hf.
  destruct (Z.of_nat (length ls') <? min_lines)%Z eqn:E.
  { apply Z.ltb_lt in E. lia. }
  unfold ret. exists ls', idx, r2.
  destruct (Hat (Z.to_nat idx)) as (line & Hl & Hg); [lia|lia|].
  destruct (Hat' _ _ Hl Hg) as (line' & Hl' & Hk).
  repeat split; try lia; try done. eauto.
Qed.

(** Whatever it returns, the index is inside the lines. *)
Lemma generate_in_range highlighted_text min_lines max_lines r ls idx r' :
  generate_random_text_snippet highlighted_text min_lines max_lines r
  = (Ok (Some ls, idx), r') →
  (0 <= idx < Z.of_nat (length ls))%Z
  ∧ (min_lines <= Z.of_nat (length ls))%Z.
Proof.
  unfold generate_random_text_snippet. intros H.
  bind_inv H. bind_inv H. bind_inv H. bind_inv H.
  apply randint_ok in Hm, Hm0.
  apply build_lines_length in Hm1. apply fit_lines_length in Hm2.
  destruct (Z.of_nat (length a2) <? min_lines)%Z eqn:E;
    apply ret_ok in H as [[= <- <-] _].
  apply Z.ltb_ge in E. lia.
Qed.

(** ** Templates as tokens

    A template is a sequence of literal pieces and placeholders.  While
    the literal pieces hold no brace, [replace] finds exactly the
    placeholders, from left to right. *)
Inductive Tok :=
| Lit (s : text)
| Hole (c : Category).

Definition tok_text (t : Tok) : text :=
  match t with Lit s => s | Hole c => placeholder c end.

Definition flatten (ts : list Tok) : text := concat (map tok_text ts).

Definition tok_plain (t : Tok) : bool :=
  match t with Lit s => plain s | Hole _ => true end.

Definition is_hole (c : Category) (t : Tok) : bool :=
  match t with Hole c' => bool_decide (c' = c) | Lit _ => false end.

Fixpoint fill_first (c : Category) (w : text) (ts : list Tok) : list Tok :=
  match ts with
  | [] => []
  | t :: ts' => if is_hole c t then Lit w :: ts'
                else t :: fill_first c w ts'
  end.

Lemma flatten_cons t ts : flatten (t :: ts) = tok_text t ++ flatten ts.
Proof. done. Qed.

Lemma flatten_app ts us : flatten (ts ++ us) = flatten ts ++ flatten us.
Proof. unfold flatten. by rewrite map_app, concat_app. Qed.

Lemma plain_no_clash l c : plain l = true → clash l (placeholder c) = false.
Proof.
  assert (∃ rest, placeholder c = "{"%char :: rest) as [rest ->]
    by (destruct c; eexists; reflexivity).
  induction l as [|x l IH]; [done|]. intros H. simpl in H.
  apply andb_true_iff in H as [Hx H]. apply negb_true_iff in Hx.
  assert (eqc "{" x = false) as Hx'.
  { apply not_true_is_false. intros E. apply eqc_true in E as <-.
    by rewrite eqc_refl in Hx. }
  cbn [clash startswith]. by rewrite IH, Hx, Hx'.
Qed.

Lemma other_no_clash c c' :
  c' ≠ c → clash (placeholder c') (placeholder c) = false.
Proof. destruct c, c'; intros H; try done; vm_compute; reflexivity. Qed.

Lemma tok_no_clash c t :
  tok_plain t = true → is_hole c t = false →
  clash (tok_text t) (placeholder c) = false.
Proof.
  destruct t as [l|c']; simpl.
  - intros H _. by apply plain_no_clash.
  - intros _ H. apply other_no_clash. by apply bool_decide_eq_false in H.
Qed.

Lemma replace_first_flatten c w ts :
  forallb tok_plain ts = true →
  replace_first (placeholder c) w (flatten ts) = flatten (fill_first c w ts).
Proof.
  induction ts as [|t ts IH]; intros Hwf.
  - simpl. replace (startswith (placeholder c) []) with false; [done|].
    by destruct c.
  - simpl in Hwf. apply andb_true_iff in Hwf as [Ht Hwf].
    rewrite flatten_cons. cbn [fill_first].
    destruct (is_hole c t) eqn:E.
    + destruct t as [l|c']; [done|]. simpl in E.
      apply bool_decide_eq_true in E as ->. simpl tok_text.
      rewrite replace_first_unfold, startswith_app, drop_app_length. done.
    + rewrite replace_first_through.
      * rewrite IH by done. done.
      * apply placeholder_nonempty.
      * by apply tok_no_clash.
Qed.

Lemma contains_flatten c ts :
  forallb tok_plain ts = true →
  contains (placeholder c) (flatten ts) = existsb (is_hole c) ts.
Proof.
  induction ts as [|t ts IH]; intros Hwf.
  - by destruct c.
  - simpl in Hwf. apply andb_true_iff in Hwf as [Ht Hwf].
    rewrite flatten_cons. cbn [existsb].
    destruct (is_hole c t) eqn:E.
    + destruct t as [l|c']; [done|]. simpl in E.
      apply bool_decide_eq_true in E as ->. simpl tok_text.
      by rewrite contains_unfold, startswith_app.
    + rewrite contains_through.
      * by apply IH.
      * apply placeholder_nonempty.
      * by apply tok_no_clash.
Qed.

Lemma fill_first_plain c w ts :
  plain w = true → forallb tok_plain ts = true →
  forallb tok_plain (fill_first c w ts) = true.
Proof.
  intros Hw. induction ts as [|t ts IH]; [done|]. simpl. intros H.
  apply andb_true_iff in H as [Ht H].
  destruct (is_hole c t); simpl.
  - by rewrite Hw, H.
  - by rewrite Ht, IH.
Qed.

Definition holes (c : Category) (ts : list Tok) : nat :=
  length (filter (λ t, is_hole c t = true) ts).

Lemma holes_fill_first c w ts :
  existsb (is_hole c) ts = true →
  S (holes c (fill_first c w ts)) = holes c ts.
Proof.
  unfold holes. induction ts as [|t ts IH]; [done|]. simpl. intros H.
  rewrite filter_cons. destruct (is_hole c t) eqn:E.
  - rewrite decide_True by done. done.
  - rewrite decide_False by done. simpl in H.
    rewrite filter_cons, E, decide_False by done. by apply IH.
Qed.

Lemma holes_length c ts : holes c ts <= length (flatten ts).
Proof.
  unfold holes. induction ts as [|t ts IH]; [done|].
  rewrite flatten_cons, length_app, filter_cons.
  destruct (decide (is_hole c t = true)) as [E|E]; simpl; [|lia].
  destruct t as [l|c']; [done|]. simpl.
  assert (1 <= length (placeholder c')) by (destruct c'; simpl; lia). lia.
Qed.

(** [filled done t t']: [t'] is [t] with its placeholder, when its
    category is in [done], replaced by a word of that category. *)
Definition filled (done : list Category) (t t' : Tok) : Prop :=
  match t with
  | Lit s => t' = Lit s
  | Hole c =>
      if bool_decide (c ∈ done)
      then ∃ w, w ∈ parts c ∧ t' = Lit w
      else t' = Hole c
  end.

(** The same while category [c] is being filled. *)
Definition filling (done : list Category) (c : Category) (t t' : Tok)
    : Prop :=
  match t with
  | Lit s => t' = Lit s
  | Hole c' =>
      if bool_decide (c' ∈ done)
      then ∃ w, w ∈ parts c' ∧ t' = Lit w
      else if bool_decide (c' = c)
           then t' = Hole c' ∨ ∃ w, w ∈ parts c' ∧ t' = Lit w
           else t' = Hole c'
  end.

Lemma filled_filling done c ts0 ts :
  Forall2 (filled done) ts0 ts → Forall2 (filling done c) ts0 ts.
Proof.
  intros H. eapply Forall2_impl; [exact H|].
  intros t t'. unfold filled, filling.
  destruct t as [l|c']; [done|].
  destruct (bool_decide (c' ∈ done)); [done|].
  destruct (bool_decide (c' = c)); auto.
Qed.

Lemma filling_step done c w ts0 ts :
  w ∈ parts c →
  Forall2 (filling done c) ts0 ts →
  Forall2 (filling done c) ts0 (fill_first c w ts).
Proof.
  intros Hw H. induction H as [|t t' ts0 ts Ht H IH]; [constructor|].
  cbn [fill_first]. destruct (is_hole c t') eqn:E.
  - constructor; [|done].
    destruct t' as [l|c']; [done|]. simpl in E.
    apply bool_decide_eq_true in E as ->.
    unfold filling in *. destruct t as [l|c0].
    + done.
    + destruct (bool_decide (c0 ∈ done)).
      * destruct Ht as (w0 & _ & [=]).
      * destruct (bool_decide (c0 = c)) eqn:E0.
        -- apply bool_decide_eq_true in E0 as ->. right. eauto.
        -- injection Ht as ->. by rewrite bool_decide_eq_true_2 in E0.
  - by constructor.
Qed.

Lemma filling_filled done c ts0 ts :
  c ∉ done →
  existsb (is_hole c) ts = false →
  Forall2 (filling done c) ts0 ts →
  Forall2 (filled (c :: done)) ts0 ts.
Proof.
  intros Hc Hno H. induction H as [|t t' ts0 ts Ht H IH]; [constructor|].
  simpl in Hno. apply orb_false_iff in Hno as [Ht' Hno].
  constructor; [|by apply IH].
  unfold filling, filled in *. destruct t as [l|c0]; [done|].
  destruct (bool_decide (c0 ∈ done)) eqn:Ed.
  - apply bool_decide_eq_true in Ed.
    rewrite bool_decide_eq_true_2 by (by right). done.
  - apply bool_decide_eq_false in Ed.
    destruct (bool_decide (c0 = c)) eqn:E0.
    + apply bool_decide_eq_true in E0 as ->.
      rewrite bool_decide_eq_true_2 by (by left).
      destruct Ht as [->|Ht]; [|done].
      simpl in Ht'. by rewrite bool_decide_eq_true_2 in Ht'.
    + apply bool_decide_eq_false in E0.
      rewrite bool_decide_eq_false_2; [done|].
      intros Hin. apply elem_of_cons in Hin as [?|?]; done.
Qed.

Lemma fill_category_tokens done c pos ts0 fuel ts r :
  c ∉ done →
  forallb tok_plain ts = true →
  Forall2 (filling done c) ts0 ts →
  holes c ts < fuel →
  ∃ ts' r',
    fill_category fuel c None pos (flatten ts) r
    = (Ok (flatten ts', None), r')
    ∧ forallb tok_plain ts' = true
    ∧ Forall2 (filled (c :: done)) ts0 ts'.
Proof.
  intros Hc. revert ts r.
  induction fuel as [|fuel IH]; intros ts r Hwf Hrel Hfuel; [lia|].
  cbn [fill_category]. rewrite contains_flatten by done.
  destruct (existsb (is_hole c) ts) eqn:Hex.
  - destruct (choice_in (parts c) r (parts_nonempty c)) as (w & Hch & Hw).
    unfold bind at 1. rewrite Hch.
    change (truthy None) with false. cbn [andb]. cbv beta iota.
    rewrite replace_first_flatten by done.
    apply IH.
    + apply fill_first_plain; [|done].
      apply parts_word in Hw. unfold word_ok in Hw.
      apply andb_true_iff in Hw as [Hw _].
      by apply andb_true_iff in Hw as [Hw _].
    + by apply filling_step.
    + pose proof (holes_fill_first c w ts Hex). lia.
  - unfold ret. exists ts, r. repeat split; try done.
    by apply filling_filled.
Qed.

Lemma fill_categories_tokens pos ts0 cats done ts r :
  NoDup (cats ++ done) →
  forallb tok_plain ts = true →
  Forall2 (filled done) ts0 ts →
  ∃ ts' r',
    fill_categories cats None pos (flatten ts) r = (Ok (flatten ts'), r')
    ∧ forallb tok_plain ts' = true
    ∧ Forall2 (filled (rev cats ++ done)) ts0 ts'.
Proof.
  revert done ts r. induction cats as [|c cats IH];
    intros done ts r Hnd Hwf Hrel; cbn [fill_categories].
  - unfold ret. exists ts, r. done.
  - simpl in Hnd. apply NoDup_cons in Hnd as [Hc Hnd].
    destruct (fill_category_tokens done c pos ts0
                (fill_fuel None (flatten ts)) ts r)
      as (ts1 & r1 & H1 & Hwf1 & Hrel1); try done.
    + intros Hin. apply Hc. apply elem_of_app. by right.
    + by apply filled_filling.
    + unfold fill_fuel. simpl. pose proof (holes_length c ts). lia.
    + unfold bind at 1. rewrite H1.
      destruct (IH (c :: done) ts1 r1) as (ts2 & r2 & H2 & Hwf2 & Hrel2);
        try done.
      * apply NoDup_app. apply NoDup_app in Hnd as (Hn1 & Hn2 & Hn3).
        repeat split; try done.
        -- intros x Hx Hx'. apply elem_of_cons in Hx' as [->|Hx'].
           ++ apply Hc. apply elem_of_app. by left.
           ++ by apply (Hn2 x).
        -- apply NoDup_cons. split; [|done].
           intros Hin. apply Hc. apply elem_of_app. by right.
      * exists ts2, r2. repeat split; try done.
        simpl. by rewrite <- app_assoc.
Qed.

(** After all seven categories every token is a literal piece. *)
Definition worded (t t' : Tok) : Prop :=
  match t with
  | Lit s => t' = Lit s
  | Hole c => ∃ w, w ∈ parts c ∧ t' = Lit w
  end.

Lemma fill_all_tokens pos ts r :
  forallb tok_plain ts = true →
  ∃ ts' r',
    fill_categories categories None pos (flatten ts) r
    = (Ok (flatten ts'), r')
    ∧ Forall2 worded ts ts'.
Proof.
  intros Hwf.
  destruct (fill_categories_tokens pos ts categories [] ts r)
    as (ts' & r' & H & _ & Hrel); try done.
  - rewrite app_nil_r. apply (bool_decide_unpack _). by vm_compute.
  - clear. induction ts as [|t ts IH]; constructor; [|done].
    by destruct t.
  - exists ts', r'. split; [done|].
    eapply Forall2_impl; [done|]. intros t t'. unfold filled, worded.
    destruct t as [l|c]; [done|].
    rewrite bool_decide_eq_true_2; [done|].
    apply (bool_decide_unpack _). by destruct c; vm_compute.
Qed.

(** Bounds on the length of a filled template. *)
Definition lower (t : Tok) : nat :=
  match t with Lit s => length s | Hole c => min_len c end.
Definition upper (t : Tok) : nat :=
  match t with Lit s => length s | Hole c => max_len c end.

Lemma worded_length ts ts' :
  Forall2 worded ts ts' →
  list_sum (map lower ts) <= length (flatten ts')
  ∧ length (flatten ts') <= list_sum (map upper ts).
Proof.
  induction 1 as [|t t' ts ts' Ht H IH]; [done|].
  rewrite flatten_cons, length_app. simpl.
  assert (lower t <= length (tok_text t') <= upper t); [|lia].
  destruct t as [l|c]; simpl in *.
  - subst. simpl. lia.
  - destruct Ht as (w & Hw & ->). simpl.
    apply parts_word in Hw. unfold word_ok in Hw.
    apply andb_true_iff in Hw as [Hw Hmax].
    apply andb_true_iff in Hw as [_ Hmin].
    apply Nat.leb_le in Hmin, Hmax. lia.
Qed.

End TextGenerationFacts.

Module PhraseFacts.
Import PyStr PyStrFacts TextGeneration TextGenerationFacts.

(** ** The highlighted line for the phrase of scenario B *)

Definition phrase : text := str "Better Gaming Experience".

(** A line that keeps the phrase through the cut of [fit_line]: the
    phrase ends by column 80 and a space follows it, or it ends by
    column 51. *)
Definition good (line : text) : Prop :=
  ∃ a b, line = a ++ phrase ++ b
         ∧ 50 <= length line
         ∧ (((∃ rest, b = " "%char :: rest)
             ∧ length a + length phrase <= 80)
            ∨ (length a + length phrase <= 51)).

Lemma apart_the : apart the_ phrase = true.
Proof. by vm_compute. Qed.
Lemma apart_a : apart a_ phrase = true.
Proof. by vm_compute. Qed.

Lemma adj_length w : w ∈ parts adj → length w <= 9.
Proof.
  intros H. apply parts_word in H. unfold word_ok in H.
  apply andb_true_iff in H as [_ H]. by apply Nat.leb_le in H.
Qed.

Lemma suffix_length sfx : sfx ∈ suffixes → 6 <= length sfx.
Proof.
  intros H. assert (forallb (λ s, 6 <=? length s) suffixes = true) as Hall
    by (by vm_compute).
  rewrite forallb_forall in Hall. apply Nat.leb_le, Hall.
  by apply list_elem_of_In.
Qed.

Lemma replace_first_head c p w s :
  ∃ rest, replace_first (c :: p) (c :: w) (c :: s) = c :: rest.
Proof.
  rewrite replace_first_unfold. destruct (startswith _ _); simpl; eauto.
Qed.

(** What [lengthen] keeps of a sentence [a0 ++ phrase ++ b0 ++ "."]. *)
Definition around (a0 : text) (spaced : bool) (s : text) : Prop :=
  ∃ a b, s = a ++ phrase ++ b ++ str "."
         ∧ length a <= Nat.max (length a0) 35
         ∧ (contains the_ a0 = false → contains a_ a0 = false → a = a0)
         ∧ (spaced = true → ∃ rest, b = " "%char :: rest).

Lemma around_replace a0 spaced p w s :
  (p = the_ ∨ p = a_) → w ∈ parts adj →
  (p = a_ → contains the_ s = false) →
  around a0 spaced s → length s < 50 → contains p s = true →
  around a0 spaced (replace_first p (p ++ w ++ str " ") s).
Proof.
  intros Hp Hw Hno (a & b & -> & Ha & Hfix & Hsp) Hlen Hc.
  assert (p ≠ [] ∧ apart p phrase = true ∧ ("."%char ∉ p)
          ∧ (∃ p', p = " "%char :: p')) as (Hne & Hap & Hdot & p' & Hp').
  { destruct Hp as [-> | ->]; (split; [done|]);
      (split; [by vm_compute|]);
      (split; [apply (bool_decide_unpack _); by vm_compute|]);
      by eexists. }
  rewrite replace_first_around by done.
  rewrite !length_app in Hlen.
  change (length phrase) with 24 in Hlen.
  apply adj_length in Hw as Hwl.
  destruct (contains p a) eqn:Hca.
  - exists (replace_first p (p ++ w ++ str " ") a), b.
    pose proof (replace_first_length p (p ++ w ++ str " ") a Hca) as Hl.
    rewrite !length_app in Hl. change (length (str " ")) with 1 in Hl.
    repeat split; try done.
    + lia.
    + intros H1 H2. exfalso.
      rewrite (Hfix H1 H2) in Hca.
      destruct Hp as [-> | ->]; congruence.
  - exists a, (replace_first p (p ++ w ++ str " ") b).
    change (str ".") with ["."%char].
    rewrite replace_first_snoc by done.
    repeat split; try done.
    intros Hs. destruct (Hsp Hs) as [rest ->]. rewrite Hp'.
    apply (replace_first_head " "%char p' (p' ++ w ++ str " ") rest).
Qed.

Lemma flatten_lit s : flatten [Lit s] = s.
Proof. unfold flatten. simpl. apply app_nil_r. Qed.

Lemma filled_template pre post r :
  forallb tok_plain pre = true → forallb tok_plain post = true →
  ∃ pre' post' r',
    fill_categories categories None None
      (flatten (pre ++ [Lit phrase] ++ post ++ [Lit (str ".")])) r
    = (Ok (flatten (pre' ++ [Lit phrase] ++ post' ++ [Lit (str ".")])),
       r')
    ∧ Forall2 worded pre pre' ∧ Forall2 worded post post'.
Proof.
  intros Hpre Hpost.
  destruct (fill_all_tokens None
              (pre ++ [Lit phrase] ++ post ++ [Lit (str ".")]) r)
    as (ts' & r1 & Hfill & Hrel).
  { rewrite !forallb_app, Hpre, Hpost. reflexivity. }
  apply Forall2_app_inv_l in Hrel as (pre' & rest1 & Hpre' & Hrel & ->).
  apply Forall2_app_inv_l in Hrel as (mid & rest2 & Hmid & Hrel & ->).
  apply Forall2_app_inv_l in Hrel as (post' & dot & Hpost' & Hdot & ->).
  apply Forall2_cons_inv_l in Hmid as (t & ? & Ht & Hnil & ->).
  apply Forall2_nil_inv_l in Hnil as ->. simpl in Ht. subst t.
  apply Forall2_cons_inv_l in Hdot as (t & ? & Ht & Hnil & ->).
  apply Forall2_nil_inv_l in Hnil as ->. simpl in Ht. subst t.
  exists pre', post', r1. split; [exact Hfill|]. split; assumption.
Qed.

Lemma spaced_post post post' :
  Forall2 worded (Lit (str " ") :: post) post' →
  ∃ rest, flatten post' = " "%char :: rest.
Proof.
  intros H. apply Forall2_cons_inv_l in H as (t & post1 & Ht & _ & ->).
  simpl in Ht. subst t. rewrite flatten_cons. simpl. eauto.
Qed.

Lemma lengthened a0 b0 spaced r :
  43 <= length a0 + 24 + length b0 + 1 →
  (spaced = true → ∃ rest, b0 = " "%char :: rest) →
  ∃ a b r',
    lengthen lengthen_fuel (a0 ++ phrase ++ b0 ++ str ".") r
    = (Ok (a ++ phrase ++ b), r')
    ∧ 50 <= length (a ++ phrase ++ b)
    ∧ length a <= Nat.max (length a0) 35
    ∧ (contains the_ a0 = false → contains a_ a0 = false → a = a0)
    ∧ (spaced = true → ∃ rest, b = " "%char :: rest).
Proof.
  intros Hlow Hsp0.
  assert (around a0 spaced (a0 ++ phrase ++ b0 ++ str ".")) as Hinit.
  { exists a0, b0. split; [reflexivity|]. split; [lia|]. split; auto. }
  destruct (lengthen_result (around a0 spaced)) with
    (fuel := lengthen_fuel) (s := a0 ++ phrase ++ b0 ++ str ".") (r := r)
    as (s1 & res & r' & Hlen & Haround & Hmono & Hres).
  - intros s w Hs Hshort Hc Hw.
    apply (around_replace a0 spaced the_ w s); auto. intros; discriminate.
  - intros s w Hs Hshort Hno Hc Hw.
    apply (around_replace a0 spaced a_ w s); auto.
  - unfold lengthen_fuel. lia.
  - unfold lengthen_fuel. lia.
  - exact Hinit.
  - rewrite !length_app in Hmono.
    change (length phrase) with 24 in Hmono.
    change (length (str ".")) with 1 in Hmono.
    destruct Haround as (a & b & -> & Ha & Hfix & Hsp).
    destruct Hres as [[Hlong ->] | (Hshort & _ & _ & [[_ Hsfx] | [He _]])].
    + exists a, (b ++ str "."), r'. split; [exact Hlen|].
      split; [exact Hlong|]. split; [exact Ha|]. split; [exact Hfix|].
      intros Hs. destruct (Hsp Hs) as [rest ->]. simpl. eauto.
    + destruct Hsfx as (sfx & Hsfx & ->).
      apply suffix_length in Hsfx.
      exists a, (b ++ str " " ++ sfx ++ ["."%char]), r'.
      split.
      { rewrite Hlen. f_equal. f_equal.
        rewrite !app_assoc. change (str ".") with ["."%char].
        rewrite drop_last_snoc. by rewrite <- !app_assoc. }
      split.
      { rewrite !length_app in *.
        change (length phrase) with 24 in *.
        change (length (str ".")) with 1 in *.
        change (length (str " ")) with 1 in *.
        change (length ["."%char]) with 1 in *. lia. }
      split; [exact Ha|]. split; [exact Hfix|].
      intros Hs. destruct (Hsp Hs) as [rest ->]. simpl. eauto.
    + exfalso. rewrite !app_assoc in He.
      change (str ".") with ["."%char] in He.
      rewrite endswith_snoc in He. discriminate.
Qed.

(** A template [pre ++ phrase ++ post ++ "."] gives a good line. *)
Lemma template_line pre post r :
  forallb tok_plain pre = true → forallb tok_plain post = true →
  43 <= list_sum (map lower pre) + 24 + list_sum (map lower post) + 1 →
  ((∃ rest, post = Lit (str " ") :: rest)
   ∧ list_sum (map upper pre) <= 56)
  ∨ (∃ a0, pre = [Lit a0] ∧ contains the_ a0 = false
           ∧ contains a_ a0 = false ∧ length a0 + 24 <= 51) →
  ∃ line r',
    fill_sentence_structure
      (flatten (pre ++ [Lit phrase] ++ post ++ [Lit (str ".")])) None None r
    = (Ok line, r')
    ∧ good line.
Proof.
  intros Hpre Hpost Hlow Hmode. unfold fill_sentence_structure.
  destruct (filled_template pre post r Hpre Hpost)
    as (pre' & post' & r1 & Hfill & Hpre' & Hpost').
  unfold bind at 1. rewrite Hfill.
  rewrite !flatten_app, !flatten_lit.
  pose proof (worded_length _ _ Hpre') as [Hla Hua].
  pose proof (worded_length _ _ Hpost') as [Hlb Hub].
  destruct Hmode as [[[rest ->] Hup] | (x & -> & H1 & H2 & Hx)].
  - destruct (lengthened (flatten pre') (flatten post') true r1)
      as (a & b & r' & Hlen & Hlong & Ha & _ & Hsp).
    + lia.
    + intros _. by eapply spaced_post.
    + exists (a ++ phrase ++ b), r'. split; [exact Hlen|].
      exists a, b. split; [reflexivity|]. split; [exact Hlong|].
      left. split; [by apply Hsp|].
      change (length phrase) with 24. lia.
  - destruct (lengthened (flatten pre') (flatten post') false r1)
      as (a & b & r' & Hlen & Hlong & Ha & Hfix & _).
    + lia.
    + intros; discriminate.
    + exists (a ++ phrase ++ b), r'. split; [exact Hlen|].
      exists a, b. split; [reflexivity|]. split; [exact Hlong|].
      right. change (length phrase) with 24.
      apply Forall2_cons_inv_l in Hpre' as (t & ? & Ht & Hnil & Hp).
      apply Forall2_nil_inv_l in Hnil as ->. simpl in Ht. subst t.
      assert (flatten pre' = x) as Hax.
      { rewrite Hp. unfold flatten. simpl. by rewrite app_nil_r. }
      rewrite Hfix by (by rewrite Hax). rewrite Hax. lia.
Qed.

(** The five templates of the highlighted line, cut at the phrase and
    at the final full stop. *)
Definition templates : list (list Tok * list Tok) :=
  [([Lit (str "The "); Hole adj; Lit (str " "); Hole noun; Lit (str " ")],
    [Lit (str " "); Hole prep; Lit (str " "); Hole det; Lit (str " ");
     Hole adj; Lit (str " "); Hole noun]);
   ([Hole det; Lit (str " "); Hole adj; Lit (str " "); Hole noun;
     Lit (str " "); Hole adv; Lit (str " ")],
    [Lit (str " "); Hole prep; Lit (str " "); Hole det; Lit (str " ");
     Hole noun]);
   ([Lit (str "When ")],
    [Lit (str ", "); Hole det; Lit (str " "); Hole adj; Lit (str " ");
     Hole noun; Lit (str " "); Hole verb; Lit (str " "); Hole adv;
     Lit (str " "); Hole prep; Lit (str " "); Hole det; Lit (str " ");
     Hole noun]);
   ([Hole pronoun; Lit (str " "); Hole verb; Lit (str " that ")],
    [Lit (str " "); Hole verb; Lit (str " "); Hole adv; Lit (str " ");
     Hole prep; Lit (str " "); Hole det; Lit (str " "); Hole adj;
     Lit (str " "); Hole noun]);
   ([Lit (str "Because of ")],
    [Lit (str ", "); Hole det; Lit (str " "); Hole adj; Lit (str " ");
     Hole noun; Lit (str " "); Hole verb; Lit (str " "); Hole adv;
     Lit (str " "); Hole prep; Lit (str " "); Hole det; Lit (str " ");
     Hole noun])].

Definition template_text (t : list Tok * list Tok) : text :=
  flatten (t.1 ++ [Lit phrase] ++ t.2 ++ [Lit (str ".")]).

Lemma templates_text :
  highlight_structures phrase = map template_text templates.
Proof. by vm_compute. Qed.

Definition spaced_after (post : list Tok) : bool :=
  match post with
  | Lit s :: _ => bool_decide (s = str " ")
  | _ => false
  end.

Definition fixed_before (pre : list Tok) : bool :=
  match pre with
  | [Lit a0] =>
      negb (contains the_ a0) && negb (contains a_ a0)
      && (length a0 + 24 <=? 51)
  | _ => false
  end.

Definition template_ok (t : list Tok * list Tok) : bool :=
  forallb tok_plain t.1 && forallb tok_plain t.2
  && (43 <=? list_sum (map lower t.1) + 24 + list_sum (map lower t.2) + 1)
  && ((spaced_after t.2 && (list_sum (map upper t.1) <=? 56))
      || fixed_before t.1).

Lemma templates_ok : forallb template_ok templates = true.
Proof. by vm_compute. Qed.

Lemma template_good t r :
  template_ok t = true →
  ∃ line r',
    fill_sentence_structure (template_text t) None None r = (Ok line, r')
    ∧ good line.
Proof.
  destruct t as [pre post]. unfold template_ok, template_text.
  cbn [fst snd]. intros H. apply andb_true_iff in H as [H Hmode].
  apply andb_true_iff in H as [H Hlow].
  apply andb_true_iff in H as [Hpre Hpost].
  apply Nat.leb_le in Hlow.
  apply template_line; try done.
  apply orb_true_iff in Hmode as [Hs|Hf].
  - left. apply andb_true_iff in Hs as [Hs Hup].
    apply Nat.leb_le in Hup. split; [|done].
    unfold spaced_after in Hs. destruct post as [|[s|] post]; try done.
    apply bool_decide_eq_true in Hs as ->. eauto.
  - right. unfold fixed_before in Hf.
    destruct pre as [|[a0|] [|]]; try done.
    apply andb_true_iff in Hf as [Hf Hlen].
    apply andb_true_iff in Hf as [Hthe Ha].
    apply negb_true_iff in Hthe, Ha. apply Nat.leb_le in Hlen.
    exists a0. done.
Qed.

Lemma highlighted_line_good r :
  ∃ line r', highlighted_line phrase r = (Ok line, r') ∧ good line.
Proof.
  unfold highlighted_line.
  replace (is_phrase phrase) with true by (by vm_compute).
  destruct (choice_in (highlight_structures phrase) r)
    as (st & Hch & Hin); [done|].
  unfold bind at 1. rewrite Hch.
  rewrite templates_text in Hin.
  apply list_elem_of_fmap in Hin as (t & -> & Ht).
  pose proof templates_ok as Hall. rewrite forallb_forall in Hall.
  specialize (Hall t). rewrite <- list_elem_of_In in Hall.
  destruct (template_good t (snd (Random.next r)) (Hall Ht))
    as (line & r1 & Hline & Hgood).
  unfold bind at 1. rewrite Hline.
  rewrite retry_short_long.
  - eauto.
  - destruct Hgood as (a & b & _ & Hlong & _). exact Hlong.
Qed.

(** ** Cutting keeps the phrase *)

Lemma find_cut_point_le line n : find_cut_point line n <= n.
Proof.
  induction n as [|n IH]; [done|]. cbn [find_cut_point].
  destruct (bool_decide _); lia.
Qed.

Lemma find_cut_point_ge line n k :
  1 <= k <= n → line !! k = Some " "%char → k <= find_cut_point line n.
Proof.
  intros Hk Hline. induction n as [|n IH]; [lia|]. cbn [find_cut_point].
  destruct (bool_decide (line !! S n = Some " "%char)) eqn:E; [lia|].
  apply bool_decide_eq_false in E.
  assert (k ≠ S n) by (intros ->; done).
  apply IH. lia.
Qed.

Lemma fit_line_keeps line r :
  good line →
  ∃ line' r', fit_line line r = (Ok line', r')
              ∧ contains phrase line' = true.
Proof.
  intros (a & b & -> & Hlong & Hmode). unfold fit_line.
  assert (Hin : contains phrase (a ++ phrase ++ b) = true).
  { apply contains_spec. eauto. }
  set (line := a ++ phrase ++ b) in *.
  destruct (MAX_LINE_LENGTH <? length line) eqn:Emax.
  - apply Nat.ltb_lt in Emax.
    destruct (MIN_LINE_LENGTH <? find_cut_point line MAX_LINE_LENGTH)
      eqn:Ecut.
    + apply Nat.ltb_lt in Ecut.
      pose proof (find_cut_point_le line MAX_LINE_LENGTH) as Hle.
      set (cut := find_cut_point line MAX_LINE_LENGTH) in *.
      assert (Hend : length a + length phrase <= cut).
      { destruct Hmode as [[[rest ->] Hcol] | Hcol].
        - apply find_cut_point_ge.
          + change (length phrase) with 24 in *.
            unfold MAX_LINE_LENGTH. lia.
          + unfold line. rewrite app_assoc.
            rewrite lookup_app_r by (rewrite length_app; lia).
            rewrite length_app, Nat.sub_diag. done.
        - unfold MIN_LINE_LENGTH in Ecut. lia. }
      assert (Hlen : length (take cut line ++ str ".") = cut + 1).
      { rewrite length_app, length_take.
        unfold MAX_LINE_LENGTH in *. simpl. lia. }
      destruct (length (take cut line ++ str ".") <? MIN_LINE_LENGTH)
        eqn:E.
      { apply Nat.ltb_lt in E. unfold MIN_LINE_LENGTH in *. lia. }
      unfold ret. eexists _, _. split; [done|].
      apply contains_app_l. unfold line.
      rewrite app_assoc, take_app_ge by (rewrite length_app; lia).
      rewrite <- app_assoc. apply contains_spec. eauto.
    + destruct (length line <? MIN_LINE_LENGTH) eqn:E.
      { apply Nat.ltb_lt in E. unfold MIN_LINE_LENGTH in *. lia. }
      unfold ret. eauto.
  - destruct (length line <? MIN_LINE_LENGTH) eqn:E.
    { apply Nat.ltb_lt in E. unfold MIN_LINE_LENGTH in *. lia. }
    unfold ret. eauto.
Qed.

(** A snippet around the phrase of scenario B: the generator always gives
    one, with the phrase in the line it points at. *)
Lemma phrase_snippet min_lines max_lines r :
  (Z.max 1 min_lines <= Z.max min_lines max_lines)%Z →
  ∃ ls idx r',
    generate_random_text_snippet phrase min_lines max_lines r
    = (Ok (Some ls, idx), r')
    ∧ (Z.max 1 min_lines <= Z.of_nat (length ls)
       <= Z.max min_lines max_lines)%Z
    ∧ (0 <= idx < Z.of_nat (length ls))%Z
    ∧ ∃ line, py_index ls idx = Ok line ∧ contains phrase line = true.
Proof.
  intros Hrange.
  destruct (generate_result good (λ l, contains phrase l = true) phrase
              min_lines max_lines r)
    as (ls & idx & r' & H & Hn & Hi & line & Hl & Hk).
  - done.
  - apply highlighted_line_good.
  - apply fit_line_keeps.
  - exists ls, idx, r'. split; [done|]. split; [lia|]. split; [lia|].
    exists line. split; [|done]. apply py_index_inside; [lia|done].
Qed.

End PhraseFacts.

(** * Validation of the answers of the text service *)
Module AiFacts.
Import PyStr AiProviders.

Lemma first_index_found {A} (p : A → bool) (l : list A) :
  first_index p l ≠ (-1)%Z →
  (0 <= first_index p l < Z.of_nat (length l))%Z
  ∧ ∃ x, l !! Z.to_nat (first_index p l) = Some x
         ∧ p x = true
         ∧ ∀ j y, j < Z.to_nat (first_index p l) →
                  l !! j = Some y → p y = false.
Proof.
  induction l as [|a l IH]; [done|]. cbn [first_index].
  destruct (p a) eqn:Ea.
  - intros _. split; [simpl; lia|]. exists a. repeat split; try done.
    intros j y Hj. simpl in Hj. lia.
  - destruct (first_index p l =? -1)%Z eqn:E; [done|].
    apply Z.eqb_neq in E. intros _.
    destruct (IH E) as (Hr & x & Hx & Hpx & Hbefore).
    split; [simpl length; lia|]. exists x.
    replace (Z.to_nat (first_index p l + 1)) with
      (S (Z.to_nat (first_index p l))) by lia.
    repeat split; try done.
    intros j y Hj Hy. destruct j as [|j].
    + injection Hy as <-. done.
    + simpl in Hy. apply (Hbefore j y); [lia|done].
Qed.

Definition in_band (line : text) : Prop := 40 <= length line <= 100.

Lemma acceptable_band line : acceptable line = true → in_band line.
Proof.
  unfold acceptable, in_band. intros H.
  repeat (apply andb_true_iff in H as [H ?]).
  apply Nat.leb_le in H. apply Nat.leb_le in H7. lia.
Qed.

(** What a validated answer looks like. *)
Definition validated (highlighted_text : text) (min_lines : Z)
    (lines : list text) (idx : Z) : Prop :=
  (0 <= idx < Z.of_nat (length lines))%Z
  ∧ (min_lines <= Z.of_nat (length lines))%Z
  ∧ Forall in_band lines
  ∧ ∃ line, lines !! Z.to_nat idx = Some line
            ∧ contains highlighted_text line = true
            ∧ ∀ j other, j < Z.to_nat idx → lines !! j = Some other →
                         contains highlighted_text other = false.

Lemma validate_some lines highlight_index highlighted_text min_lines
    valid idx :
  validate lines highlight_index highlighted_text min_lines
  = (Some valid, idx) →
  validated highlighted_text min_lines valid idx.
Proof.
  unfold validate. destruct lines as [[|l ls]|]; try done.
  destruct (highlight_index =? -1)%Z; [done|].
  destruct (filter acceptable (l :: ls)) as [|v vs] eqn:Ef; [done|].
  destruct (min_lines <=? _)%Z eqn:Emin; [|done].
  apply Z.leb_le in Emin.
  destruct (first_index _ _ =? -1)%Z eqn:E; [done|].
  apply Z.eqb_neq in E. intros [= <- <-].
  destruct (first_index_found _ _ E) as (Hr & x & Hx & Hpx & Hbefore).
  split; [done|]. split; [done|]. split; [|eauto].
  rewrite <- Ef. apply Forall_forall. intros y Hy.
  apply list_elem_of_filter in Hy as [Hy _].
  apply acceptable_band. by apply Is_true_true.
Qed.

Lemma generate_ai_text_snippet_some client provider model highlighted_text
    min_lines max_lines w valid idx w' :
  generate_ai_text_snippet client provider model highlighted_text min_lines
    max_lines w = (Ok (Some valid, idx), w') →
  validated highlighted_text min_lines valid idx.
Proof.
  unfold generate_ai_text_snippet. destruct client as [c|]; [|done].
  unfold try_except.
  match goal with
  | |- context [bind ?m ?k w] => destruct (bind m k w) as [[x|e|] w1] eqn:E
  end; try done.
  intros [= -> ->]. bind_inv E. destruct a as [lines hi].
  apply ret_ok in E as [E _]. by apply validate_some in E.
Qed.

Lemma duplicates_fuel original highlight_index passes :
  duplicates original highlight_index passes ≠ OutOfFuel.
Proof.
  induction passes as [|i passes IH]; [done|]. cbn [duplicates].
  assert (duplicate original highlight_index i ≠ OutOfFuel) as Hd.
  { unfold duplicate. repeat case_match; congruence. }
  destruct (duplicate _ _ i); [|done|done].
  destruct (duplicates _ _ passes); congruence.
Qed.

Lemma process_ai_response_fuel content highlighted_text :
  process_ai_response content highlighted_text ≠ OutOfFuel.
Proof.
  unfold process_ai_response. cbv zeta.
  destruct (_ <? _); [|done].
  match goal with
  | |- context [duplicates ?a ?b ?c] =>
      pose proof (duplicates_fuel a b c) as Hd;
      destruct (duplicates a b c)
  end; congruence.
Qed.

(** [generate_ai_text_snippet] catches whatever is raised inside it. *)
Lemma generate_ai_text_snippet_returns client provider model
    highlighted_text min_lines max_lines w :
  ∃ result w',
    generate_ai_text_snippet client provider model highlighted_text
      min_lines max_lines w = (Ok result, w').
Proof.
  unfold generate_ai_text_snippet. destruct client as [c|].
  - unfold try_except.
    match goal with
    | |- context [bind ?m ?k w] => destruct (bind m k w) as [[x|e|] w1] eqn:E
    end; unfold ret; eauto.
    exfalso. revert E.
    cbv [bind generate_provider_text ask_service of_result ret].
    destruct (known_provider provider); [|intros [=]].
    destruct (service w 0); [|intros [=]].
    pose proof (process_ai_response_fuel l highlighted_text) as Hp.
    destruct (process_ai_response l highlighted_text) as [[? ?]| |];
      [intros [=]|intros [=]|done].
  - unfold ret. eauto.
Qed.

End AiFacts.

(** * Rendering one frame *)
Module FrameFacts.
Import PyStr Textures ImageProcessing.

Lemma pure_bind_ok {A B} (x : PyResult A) (k : A → PyResult B) b :
  pure_bind x k = Ok b → ∃ a, x = Ok a ∧ k a = Ok b.
Proof. destruct x; simpl; [eauto|done|done]. Qed.

(** Where [calculations] puts the phrase: across, in the middle of the
    frame; down, on the line of the text block that holds it. *)
Lemma calculations_position host a font bold_font lay :
  calculations host a font bold_font = Ok lay →
  highlight_target_x lay
  = ((inject_Z (width a) - highlight_width_bold lay) / 2)%Q
  ∧ block_start_y lay
    = Qmax 10
        ((inject_Z (height a)
          - inject_Z (line_height lay * Z.of_nat (length (text_lines a))))
         / 2)
  ∧ highlight_target_y lay
    = (block_start_y lay
       + inject_Z (highlight_line_index a * line_height lay))%Q.
Proof.
  unfold calculations. intros H.
  apply pure_bind_ok in H as (lh & _ & H).
  apply pure_bind_ok in H as (hw & _ & H).
  apply pure_bind_ok in H as ([[[x0 top] x1] bottom] & _ & H).
  cbv zeta in H.
  apply pure_bind_ok in H as (full & _ & H).
  destruct (find _ _); apply pure_bind_ok in H as (pw & _ & [= <-]);
    by cbn.
Qed.

Lemma measure_ok host a font bold_font lay :
  measure host a font bold_font = Ok lay →
  calculations host a font bold_font = Ok lay.
Proof.
  unfold measure. destruct (calculations _ _ _ _) as [l|e|]; try done.
  by destruct e.
Qed.

(** What [final_overlay] draws last. *)
Lemma final_overlay_ok host a lay bold_font img_blurred img :
  final_overlay host a lay bold_font img_blurred = Ok img →
  ∃ under,
    img = Text under (highlight_target_x lay) (highlight_target_y lay)
            (highlighted_text a) bold_font (Colour (text_color a)).
Proof.
  unfold final_overlay. destruct (rectangle _ _ _ _ _ _ _); try done.
  destruct (draws _ _ _); [|done].
  intros [= <-]. eauto.
Qed.

(** The last drawing call of a frame and the layout it comes from. *)
Lemma create_text_image_frame_overlay host a w img w' :
  create_text_image_frame host a w = (Ok img, w') →
  ∃ font bold_font lay under,
    load_fonts host a = Ok (font, bold_font)
    ∧ calculations host a font bold_font = Ok lay
    ∧ img = Sharpness
              (Contrast
                 (Text under (highlight_target_x lay)
                    (highlight_target_y lay) (highlighted_text a)
                    bold_font (Colour (text_color a))) 1.1) 1.2.
Proof.
  unfold create_text_image_frame. intros H.
  bind_inv H. bind_inv H. bind_inv H. destruct a2 as [font bold_font].
  bind_inv H. bind_inv H. destruct a3 as [img_base img_sharp].
  bind_inv H. bind_inv H. bind_inv H. bind_inv H.
  apply ret_ok in H as [<- _].
  unfold of_result in Hm1, Hm2, Hm7.
  injection Hm1 as Hm1 _. injection Hm2 as Hm2 _. injection Hm7 as Hm7 _.
  apply measure_ok in Hm2. apply final_overlay_ok in Hm7 as [under ->].
  eauto 10.
Qed.

(** The position of the phrase in a finished frame. *)
Definition overlay_position (img : Img) : option (Q * Q) :=
  match img with
  | Sharpness (Contrast (Text _ x y _ _ _) _) _ => Some (x, y)
  | _ => None
  end.

(** The texture selector names a texture, and it loads. *)
Definition texture_loads (host : Host) (a : FrameArgs) : Prop :=
  nonempty (background_texture a) = true
  ∧ background_texture a ≠ Some (str "none")
  ∧ nonempty (media_dir a) = true
  ∧ is_Some (load_texture host (width a) (height a)
               (default [] (background_texture a))
               (default [] (media_dir a))).

Lemma create_paper_texture_loaded host a color noise_intensity grain_size :
  texture_loads host a →
  ∃ img, ∀ w,
    create_paper_texture host (width a) (height a) color noise_intensity
      grain_size (background_texture a) (media_dir a) w
    = (Ok (Some img), w).
Proof.
  intros (Ht & Hn & Hm & [img Hl]). exists img. intros w.
  unfold create_paper_texture.
  rewrite Ht, Hm, bool_decide_eq_true_2 by done. cbn [andb].
  by rewrite Hl.
Qed.

(** With a texture that loads, a frame asks nothing of the random
    generators: its result is the same in every state of the world, and
    the world is left as it was. *)
Lemma create_text_image_frame_loaded host a :
  texture_loads host a →
  ∃ result, ∀ w, create_text_image_frame host a w = (result, w).
Proof.
  intros Hl.
  destruct (create_paper_texture_loaded host a (bg_color a) 0.08 2 Hl)
    as [img Hp].
  exists (fst (create_text_image_frame host a
                 {| py_random := λ _, 0; np_random := λ _, 0%Q;
                    service := λ _, None |})).
  intros w. unfold create_text_image_frame, bind. rewrite !Hp.
  unfold ret, of_result.
  destruct (load_fonts host a) as [[font bold_font]|e|]; [|done|done].
  destruct (measure host a font bold_font) as [lay|e|]; [|done|done].
  destruct (base_drawing host a lay font img) as [[b s]|e|]; [|done|done].
  destruct (apply_vignette host b) as [vb|e|]; [|done|done].
  destruct (apply_vignette host s) as [vs|e|]; [|done|done].
  destruct (apply_blur a vb vs) as [blurred|e|]; [|done|done].
  by destruct (final_overlay _ _ _ _ _).
Qed.

(** The procedural paper starts from numpy's next variates. *)
Lemma paper_noise width height color noise_intensity grain_size w img w' :
  paper width height color noise_intensity grain_size w = (Ok img, w') →
  ∃ grain shadow,
    img = Putalpha
            (Composite
               (Blend (Image_new "RGB" width height (Colour color))
                  (Image_fromarray height width
                     (map (λ k, to_uint8
                                  (0.5 + noise_intensity * np_random w k))
                        (seq 0 (Z.to_nat height * Z.to_nat width * 3))))
                  0.1)
               (Image_new "RGB" width height (Colour color)) grain)
            shadow.
Proof.
  unfold paper. intros H. bind_inv H.
  unfold of_result, image_new in Hm.
  destruct (_ || _); [done|]. injection Hm as <- <-.
  bind_inv H. unfold np_normal in Hm. injection Hm as <- <-.
  bind_inv H. bind_inv H. bind_inv H. bind_inv H.
  apply ret_ok in H as [<- _].
  rewrite map_map. eauto.
Qed.

End FrameFacts.

(** * The size of the pictures *)
Module SizeFacts.
Import Textures ImageProcessing.

Lemma image_new_size host mode w h colour img :
  image_new mode w h colour = Ok img → size host img = (w, h).
Proof. unfold image_new. destruct (_ || _); [done|]. by intros [= <-]. Qed.

Lemma rectangle_size host img x0 y0 x1 y1 fill outline img' :
  rectangle img x0 y0 x1 y1 fill outline = Ok img' →
  size host img' = size host img.
Proof. unfold rectangle. destruct (_ || _); [done|]. by intros [= <-]. Qed.

Lemma ellipse_size host img x0 y0 x1 y1 fill img' :
  ellipse img x0 y0 x1 y1 fill = Ok img' → size host img' = size host img.
Proof. unfold ellipse. destruct (_ || _); [done|]. by intros [= <-]. Qed.

Lemma crop_size host img left top right bottom img' :
  crop img left top right bottom = Ok img' →
  size host img' = (right - left, bottom - top)%Z.
Proof. unfold crop. destruct (_ || _); [done|]. by intros [= <-]. Qed.

Lemma resize_size host img w h img' :
  resize img w h = Ok img' → size host img' = (w, h).
Proof. unfold resize. destruct (_ || _); [done|]. by intros [= <-]. Qed.

Lemma load_texture_size host width height texture_name media_dir img :
  load_texture host width height texture_name media_dir = Some img →
  size host img = (width, height).
Proof.
  unfold load_texture. cbv zeta.
  destruct (negb (path_exists host _)); [done|].
  destruct (image_open host _) as [[orig_width orig_height]|e|]; try done.
  destruct ((orig_width =? 0)%Z || (orig_height =? 0)%Z); [done|].
  destruct (int_of_float _) as [new_width|]; [|done].
  destruct (int_of_float _) as [new_height|]; [|done].
  destruct (resize _ new_width new_height) as [t1|e|]; cbn [pure_bind];
    try done.
  match goal with
  | |- context [pure_bind ?x _] => destruct x as [t2|e|]
  end; cbn [pure_bind]; try done.
  match goal with
  | |- context [pure_bind ?x _] => destruct x as [t3|e|] eqn:E3
  end; cbn [pure_bind]; try done.
  assert (size host t3 = (width, height)) as Hs.
  { destruct (bool_decide_reflect (size host t2 = (width, height))).
    - by injection E3 as <-.
    - by apply (resize_size host) in E3. }
  cbn [size]. rewrite Hs.
  destruct (image_new _ _ _ _) as [alpha|e|]; cbn [pure_bind]; try done.
  intros [= <-]. by cbn [size].
Qed.

Lemma for_each_pure_size {B} host (body : Img → B → PyResult Img) xs :
  (∀ img x img', body img x = Ok img' → size host img' = size host img) →
  ∀ img img',
    for_each_pure xs body img = Ok img' → size host img' = size host img.
Proof.
  intros Hbody. induction xs as [|x xs IH]; intros img img';
    cbn [for_each_pure].
  - by intros [= <-].
  - destruct (body img x) as [img1|e|] eqn:E; cbn [pure_bind]; try done.
    intros H. apply IH in H. apply Hbody in E. congruence.
Qed.

Lemma paper_size host width height color noise_intensity grain_size w img
    w' :
  paper width height color noise_intensity grain_size w = (Ok img, w') →
  size host img = (width, height).
Proof.
  unfold paper. intros H. bind_inv H.
  unfold of_result in Hm. injection Hm as Hm _.
  apply (image_new_size host) in Hm.
  bind_inv H. bind_inv H. bind_inv H. bind_inv H. bind_inv H.
  by apply ret_ok in H as [<- _].
Qed.

Lemma draw_text_with_shadow_size host a img x y s font color img' :
  draw_text_with_shadow host a img x y s font color = Ok img' →
  size host img' = size host img.
Proof.
  unfold draw_text_with_shadow. destruct (draws host font s); [|done].
  by intros [= <-].
Qed.

Lemma draw_lines_size host a lay font lines :
  ∀ i y img_base img_sharp img_base' img_sharp',
    draw_lines host a lay font i lines y img_base img_sharp
    = Ok (img_base', img_sharp') →
    size host img_base' = size host img_base
    ∧ size host img_sharp' = size host img_sharp.
Proof.
  induction lines as [|line rest IH]; intros i y b s b' s'; cbn [draw_lines].
  - by intros [= <- <-].
  - intros H.
    apply FrameFacts.pure_bind_ok in H as (x & _ & H).
    apply FrameFacts.pure_bind_ok in H as (b1 & Hb & H).
    apply FrameFacts.pure_bind_ok in H as (s1 & Hs & H).
    apply IH in H as [-> ->].
    apply draw_text_with_shadow_size in Hb, Hs. by rewrite Hb, Hs.
Qed.

Lemma apply_vignette_size host img img' :
  apply_vignette host img = Ok img' → size host img' = size host img.
Proof.
  unfold apply_vignette. destruct (size host img) as [w h] eqn:E.
  intros H.
  apply FrameFacts.pure_bind_ok in H as (mask & _ & H).
  apply FrameFacts.pure_bind_ok in H as (mask' & _ & [= <-]).
  by cbn [size].
Qed.

Lemma apply_blur_size host a img_base img_sharp img :
  size host img_base = (width a, height a) →
  size host img_sharp = (width a, height a) →
  apply_blur a img_base img_sharp = Ok img →
  size host img = (width a, height a).
Proof.
  intros Hb Hs. unfold apply_blur. cbv zeta.
  destruct (bool_decide (blur_type a = "gaussian") && _).
  - destruct (image_new _ _ _ _) as [padded|e|]; cbn [pure_bind].
    + destruct (crop _ _ _ _ _) as [cropped|e|] eqn:Ec; try done.
      * intros [= <-]. apply (crop_size host) in Ec. rewrite Ec.
        f_equal; lia.
      * by intros [= <-].
    + by intros [= <-].
    + done.
  - destruct (bool_decide (blur_type a = "radial") && _).
    + intros H. apply FrameFacts.pure_bind_ok in H as (mask & _ & [= <-]).
      done.
    + by intros [= <-].
Qed.

Lemma create_paper_texture_size host width height color noise_intensity
    grain_size texture_name media_dir w img w' :
  create_paper_texture host width height color noise_intensity
    grain_size texture_name media_dir w = (Ok (Some img), w') →
  size host img = (width, height).
Proof.
  unfold create_paper_texture.
  destruct (_ && _).
  - unfold ret. intros [= H _]. by apply load_texture_size in H.
  - intros H. bind_inv H. apply ret_ok in H as [[= <-] _].
    by apply (paper_size host) in Hm.
Qed.

Lemma final_overlay_size host a lay bold_font img_blurred img :
  final_overlay host a lay bold_font img_blurred = Ok img →
  size host img = size host img_blurred.
Proof.
  unfold final_overlay, rectangle. cbv zeta.
  destruct (_ || _); [done|]. destruct (draws _ _ _); [|done].
  by intros [= <-].
Qed.

Lemma create_text_image_frame_size host a w img w' :
  create_text_image_frame host a w = (Ok img, w') →
  size host img = (width a, height a).
Proof.
  unfold create_text_image_frame. intros H.
  bind_inv H. bind_inv H. bind_inv H. destruct a2 as [font bold_font].
  bind_inv H. bind_inv H. destruct a3 as [img_base img_sharp].
  bind_inv H. bind_inv H. bind_inv H. bind_inv H.
  apply ret_ok in H as [<- _].
  assert (size host a1 = (width a, height a)) as Hbase.
  { destruct a0 as [loaded|].
    - apply ret_ok in Hm0 as [-> _].
      by apply create_paper_texture_size in Hm.
    - by apply (paper_size host) in Hm0. }
  unfold of_result in Hm3, Hm4, Hm5, Hm6, Hm7.
  injection Hm3 as Hm3 _. injection Hm4 as Hm4 _. injection Hm5 as Hm5 _.
  injection Hm6 as Hm6 _. injection Hm7 as Hm7 _.
  unfold base_drawing in Hm3.
  destruct (draw_lines _ _ _ _ _ _ _ _ _) as [[b s]|e|] eqn:Ed; try done.
  injection Hm3 as <- <-.
  apply draw_lines_size in Ed as [Hb Hs].
  apply apply_vignette_size in Hm4, Hm5.
  apply final_overlay_size in Hm7. cbn [size]. rewrite Hm7.
  apply (apply_blur_size host a a3 a4); [congruence|congruence|done].
Qed.

End SizeFacts.

(** * When the raster library accepts the drawing calls *)
Module RenderFacts.
Import PyStr Textures ImageProcessing.

Lemma Qltb_inject_Z a b : Qltb (inject_Z a) (inject_Z b) = (a <? b)%Z.
Proof.
  unfold Qltb, Qle_bool. simpl. rewrite !Z.mul_1_r.
  destruct (Z.leb_spec b a), (Z.ltb_spec a b); simpl; try done; lia.
Qed.

Lemma Qltb_false a b : (a <= b)%Q → Qltb b a = false.
Proof.
  intros H. unfold Qltb. apply negb_false_iff. by apply Qle_bool_iff.
Qed.

Lemma range_elem n i : i ∈ range n ↔ (0 <= i < n)%Z.
Proof.
  unfold range. rewrite list_elem_of_fmap. split.
  - intros (k & -> & Hk). apply elem_of_seq in Hk. lia.
  - intros Hi. exists (Z.to_nat i). split; [lia|].
    apply elem_of_seq. lia.
Qed.

Lemma image_new_ok mode w h colour :
  (0 <= w)%Z → (0 <= h)%Z →
  image_new mode w h colour = Ok (Image_new mode w h colour).
Proof.
  intros Hw Hh. unfold image_new.
  destruct (Z.ltb_spec w 0), (Z.ltb_spec h 0); try lia. done.
Qed.

Lemma image_new_raises mode w h colour e :
  image_new mode w h colour = Raised e → e = ValueError.
Proof. unfold image_new. destruct (_ || _); [|done]. by intros [= <-]. Qed.

Section Rings.

(** The loops of [create_paper_texture] and [apply_vignette] that draw
    the rectangles [[i, i, width - i, height - i]]. *)
Variable width height : Z.
Variable ring : Img → Z → PyResult Img.
Variable outline : Z → option Paint.
Hypothesis ring_draws :
  ∀ mask i,
    ring mask i
    = rectangle mask (inject_Z i) (inject_Z i) (inject_Z (width - i))
        (inject_Z (height - i)) None (outline i).

Lemma ring_cases mask i :
  ring mask i
  = if (width - i <? i)%Z || (height - i <? i)%Z then Raised ValueError
    else Ok (Rectangle mask (inject_Z i) (inject_Z i)
               (inject_Z (width - i)) (inject_Z (height - i)) None
               (outline i)).
Proof. rewrite ring_draws. unfold rectangle. by rewrite !Qltb_inject_Z. Qed.

Lemma rings_ok xs :
  (∀ i, i ∈ xs → (2 * i <= width)%Z ∧ (2 * i <= height)%Z) →
  ∀ mask, ∃ mask', for_each_pure xs ring mask = Ok mask'.
Proof.
  induction xs as [|x xs IH]; intros Hall mask; cbn [for_each_pure].
  - eauto.
  - rewrite ring_cases.
    destruct (Hall x) as [Hw Hh]; [by left|].
    destruct (Z.ltb_spec (width - x) x), (Z.ltb_spec (height - x) x);
      try lia.
    cbn [orb pure_bind]. apply IH. intros i Hi. apply Hall. by right.
Qed.

Lemma rings_fail xs i :
  i ∈ xs → (width < 2 * i)%Z ∨ (height < 2 * i)%Z →
  ∀ mask, for_each_pure xs ring mask = Raised ValueError.
Proof.
  intros Hi Hbad. induction xs as [|x xs IH]; intros mask;
    [by apply elem_of_nil in Hi|].
  cbn [for_each_pure]. rewrite ring_cases.
  destruct ((width - x <? x)%Z || (height - x <? x)%Z) eqn:E; [done|].
  cbn [pure_bind]. apply IH.
  apply elem_of_cons in Hi as [->|Hi]; [|done].
  apply orb_false_iff in E as [E1 E2].
  apply Z.ltb_ge in E1, E2. lia.
Qed.

Lemma rings_raise xs mask e :
  for_each_pure xs ring mask = Raised e → e = ValueError.
Proof.
  revert mask. induction xs as [|x xs IH]; intros mask;
    cbn [for_each_pure]; [done|].
  rewrite ring_cases. destruct (_ || _); cbn [pure_bind].
  - by intros [= <-].
  - apply IH.
Qed.

End Rings.

Lemma vignette_ring_draws width height mask i :
  vignette_ring width height mask i
  = rectangle mask (inject_Z i) (inject_Z i) (inject_Z (width - i))
      (inject_Z (height - i)) None
      (Some (Level (py_int (255 * (1 - (inject_Z i / (inject_Z width / 4))
                                       * (inject_Z i / (inject_Z width / 4))))))).
Proof. done. Qed.

Lemma edge_shadow_draws width height shadow_width mask i :
  edge_shadow width height shadow_width mask i
  = rectangle mask (inject_Z i) (inject_Z i) (inject_Z (width - i))
      (inject_Z (height - i)) None
      (Some (Level (py_int (255 * (inject_Z i / inject_Z shadow_width))))).
Proof. done. Qed.

(** [apply_vignette] draws its rings when the picture is not too flat: the
    innermost ring, number [width // 4 - 1], needs
    [height - i >= i]. *)
Lemma apply_vignette_ok host img width height :
  size host img = (width, height) →
  (0 <= width)%Z → (0 <= height)%Z →
  (2 * (width / 4 - 1) <= height)%Z →
  ∃ img', apply_vignette host img = Ok img'.
Proof.
  intros Hsize Hw Hh Hflat. unfold apply_vignette. rewrite Hsize.
  rewrite image_new_ok by done. cbn [pure_bind].
  destruct (rings_ok width height (vignette_ring width height) _
              (vignette_ring_draws width height) (range (width / 4)))
    with (mask := Image_new "L" width height (Level 255)) as [mask ->].
  - intros i Hi%range_elem.
    pose proof (Z.mul_div_le width 4 ltac:(lia)). lia.
  - cbn [pure_bind]. eauto.
Qed.

Lemma apply_vignette_flat host img width height :
  size host img = (width, height) →
  (height < 2 * (width / 4 - 1))%Z →
  apply_vignette host img = Raised ValueError.
Proof.
  intros Hsize Hflat. unfold apply_vignette. rewrite Hsize.
  unfold image_new.
  destruct (Z.ltb_spec width 0); [done|].
  destruct (Z.ltb_spec height 0); [done|].
  cbn [orb pure_bind].
  rewrite (rings_fail width height (vignette_ring width height) _
             (vignette_ring_draws width height) (range (width / 4))
             (width / 4 - 1)); [done| |lia].
  apply range_elem. lia.
Qed.

Lemma apply_vignette_raises host img e :
  apply_vignette host img = Raised e → e = ValueError.
Proof.
  unfold apply_vignette. destruct (size host img) as [width height].
  destruct (image_new _ _ _ _) as [mask|e0|] eqn:E; cbn [pure_bind];
    [|intros [= <-]; by apply image_new_raises in E|done].
  destruct (for_each_pure _ _ _) as [mask'|e1|] eqn:Er; cbn [pure_bind];
    [done| |done].
  intros [= <-].
  by apply (rings_raise width height _ _ (vignette_ring_draws width height))
    in Er.
Qed.

(** The Gaussian blur always gives a picture: what its padded variant
    raises is caught. *)
Lemma apply_blur_ok a img_base img_sharp :
  (blur_type a = "radial" →
   (0 <= width a)%Z ∧ (0 <= height a)%Z
   ∧ (0 <= radial_sharp_radius_factor a)%Q) →
  ∃ img, apply_blur a img_base img_sharp = Ok img.
Proof.
  intros Hradial. unfold apply_blur. cbv zeta.
  destruct (bool_decide (blur_type a = "gaussian") && _).
  - destruct (image_new _ _ _ _) as [padded|e|] eqn:E; cbn [pure_bind].
    + unfold crop. destruct (_ || _); eauto.
    + eauto.
    + unfold image_new in E. by destruct (_ || _).
  - destruct (bool_decide (blur_type a = "radial") && _) eqn:Er; [|eauto].
    apply andb_true_iff in Er as [Er _].
    apply bool_decide_eq_true in Er.
    destruct (Hradial Er) as (Hw & Hh & Hf).
    unfold create_radial_blur_mask.
    rewrite image_new_ok by done. cbn [pure_bind].
    unfold ellipse.
    assert (0 <= inject_Z (Z.min (width a) (height a))
                 * radial_sharp_radius_factor a)%Q as Hr.
    { apply Qmult_le_0_compat; [|done].
      change 0%Q with (inject_Z 0). rewrite <- Zle_Qle. lia. }
    rewrite !Qltb_false by lra.
    cbn [orb pure_bind]. eauto.
Qed.

Lemma final_overlay_returns host a lay bold_font img_blurred :
  (0 <= highlight_width_bold lay + 2 * (inject_Z (font_size a) * 0.10))%Q →
  (0 <= inject_Z (highlight_height_bold lay)
        + 2 * (inject_Z (font_size a) * 0.10))%Q →
  draws host bold_font (highlighted_text a) = true →
  ∃ img, final_overlay host a lay bold_font img_blurred = Ok img.
Proof.
  intros Hx Hy Hd. unfold final_overlay, rectangle. cbv zeta.
  rewrite !Qltb_false by lra. cbn [orb]. rewrite Hd. eauto.
Qed.

Lemma draw_lines_ok host a lay font lines :
  (∀ i line, line ∈ lines →
             ∃ x, line_position host a lay font i line = Ok x) →
  Forall (λ line, draws host font line = true) lines →
  ∀ i y img_base img_sharp,
    ∃ drawn, draw_lines host a lay font i lines y img_base img_sharp
             = Ok drawn.
Proof.
  intros Hpos Hdraws. induction Hdraws as [|line rest Hd _ IH];
    intros i y b s; cbn [draw_lines]; [eauto|].
  destruct (Hpos i line) as [x ->]; [by left|]. cbn [pure_bind].
  unfold draw_text_with_shadow. rewrite Hd. cbn [pure_bind].
  apply IH. intros j l Hl. apply Hpos. by right.
Qed.

(** A frame on a texture that loads renders when the fonts load, the
    measures are taken, every line is placed and drawn, the picture is not
    too flat for the vignette and the highlight box has its corners in
    order. *)
Lemma create_text_image_frame_renders host a font bold_font lay :
  FrameFacts.texture_loads host a →
  load_fonts host a = Ok (font, bold_font) →
  measure host a font bold_font = Ok lay →
  (∀ i line, line ∈ text_lines a →
             ∃ x, line_position host a lay font i line = Ok x) →
  Forall (λ line, draws host font line = true) (text_lines a) →
  draws host bold_font (highlighted_text a) = true →
  (0 <= width a)%Z → (0 <= height a)%Z →
  (2 * (width a / 4 - 1) <= height a)%Z →
  (blur_type a = "radial" → (0 <= radial_sharp_radius_factor a)%Q) →
  (0 <= highlight_width_bold lay + 2 * (inject_Z (font_size a) * 0.10))%Q →
  (0 <= inject_Z (highlight_height_bold lay)
        + 2 * (inject_Z (font_size a) * 0.10))%Q →
  ∀ w, ∃ img, create_text_image_frame host a w = (Ok img, w).
Proof.
  intros Hl Hfonts Hmeasure Hpos Hdraws Hbold Hw Hh Hflat Hradial Hx Hy w.
  destruct (FrameFacts.create_paper_texture_loaded host a (bg_color a)
              0.08 2 Hl) as [texture Hp].
  pose proof (SizeFacts.create_paper_texture_size host _ _ _ _ _ _ _ _ _ _
                (Hp w)) as Hsize.
  unfold create_text_image_frame, bind. rewrite Hp.
  unfold ret, of_result. rewrite Hfonts, Hmeasure.
  unfold base_drawing.
  destruct (draw_lines_ok host a lay font (text_lines a) Hpos Hdraws 0
              (block_start_y lay + y_offset a)%Q texture texture)
    as [[img_base img_sharp] Hd].
  rewrite Hd.
  apply SizeFacts.draw_lines_size in Hd as [Hb Hs].
  destruct (apply_vignette_ok host img_base (width a) (height a))
    as [vb Hvb]; [congruence|done|done|done|].
  destruct (apply_vignette_ok host img_sharp (width a) (height a))
    as [vs Hvs]; [congruence|done|done|done|].
  rewrite Hvb, Hvs.
  destruct (apply_blur_ok a vb vs) as [blurred ->]; [by auto|].
  destruct (final_overlay_returns host a lay bold_font blurred Hx Hy Hbold)
    as [final ->].
  eauto.
Qed.

End RenderFacts.

(** * The run of [generate_video] in the studio *)
Module StudioFacts.
Import PyStr ImageProcessing VideoGenerator PoolFacts.

(** The procedural generator as [generate_video] calls it. *)
Definition procedural (highlighted_text : text) (min_lines max_lines : Z)
    : St World (option (list text) * Z) :=
  with_random
    (TextGeneration.generate_random_text_snippet highlighted_text min_lines
       max_lines).

Definition settings (fps duration : Z) : Settings :=
  settings_of Studio.host (Studio.params fps duration) Studio.app_config.

(** Text is always supplied in the studio. *)
Lemma studio_supplied fps duration w :
  ∃ s w',
    new_text AiProviders.generate_ai_text_snippet procedural
      (Studio.params fps duration) (settings fps duration) w
    = (Ok (Some s), w').
Proof.
  unfold new_text, random_text. cbn [settings settings_of ai_client
    Studio.params p_ai_enabled line_settings].
  change (ai_client (settings fps duration)) with (@None AiProviders.Client).
  cbv iota.
  destruct (PhraseFacts.phrase_snippet 7 12 (py_random w))
    as (ls & idx & r' & H & Hn & Hi & _); [lia|].
  unfold bind, procedural, with_random.
  change (p_highlighted_text (Studio.params fps duration))
    with PhraseFacts.phrase.
  change (min_lines (settings fps duration)) with 7%Z.
  change (max_lines (settings fps duration)) with 12%Z.
  rewrite H. unfold ret, usable.
  destruct ls as [|l ls]; [simpl in Hn; lia|].
  destruct (idx =? -1)%Z eqn:E; [lia|]. eauto.
Qed.

(** ** The generators of the repository *)

Lemma usable_some result s :
  usable result = Some s →
  lines s ≠ [] ∧ result = (Some (lines s), highlight_index s).
Proof.
  unfold usable. destruct result as [[[|l ls]|] i]; try done.
  destruct (i =? -1)%Z; [done|]. by intros [= <-].
Qed.

Lemma ai_attempts_ok params settings left w s w' :
  ai_attempts AiProviders.generate_ai_text_snippet params settings left w
  = (Ok (Some s), w') →
  snippet_ok s.
Proof.
  revert w. induction left as [|left IH]; intros w; cbn [ai_attempts].
  - by intros [= ].
  - intros H. bind_inv H.
    destruct (usable a) as [snippet|] eqn:Eu; [|by apply IH in H].
    destruct (forallb plausible (lines snippet)); [|by apply IH in H].
    apply ret_ok in H as [[= <-] _].
    apply usable_some in Eu as [_ ->].
    apply AiFacts.generate_ai_text_snippet_some in Hm. apply Hm.
Qed.

Lemma random_text_ok params settings w s w' :
  random_text procedural params settings w = (Ok (Some s), w') →
  snippet_ok s.
Proof.
  unfold random_text. intros H. bind_inv H.
  apply ret_ok in H as [H _]. apply usable_some in H as [_ ->].
  unfold procedural, with_random in Hm.
  destruct (TextGeneration.generate_random_text_snippet _ _ _ _)
    as [res r] eqn:E.
  injection Hm as -> _.
  by apply TextGenerationFacts.generate_in_range in E as [? _].
Qed.

(** The snippets of the two generators of the repository have their
    highlight index inside their lines. *)
Lemma new_text_ok params settings w s w' :
  new_text AiProviders.generate_ai_text_snippet procedural params settings w
  = (Ok (Some s), w') →
  snippet_ok s.
Proof.
  unfold new_text. destruct (ai_client settings).
  - intros H. bind_inv H. destruct a as [snippet|].
    + apply ret_ok in H as [[= <-] _]. by apply ai_attempts_ok in Hm.
    + by apply random_text_ok in H.
  - apply random_text_ok.
Qed.




(** ** Fonts and frames of the studio *)

Lemma font_paths_settings host params app_config :
  font_paths (settings_of host params app_config)
  = discover_fonts host (FONT_DIR app_config).
Proof.
  unfold settings_of. by destruct (line_settings params) as [[? ?] ?].
Qed.

Lemma select_font_random host params app_config settings failed w :
  p_selected_font params = None
  ∨ p_selected_font params = Some (str "random")
  ∨ (∃ name, p_selected_font params = Some name
             ∧ path_exists host (path_join (FONT_DIR app_config) name)
               = false) →
  select_font host params app_config settings failed w
  = get_random_font host (font_paths settings) failed w.
Proof.
  unfold select_font. intros [-> | [-> | (name & -> & He)]]; [done|done|].
  rewrite He. by destruct (bool_decide _).
Qed.

Lemma studio_font_found fps duration w :
  ∃ path w',
    select_font Studio.host (Studio.params fps duration) Studio.app_config
      (settings_of Studio.host (Studio.params fps duration)
         Studio.app_config) ∅ w = (Ok (Some path), w').
Proof.
  rewrite select_font_random by (right; by left).
  rewrite font_paths_settings. unfold get_random_font.
  assert (elements
            (list_to_set (discover_fonts Studio.host
                            (FONT_DIR Studio.app_config)) ∖ ∅ : gset text)
          = [Studio.arial]) as -> by (vm_compute; reflexivity).
  unfold bind, with_random, Random.choice.
  destruct (Random.next (py_random w)) as [x r].
  change (length [Studio.arial]) with 1. rewrite Nat.mod_1_r.
  cbn. eauto.
Qed.

(** The only font of the studio. *)
Lemma studio_selected fps duration path :
  RunFacts.selected Studio.host (Studio.params fps duration)
    Studio.app_config
    (settings_of Studio.host (Studio.params fps duration)
       Studio.app_config) path →
  path = Studio.arial.
Proof.
  intros (w & w' & H).
  rewrite select_font_random in H by (right; by left).
  rewrite font_paths_settings in H.
  change (discover_fonts Studio.host (FONT_DIR Studio.app_config))
    with [Studio.arial] in H.
  assert (∃ p, p ∈ [Studio.arial] ∧ p ∉ (∅ : gset text)) as Hfresh.
  { exists Studio.arial. split; [by apply list_elem_of_singleton|].
    apply not_elem_of_empty. }
  destruct (get_random_font_fresh Studio.host procedural _ _ _ _ _ Hfresh H)
    as [Hin _].
  by apply list_elem_of_singleton in Hin.
Qed.

(** Every frame of the studio renders, whatever the snippet, when its
    highlight index is inside its lines. *)
Lemma studio_renders fps duration s path jitter w :
  snippet_ok s →
  RunFacts.selected Studio.host (Studio.params fps duration)
    Studio.app_config
    (settings_of Studio.host (Studio.params fps duration)
       Studio.app_config) path →
  ∃ img w',
    ImageProcessing.create_text_image_frame Studio.host
      (frame_args module_constants (Studio.params fps duration)
         Studio.app_config
         (settings_of Studio.host (Studio.params fps duration)
            Studio.app_config) s path jitter) w
    = (Ok img, w').
Proof.
  intros Hs Hpath. apply studio_selected in Hpath as ->.
  set (a := frame_args _ _ _ _ _ _ _).
  set (font := {| font_file := Studio.arial; font_px := 51 |}).
  assert (∃ lay, measure Studio.host a font font = Ok lay
                 ∧ highlight_width_bold lay = (inject_Z (24 * 51) / 2)%Q
                 ∧ highlight_height_bold lay = 51%Z)
    as (lay & Hm & Hwidth & Hheight).
  { unfold measure, calculations.
    destruct (lookup_lt_is_Some_2 (lines s)
                (Z.to_nat (highlight_index s))) as [line Hline];
      [unfold snippet_ok in Hs; lia|].
    assert (py_index (text_lines a) (highlight_line_index a) = Ok line)
      as Hidx.
    { apply py_index_inside; [unfold snippet_ok in Hs; simpl; lia|done]. }
    change (measure_line_height Studio.host font
              (ImageProcessing.font_size a)
              (ImageProcessing.vertical_spread_factor a))
      with (Ok 81%Z : PyResult Z).
    cbn [pure_bind].
    change (getlength Studio.host font (highlighted_text a))
      with (Ok (inject_Z (24 * 51) / 2)%Q : PyResult Q).
    cbn [pure_bind].
    change (getbbox Studio.host font (highlighted_text a))
      with (Ok (0, 0, 612, 51)%Z : PyResult (Z * Z * Z * Z)).
    cbn [pure_bind]. rewrite Hidx. cbn [pure_bind].
    destruct (find (highlighted_text a) line) as [start_index|];
      cbn [pure_bind getlength Studio.host Studio.installation];
      (eexists; split; [reflexivity|]; split; reflexivity). }
  assert (FrameFacts.texture_loads Studio.host a) as Hl.
  { split; [done|]. split; [done|]. split; [done|].
    eexists. vm_compute. reflexivity. }
  assert (∀ i line, line ∈ text_lines a →
                    ∃ x, line_position Studio.host a lay font i line = Ok x)
    as Hpos.
  { intros i line _. unfold line_position.
    destruct (_ && _); [eauto|].
    cbn [getlength Studio.host Studio.installation pure_bind].
    destruct (Qltb _ _); eauto. }
  assert (Forall (λ line, draws Studio.host font line = true)
            (text_lines a)) as Hdraws by (by apply Forall_forall).
  destruct (RenderFacts.create_text_image_frame_renders Studio.host a font
              font lay Hl eq_refl Hm Hpos Hdraws eq_refl) with (w := w)
    as [img Himg].
  - done.
  - done.
  - done.
  - by intros _.
  - rewrite Hwidth. vm_compute. discriminate.
  - rewrite Hheight. vm_compute. discriminate.
  - eauto.
Qed.

End StudioFacts.

Import PyStr ImageProcessing VideoGenerator PoolFacts StudioFacts.

(** * The snippet pool *)

(** C3: for every pool size and every number of frames per snippet, both at
    least one, when every request for text succeeds, a loop that has produced
    [k] frames has created and appended [min(poolSize, ceil(k /
    framesPerSnippet))] snippets: the pool only grows by appending, and that
    is its length. *)
Theorem pool_growth host constants generate_ai_text_snippet
    generate_random_text_snippet create_text_image_frame params app_config
    settings k w st w' :
  1 <= TEXT_POOL_SIZE constants →
  1 <= FRAMES_PER_SNIPPET constants →
  (∀ w, ∃ s w',
     new_text generate_ai_text_snippet generate_random_text_snippet params
       settings w = (Ok (Some s), w')) →
  frame_passes host constants generate_ai_text_snippet
    generate_random_text_snippet create_text_image_frame params app_config
    settings k initial w = (Ok (Next st), w') →
  length (frames st) = k
  ∧ length (text_pool st)
    = Nat.min (TEXT_POOL_SIZE constants)
        (ceil_div k (FRAMES_PER_SNIPPET constants)).
Proof.
  intros HP HF Hs H.
  pose proof (pool_at_passes host constants _ _ _ params app_config settings
                HP HF Hs k 0 initial w st w'
                (pool_at_initial constants) H) as Hat.
  split.
  - by destruct Hat as (_ & ? & _).
  - by eapply pool_at_length.
Qed.

(** Seven frames in the studio: three snippets. *)
Lemma pool_growth_witness :
  ∃ st w',
    frame_passes Studio.host module_constants
      AiProviders.generate_ai_text_snippet procedural
      (ImageProcessing.create_text_image_frame Studio.host)
      (Studio.params 10 5) Studio.app_config (StudioFacts.settings 10 5) 7
      initial Studio.world = (Ok (Next st), w')
    ∧ length (frames st) = 7
    ∧ length (text_pool st) = 3.
Proof.
  eexists. eexists. split; [vm_compute; reflexivity|].
  eapply (pool_growth Studio.host module_constants
            AiProviders.generate_ai_text_snippet procedural
            (ImageProcessing.create_text_image_frame Studio.host)
            (Studio.params 10 5) Studio.app_config (StudioFacts.settings 10 5)
            7 Studio.world).
  - simpl. lia.
  - simpl. lia.
  - apply studio_supplied.
  - vm_compute. reflexivity.
Defined.

Lemma total_frames_settings host params app_config :
  total_frames (settings_of host params app_config)
  = frame_count (p_fps params) (p_duration params).
Proof.
  unfold settings_of. by destruct (line_settings params) as [[? ?] ?].
Qed.




(** * Failures of the text generators *)

Lemma frame_passes_return host constants generate_ai_text_snippet
    generate_random_text_snippet create_text_image_frame params app_config
    settings k st w f e w1 :
  frame_pass host constants generate_ai_text_snippet
    generate_random_text_snippet create_text_image_frame params app_config
    settings st w = (Ok (Return f e), w1) →
  frame_passes host constants generate_ai_text_snippet
    generate_random_text_snippet create_text_image_frame params app_config
    settings (S k) st w = (Ok (Return f e), w1).
Proof. intros H. cbn [frame_passes]. by rewrite (bind_eq_ok _ _ _ _ _ H). Qed.

Lemma generate_video_with_return host constants generate_ai_text_snippet
    generate_random_text_snippet create_text_image_frame uuid4
    write_videofile params app_config w f e w1 :
  font_paths (settings_of host params app_config) ≠ [] →
  (0 < total_frames (settings_of host params app_config))%Z →
  frame_pass host constants generate_ai_text_snippet
    generate_random_text_snippet create_text_image_frame params app_config
    (settings_of host params app_config) initial w = (Ok (Return f e), w1) →
  generate_video_with host constants generate_ai_text_snippet
    generate_random_text_snippet create_text_image_frame uuid4
    write_videofile params app_config w = (Ok (f, e), w1).
Proof.
  intros Hfonts Hframes H. unfold generate_video_with. cbv zeta.
  destruct (font_paths _) as [|p ps]; [done|].
  unfold bind at 1. rewrite frame_loop_passes.
  destruct (Z.to_nat (total_frames (settings_of host params app_config)))
    as [|k] eqn:Ek; [lia|].
  by rewrite (frame_passes_return _ _ _ _ _ _ _ _ k _ _ _ _ _ H).
Qed.




(** * Font errors *)

Lemma select_font_named host params app_config settings failed w name :
  p_selected_font params = Some name →
  name ≠ str "random" →
  path_exists host (path_join (FONT_DIR app_config) name) = true →
  select_font host params app_config settings failed w
  = (Ok (Some (path_join (FONT_DIR app_config) name)), w).
Proof.
  intros Hname Hn He. unfold select_font.
  by rewrite Hname, bool_decide_eq_true_2, He.
Qed.

(** A frame whose every attempt ends in a font error ends the run. *)
Lemma font_errors_abort host constants generate_ai_text_snippet
    generate_random_text_snippet create_text_image_frame uuid4
    write_videofile params app_config w s w1 :
  font_paths (settings_of host params app_config) ≠ [] →
  (0 < total_frames (settings_of host params app_config))%Z →
  1 <= TEXT_POOL_SIZE constants →
  new_text generate_ai_text_snippet generate_random_text_snippet params
    (settings_of host params app_config) w = (Ok (Some s), w1) →
  (∀ path jitter w, ∃ e w',
     create_text_image_frame
       (frame_args constants params app_config
          (settings_of host params app_config) s path jitter) w
     = (Raised e, w')
     ∧ is_font_error e = true) →
  ∃ e w',
    generate_video_with host constants generate_ai_text_snippet
      generate_random_text_snippet create_text_image_frame uuid4
      write_videofile params app_config w = (Ok (None, Some e), w')
    ∧ (e = "Failed to generate frame 1. Font issues likely."
       ∨ e = "No usable fonts available after multiple attempts.").
Proof.
  intros Hfonts Hframes HP Hnew Hfail.
  set (settings := settings_of host params app_config) in *.
  assert (refresh_text constants generate_ai_text_snippet
            generate_random_text_snippet params settings initial w
          = (Ok (Next (rotated initial [s])), w1)) as Hr.
  { rewrite (refresh_grow constants _ _ params settings initial w (Some s) w1);
      [reflexivity| |simpl; lia|done].
    unfold due. apply orb_true_r. }
  destruct (font_loop_all_fail host constants create_text_image_frame params
              app_config settings (MAX_FONT_RETRIES_PER_FRAME constants)
              (count_use (rotated initial [s])) s w1 Hfail)
    as (e & w' & Hloop & He).
  exists e, w'. split; [|exact He].
  apply generate_video_with_return; [done|done|].
  fold settings. unfold frame_pass.
  rewrite (bind_eq_ok _ _ _ _ _ Hr). cbn [rotated text_pool current_pool_index
    length Nat.modulo Nat.divmod fst snd Nat.add Nat.sub].
  unfold bind at 1. unfold of_result at 1.
  change (py_index [s] _) with (Ok s).
  cbv iota. by rewrite (bind_eq_ok _ _ _ _ _ Hloop).
Qed.

(** C8, as the specification has it, fails: a font selected by name is
    tried again after it failed.  In the studio with an unreadable
    [Arial.ttf] selected by name, the frame raises [FontLoadError], the font
    is recorded, and the next attempt selects the recorded font. *)
Lemma named_font_is_retried :
  let params := Studio.params_with (str "Arial.ttf") 10 5 in
  let settings := settings_of Studio.corrupt params Studio.app_config in
  let failed := failed_fonts (record_failure initial Studio.arial) in
  fst (ImageProcessing.create_text_image_frame Studio.corrupt
         (frame_args module_constants params Studio.app_config settings
            Studio.snippet Studio.arial 0) Studio.world)
  = Raised (FontLoadError "Failed to load font")
  ∧ Studio.arial ∈ failed
  ∧ select_font Studio.corrupt params Studio.app_config settings failed
      Studio.world
    = (Ok (Some Studio.arial), Studio.world).
Proof.
  split; [by vm_compute|]. split; [|by vm_compute].
  cbn [failed_fonts record_failure]. set_solver.
Qed.

(** ** The attempts at a frame *)
Section Attempts.

Variable host : Host.
Variable constants : Constants.
Variable create_text_image_frame : FrameArgs → St World Img.
Variable params : Params.
Variable app_config : AppConfig.
Variable settings : Settings.
Variable ct : Snippet.

(** [n] attempts in a row, each of which selects a font and ends in a
    font error, lead from the loop variables [st] and the world [w] to
    [st'] and [w']. *)
Fixpoint failed_attempts (n : nat) (st : Loop) (w : World) (st' : Loop)
    (w' : World) : Prop :=
  match n with
  | O => st' = st ∧ w' = w
  | S n' =>
      ∃ path w1 e w2,
        select_font host params app_config settings (failed_fonts st) w
        = (Ok (Some path), w1)
        ∧ attempt constants create_text_image_frame params app_config
            settings st ct path w1 = (Raised e, w2)
        ∧ is_font_error e = true
        ∧ failed_attempts n' (record_failure st path) w2 st' w'
  end.

Lemma failed_attempts_font_loop n :
  ∀ left st w st' w',
    failed_attempts n st w st' w' →
    font_loop host constants create_text_image_frame params app_config
      settings (n + left) st ct w
    = font_loop host constants create_text_image_frame params app_config
        settings left st' ct w'.
Proof.
  induction n as [|n IH]; intros left st w st' w' H.
  - by destruct H as [-> ->].
  - destruct H as (path & w1 & e & w2 & Hsel & Hatt & He & H).
    change (S n + left) with (S (n + left)).
    rewrite (font_loop_retry host constants create_text_image_frame params
               app_config settings (n + left) st ct w path w1 e w2 Hsel
               Hatt He).
    by apply IH.
Qed.

Lemma failed_attempts_state n :
  ∀ st w st' w',
    failed_attempts n st w st' w' →
    frames st' = frames st
    ∧ text_pool st' = text_pool st
    ∧ current_pool_index st' = current_pool_index st
    ∧ frames_with_current_text st' = frames_with_current_text st
    ∧ frame_num st' = frame_num st
    ∧ failed_fonts st ⊆ failed_fonts st'.
Proof.
  induction n as [|n IH]; intros st w st' w' H.
  - by destruct H as [-> ->].
  - destruct H as (path & w1 & e & w2 & _ & _ & _ & H).
    apply IH in H as (? & ? & ? & ? & ? & Hsub).
    repeat split; try done.
    etrans; [|exact Hsub]. apply union_subseteq_r.
Qed.

(** When every frame ends in a font error and a font is always selected,
    any number of attempts fail in a row. *)
Lemma failed_attempts_all n :
  (∀ failed w, ∃ path w',
     select_font host params app_config settings failed w
     = (Ok (Some path), w')) →
  (∀ path jitter w, ∃ e w',
     create_text_image_frame
       (frame_args constants params app_config settings ct path jitter) w
     = (Raised e, w')
     ∧ is_font_error e = true) →
  ∀ st w, ∃ st' w', failed_attempts n st w st' w'.
Proof.
  intros Hsel Hfail. induction n as [|n IH]; intros st w.
  - by exists st, w.
  - destruct (Hsel (failed_fonts st) w) as (path & w1 & Hpath).
    destruct (attempt_fails constants create_text_image_frame params
                app_config settings st ct path w1 Hfail)
      as (e & w2 & Hatt & He).
    destruct (IH (record_failure st path) w2) as (st' & w' & H).
    exists st', w', path, w1, e, w2. done.
Qed.

End Attempts.

Lemma frame_passes_num host constants generate_ai_text_snippet
    generate_random_text_snippet create_text_image_frame params app_config
    settings k :
  ∀ st w st' w',
    frame_passes host constants generate_ai_text_snippet
      generate_random_text_snippet create_text_image_frame params app_config
      settings k st w = (Ok (Next st'), w') →
    frame_num st' = frame_num st + k.
Proof.
  induction k as [|k IH]; intros st w st' w' H; cbn [frame_passes] in H.
  - apply ret_ok in H as [[= <-] _]. lia.
  - bind_inv H. destruct a as [st1|]; [|discriminate].
    apply IH in H.
    apply frame_pass_next in Hm
      as (st2 & w2 & ct & img & _ & _ & _ & _ & _ & Hn & _).
    lia.
Qed.

Lemma frame_passes_then_return host constants generate_ai_text_snippet
    generate_random_text_snippet create_text_image_frame params app_config
    settings k j :
  ∀ st w st0 w0 f e w',
    frame_passes host constants generate_ai_text_snippet
      generate_random_text_snippet create_text_image_frame params app_config
      settings k st w = (Ok (Next st0), w0) →
    frame_pass host constants generate_ai_text_snippet
      generate_random_text_snippet create_text_image_frame params app_config
      settings st0 w0 = (Ok (Return f e), w') →
    frame_passes host constants generate_ai_text_snippet
      generate_random_text_snippet create_text_image_frame params app_config
      settings (k + S j) st w = (Ok (Return f e), w').
Proof.
  induction k as [|k IH]; intros st w st0 w0 f e w' H Hpass.
  - apply ret_ok in H as [[= <-] <-]. by apply frame_passes_return.
  - cbn [frame_passes] in H. bind_inv H.
    destruct a as [st1|]; [|discriminate].
    change (S k + S j) with (S (k + S j)). cbn [frame_passes].
    rewrite (bind_eq_ok _ _ _ _ _ Hm). by eapply IH.
Qed.

(** A pass that returns ends the run with what it returns. *)
Lemma generate_video_with_pass_return host constants
    generate_ai_text_snippet generate_random_text_snippet
    create_text_image_frame uuid4 write_videofile params app_config k w st0
    w0 f e w' :
  font_paths (settings_of host params app_config) ≠ [] →
  (Z.of_nat k < total_frames (settings_of host params app_config))%Z →
  frame_passes host constants generate_ai_text_snippet
    generate_random_text_snippet create_text_image_frame params app_config
    (settings_of host params app_config) k initial w = (Ok (Next st0), w0) →
  frame_pass host constants generate_ai_text_snippet
    generate_random_text_snippet create_text_image_frame params app_config
    (settings_of host params app_config) st0 w0 = (Ok (Return f e), w') →
  generate_video_with host constants generate_ai_text_snippet
    generate_random_text_snippet create_text_image_frame uuid4
    write_videofile params app_config w = (Ok (f, e), w').
Proof.
  intros Hfonts Hk Hpasses Hpass. unfold generate_video_with. cbv zeta.
  destruct (font_paths _) as [|p ps]; [done|].
  unfold bind at 1. rewrite frame_loop_passes.
  replace (Z.to_nat (total_frames (settings_of host params app_config)))
    with (k + S (Z.to_nat (total_frames (settings_of host params app_config))
                 - S k)) by lia.
  by rewrite (frame_passes_then_return _ _ _ _ _ _ _ _ _ _ _ _ _ _ _ _ _
                Hpasses Hpass).
Qed.

(** C8 amended.  An attempt at a frame that raises [FontLoadError] or
    [FontDrawError] records its font, and the loop goes on with one attempt
    less.  A frame has [MAX_FONT_RETRIES_PER_FRAME = 5] attempts: when five
    attempts in a row end in a font error the pass returns "Failed to
    generate frame N. Font issues likely." with the number of the frame and
    there is no sixth attempt; when after fewer than five no font is left to
    select it returns "No usable fonts available after multiple attempts.";
    when after fewer than five an attempt renders, the pass goes on with
    that picture as the one frame it adds.  The font of an attempt is not a
    recorded one when fonts are picked at random and the font list holds a
    font that is not recorded; a font that is selected by name and exists is
    the font of every attempt.  A pass that goes on has added one frame, and
    a pass that returns, at whatever frame, ends the run with its error and
    no file. *)
Theorem font_retry_policy host generate_ai_text_snippet
    generate_random_text_snippet create_text_image_frame uuid4
    write_videofile params app_config :
  (∀ left st ct w path w1 e w2,
     select_font host params app_config
       (settings_of host params app_config) (failed_fonts st) w
     = (Ok (Some path), w1) →
     attempt module_constants create_text_image_frame params app_config
       (settings_of host params app_config) st ct path w1
     = (Raised e, w2) →
     is_font_error e = true →
     font_loop host module_constants create_text_image_frame params
       app_config (settings_of host params app_config) (S left) st ct w
     = font_loop host module_constants create_text_image_frame params
         app_config (settings_of host params app_config) left
         (record_failure st path) ct w2
     ∧ path ∈ failed_fonts (record_failure st path))
  ∧ (∀ st0 w0 st1 w1 ct n st' w',
       refresh_text module_constants generate_ai_text_snippet
         generate_random_text_snippet params
         (settings_of host params app_config) st0 w0 = (Ok (Next st1), w1) →
       text_pool st1 !! current_pool_index st1 = Some ct →
       failed_attempts host module_constants create_text_image_frame params
         app_config (settings_of host params app_config) ct n
         (count_use st1) w1 st' w' →
       (n = 5 →
        frame_pass host module_constants generate_ai_text_snippet
          generate_random_text_snippet create_text_image_frame params
          app_config (settings_of host params app_config) st0 w0
        = (Ok (Return None
                 (Some ("Failed to generate frame "
                        +:+ pretty (frame_num st0 + 1)
                        +:+ ". Font issues likely."))), w'))
       ∧ (n < 5 →
          ∀ w2,
            select_font host params app_config
              (settings_of host params app_config) (failed_fonts st') w'
            = (Ok None, w2) →
            frame_pass host module_constants generate_ai_text_snippet
              generate_random_text_snippet create_text_image_frame params
              app_config (settings_of host params app_config) st0 w0
            = (Ok (Return None
                     (Some "No usable fonts available after multiple attempts.")),
               w2))
       ∧ (n < 5 →
          ∀ path w2 jitter w3 img w4,
            select_font host params app_config
              (settings_of host params app_config) (failed_fonts st') w'
            = (Ok (Some path), w2) →
            with_random (λ r, let '(x, r') := Random.uniform (-5) 5 r in
                              (Ok x, r')) w2 = (Ok jitter, w3) →
            create_text_image_frame
              (frame_args module_constants params app_config
                 (settings_of host params app_config) ct path jitter) w3
            = (Ok img, w4) →
            (total_frames (settings_of host params app_config) / 10 ≠ 0)%Z →
            frame_pass host module_constants generate_ai_text_snippet
              generate_random_text_snippet create_text_image_frame params
              app_config (settings_of host params app_config) st0 w0
            = (Ok (Next (next_frame (add_frame st' img))), w4)
            ∧ frames (next_frame (add_frame st' img))
              = frames st0 ++ [img]))
  ∧ (∀ failed w q w',
       p_selected_font params = None
       ∨ p_selected_font params = Some (str "random")
       ∨ (∃ name, p_selected_font params = Some name
                  ∧ path_exists host (path_join (FONT_DIR app_config) name)
                    = false) →
       (∃ p, p ∈ font_paths (settings_of host params app_config)
             ∧ p ∉ failed) →
       select_font host params app_config
         (settings_of host params app_config) failed w = (Ok (Some q), w') →
       q ∈ font_paths (settings_of host params app_config) ∧ q ∉ failed)
  ∧ (∀ failed w name,
       p_selected_font params = Some name →
       name ≠ str "random" →
       path_exists host (path_join (FONT_DIR app_config) name) = true →
       select_font host params app_config
         (settings_of host params app_config) failed w
       = (Ok (Some (path_join (FONT_DIR app_config) name)), w))
  ∧ (∀ st0 w0 st' w',
       frame_pass host module_constants generate_ai_text_snippet
         generate_random_text_snippet create_text_image_frame params
         app_config (settings_of host params app_config) st0 w0
       = (Ok (Next st'), w') →
       ∃ img, frames st' = frames st0 ++ [img]
              ∧ frame_num st' = frame_num st0 + 1)
  ∧ (∀ k w st0 w0 f e w',
       font_paths (settings_of host params app_config) ≠ [] →
       (Z.of_nat k < total_frames (settings_of host params app_config))%Z →
       frame_passes host module_constants generate_ai_text_snippet
         generate_random_text_snippet create_text_image_frame params
         app_config (settings_of host params app_config) k initial w
       = (Ok (Next st0), w0) →
       frame_pass host module_constants generate_ai_text_snippet
         generate_random_text_snippet create_text_image_frame params
         app_config (settings_of host params app_config) st0 w0
       = (Ok (Return f e), w') →
       frame_num st0 = k
       ∧ generate_video_with host module_constants generate_ai_text_snippet
           generate_random_text_snippet create_text_image_frame uuid4
           write_videofile params app_config w = (Ok (f, e), w')).
Proof.
  split; [|split; [|split; [|split; [|split]]]].
  - intros left st ct w path w1 e w2 Hsel Hatt He. split.
    + by apply font_loop_retry with w1 e.
    + cbn [failed_fonts record_failure]. set_solver.
  - intros st0 w0 st1 w1 ct n st' w' Hr Hct Hfailed.
    pose proof (frame_pass_draw host module_constants
                  generate_ai_text_snippet generate_random_text_snippet
                  create_text_image_frame params app_config
                  (settings_of host params app_config) st0 w0 st1 w1 ct Hr
                  Hct) as Hd.
    pose proof (failed_attempts_state _ _ _ _ _ _ _ _ _ _ _ _ Hfailed)
      as (Hframes & _ & _ & _ & Hnum & _).
    apply refresh_prefix in Hr as (_ & Hframes1 & Hnum1 & _).
    cbn [count_use frames frame_num] in Hframes, Hnum.
    rewrite Hd. unfold draw_frame.
    cbn [MAX_FONT_RETRIES_PER_FRAME module_constants].
    split; [|split].
    + intros ->. unfold bind. change 5 with (5 + 0).
      rewrite (failed_attempts_font_loop _ _ _ _ _ _ _ _ _ _ _ _ _
                 Hfailed).
      cbn [font_loop]. unfold ret, font_failure.
      by rewrite Hnum, Hnum1.
    + intros Hn w2 Hsel. unfold bind at 1.
      replace 5 with (n + S (4 - n)) by lia.
      rewrite (failed_attempts_font_loop _ _ _ _ _ _ _ _ _ _ _ _ _
                 Hfailed).
      cbn [font_loop]. by rewrite (bind_eq_ok _ _ _ _ _ Hsel).
    + intros Hn path w2 jitter w3 img w4 Hsel Hjitter Hrender Hten.
      unfold bind at 1.
      replace 5 with (n + S (4 - n)) by lia.
      rewrite (failed_attempts_font_loop _ _ _ _ _ _ _ _ _ _ _ _ _
                 Hfailed).
      cbn [font_loop]. rewrite (bind_eq_ok _ _ _ _ _ Hsel).
      unfold try_except, attempt.
      rewrite (bind_eq_ok _ _ _ _ _ Hjitter).
      rewrite (bind_eq_ok _ _ _ _ _ Hrender).
      apply Z.eqb_neq in Hten. rewrite Hten. unfold ret.
      split; [done|].
      cbn [next_frame add_frame frames]. by rewrite Hframes, Hframes1.
  - intros failed w q w' Hrandom Hfresh Hsel.
    rewrite select_font_random in Hsel by done.
    by apply get_random_font_fresh in Hsel.
  - intros failed w name. apply select_font_named.
  - intros st0 w0 st' w' H.
    apply frame_pass_next in H
      as (st1 & w1 & ct & img & _ & _ & _ & _ & _ & Hn & Hf & _).
    by exists img.
  - intros k w st0 w0 f e w' Hfonts Hk Hpasses Hpass. split.
    + by apply frame_passes_num in Hpasses.
    + by eapply generate_video_with_pass_return.
Qed.

(** With the unreadable font every frame of the studio raises
    [FontLoadError]. *)
Lemma corrupt_frame_fails name fps duration s path jitter w :
  ImageProcessing.create_text_image_frame Studio.corrupt
    (frame_args module_constants (Studio.params_with name fps duration)
       Studio.app_config
       (settings_of Studio.corrupt (Studio.params_with name fps duration)
          Studio.app_config) s path jitter) w
  = (Raised (FontLoadError "Failed to load font"), w).
Proof.
  set (a := frame_args _ _ _ _ _ _ _).
  assert (FrameFacts.texture_loads Studio.corrupt a) as Hl.
  { split; [done|]. split; [done|]. split; [done|].
    eexists. vm_compute. reflexivity. }
  destruct (FrameFacts.create_paper_texture_loaded Studio.corrupt a
              (bg_color a) 0.08 2 Hl) as [img Hp].
  unfold ImageProcessing.create_text_image_frame, bind. rewrite Hp.
  reflexivity.
Qed.

(** The run of the studio with the unreadable font selected by name: five
    attempts at the first frame, all in [Arial.ttf], and the run returns the
    error of frame 1. *)
Lemma font_retry_policy_witness :
  ∃ w',
    generate_video_with Studio.corrupt module_constants
      AiProviders.generate_ai_text_snippet procedural
      (ImageProcessing.create_text_image_frame Studio.corrupt) Studio.uuid4
      Studio.write_videofile (Studio.params_with (str "Arial.ttf") 10 5)
      Studio.app_config Studio.world
    = (Ok (None, Some "Failed to generate frame 1. Font issues likely."),
       w').
Proof.
  set (params := Studio.params_with (str "Arial.ttf") 10 5).
  set (settings := settings_of Studio.corrupt params Studio.app_config).
  destruct (font_retry_policy Studio.corrupt
              AiProviders.generate_ai_text_snippet procedural
              (ImageProcessing.create_text_image_frame Studio.corrupt)
              Studio.uuid4 Studio.write_videofile params Studio.app_config)
    as (_ & Hcap & _ & Hnamed & _ & Hrun).
  assert (∃ s w1,
            refresh_text module_constants
              AiProviders.generate_ai_text_snippet procedural params
              settings initial Studio.world
            = (Ok (Next (rotated initial [s])), w1)) as (s & w1 & Hr).
  { eexists. eexists. vm_compute. reflexivity. }
  destruct (failed_attempts_all Studio.corrupt module_constants
              (ImageProcessing.create_text_image_frame Studio.corrupt)
              params Studio.app_config settings s 5)
    with (st := count_use (rotated initial [s])) (w := w1)
    as (st' & w' & Hfailed).
  { intros failed w. eexists _, _.
    by apply (Hnamed failed w (str "Arial.ttf")). }
  { intros path jitter w. eexists _, _.
    split; [apply corrupt_frame_fails|reflexivity]. }
  destruct (Hcap initial Studio.world (rotated initial [s]) w1 s 5 st' w' Hr
              eq_refl Hfailed) as (Hfive & _).
  exists w'.
  destruct (Hrun 0 Studio.world initial Studio.world None
              (Some "Failed to generate frame 1. Font issues likely.") w')
    as [_ Hvideo].
  - vm_compute. discriminate.
  - vm_compute. reflexivity.
  - reflexivity.
  - exact (Hfive eq_refl).
  - exact Hvideo.
Defined.

(** * Short videos *)

(** C9 fails for videos of fewer than ten frames: with [0 < fps * duration <
    10], fonts, text and a first frame that renders, the progress line
    [frame_num % (total_frames // 10)] divides by zero, nothing catches the
    [ZeroDivisionError], and it leaves [generate_video]. *)
Theorem short_video_zero_division host constants generate_ai_text_snippet
    generate_random_text_snippet create_text_image_frame uuid4
    write_videofile params app_config w s w1 path w2 img w3 :
  font_paths (settings_of host params app_config) ≠ [] →
  (0 < total_frames (settings_of host params app_config) < 10)%Z →
  1 <= TEXT_POOL_SIZE constants →
  1 <= MAX_FONT_RETRIES_PER_FRAME constants →
  new_text generate_ai_text_snippet generate_random_text_snippet params
    (settings_of host params app_config) w = (Ok (Some s), w1) →
  select_font host params app_config (settings_of host params app_config)
    ∅ w1 = (Ok (Some path), w2) →
  create_text_image_frame
    (frame_args constants params app_config
       (settings_of host params app_config) s path
       (fst (Random.uniform (-5) 5 (py_random w2))))
    {| py_random := snd (Random.uniform (-5) 5 (py_random w2));
       np_random := np_random w2; service := service w2 |}
  = (Ok img, w3) →
  generate_video_with host constants generate_ai_text_snippet
    generate_random_text_snippet create_text_image_frame uuid4
    write_videofile params app_config w = (Raised ZeroDivisionError, w3).
Proof.
  intros Hfonts Hframes HP Hmax Hnew Hsel Hrender.
  set (settings := settings_of host params app_config) in *.
  assert (refresh_text constants generate_ai_text_snippet
            generate_random_text_snippet params settings initial w
          = (Ok (Next (rotated initial [s])), w1)) as Hr.
  { rewrite (refresh_grow constants _ _ params settings initial w (Some s) w1);
      [reflexivity| |simpl; lia|done].
    unfold due. apply orb_true_r. }
  assert (attempt constants create_text_image_frame params app_config
            settings (count_use (rotated initial [s])) s path w2
          = (Raised ZeroDivisionError, w3)) as Hatt.
  { unfold attempt, bind, with_random at 1.
    destruct (Random.uniform (-5) 5 (py_random w2)) as [j r] eqn:Eu.
    cbn [fst snd] in Hrender. rewrite Hrender.
    replace (total_frames settings / 10 =? 0)%Z with true; [done|].
    symmetry. apply Z.eqb_eq. apply Z.div_small. lia. }
  destruct (MAX_FONT_RETRIES_PER_FRAME constants) as [|left] eqn:Emax; [lia|].
  pose proof (font_loop_zero_division host constants create_text_image_frame
                params app_config settings left
                (count_use (rotated initial [s])) s w1 path w2 w3 Hsel Hatt)
    as Hloop.
  unfold generate_video_with. cbv zeta. fold settings.
  destruct (font_paths settings) as [|p ps]; [done|].
  unfold bind at 1. rewrite frame_loop_passes.
  destruct (Z.to_nat (total_frames settings)) as [|k] eqn:Ek; [lia|].
  cbn [frame_passes]. unfold frame_pass. rewrite Emax.
  unfold bind at 1. unfold bind at 1.
  rewrite Hr.
  cbn [rotated text_pool current_pool_index length].
  unfold bind at 1. unfold of_result at 1.
  change (py_index [s] _) with (Ok s). cbv iota.
  unfold bind at 1. by rewrite Hloop.
Qed.

(** Five frames in the studio: [fps = 1], [duration = 5]. *)
Lemma short_video_zero_division_witness :
  ∃ w',
    generate_video Studio.host Studio.uuid4 Studio.write_videofile
      (Studio.params 1 5) Studio.app_config Studio.world
    = (Raised ZeroDivisionError, w').
Proof.
  eexists.
  eapply (short_video_zero_division Studio.host module_constants
            AiProviders.generate_ai_text_snippet _
            (ImageProcessing.create_text_image_frame Studio.host)
            Studio.uuid4 Studio.write_videofile (Studio.params 1 5)
            Studio.app_config Studio.world).
  - vm_compute. discriminate.
  - vm_compute. split; reflexivity.
  - simpl. lia.
  - simpl. lia.
  - vm_compute. reflexivity.
  - vm_compute. reflexivity.
  - vm_compute. reflexivity.
Defined.

(** * Indices into the pool *)

(** C10: in a run of [generate_video] with the generators of the repository,
    the state after any number of passes of the frame loop has its cursor
    inside the pool whenever the pool is not empty, and every snippet of the
    pool has its highlight index inside its lines; a grow-or-rotate step
    taken from such a state gives such a state again, with a pool that is not
    empty, in which [text_pool[current_pool_index]] and the highlight line of
    that snippet are read without [IndexError]. *)
Theorem pool_indices_in_bounds host constants create_text_image_frame params
    app_config settings k w st w' :
  frame_passes host constants AiProviders.generate_ai_text_snippet procedural
    create_text_image_frame params app_config settings k initial w
  = (Ok (Next st), w') →
  ((text_pool st ≠ [] → current_pool_index st < length (text_pool st))
   ∧ Forall (λ s, (0 <= highlight_index s < Z.of_nat (length (lines s)))%Z)
       (text_pool st))
  ∧ ∀ w1 st1 w2,
      refresh_text constants AiProviders.generate_ai_text_snippet procedural
        params settings st w1 = (Ok (Next st1), w2) →
      text_pool st1 ≠ []
      ∧ current_pool_index st1 < length (text_pool st1)
      ∧ Forall (λ s, (0 <= highlight_index s < Z.of_nat (length (lines s)))%Z)
          (text_pool st1)
      ∧ ∃ snippet line,
          py_index (text_pool st1) (Z.of_nat (current_pool_index st1))
          = Ok snippet
          ∧ py_index (lines snippet) (highlight_index snippet) = Ok line.
Proof.
  intros H.
  assert (pool_ok st) as Hok.
  { revert H. generalize pool_ok_initial. generalize initial. revert w.
    induction k as [|k IH]; intros w st0 Hok0; cbn [frame_passes].
    - intros H. by apply ret_ok in H as [[= <-] _].
    - intros H. bind_inv H. destruct a as [st1|f e].
      + eapply IH; [|exact H].
        eapply frame_pass_pool_ok; [|exact Hok0|exact Hm].
        intros ? ? ?. apply new_text_ok.
      + by apply ret_ok in H as [[= ] _]. }
  split; [exact Hok|].
  intros w1 st1 w2 Hr.
  destruct (refresh_pool_ok constants AiProviders.generate_ai_text_snippet
              procedural params settings st w1 st1 w2) as [Hok1 Hne];
    [intros ? ? ?; apply new_text_ok|done|done|].
  split; [done|]. split; [by apply Hok1|]. split; [by apply Hok1|].
  by apply pool_ok_reads.
Qed.

(** Seven passes in the studio and the text step that follows them. *)
Lemma pool_indices_in_bounds_witness :
  ∃ st w',
    frame_passes Studio.host module_constants
      AiProviders.generate_ai_text_snippet procedural
      (ImageProcessing.create_text_image_frame Studio.host)
      (Studio.params 10 5) Studio.app_config (StudioFacts.settings 10 5) 7
      initial Studio.world = (Ok (Next st), w')
    ∧ current_pool_index st < length (text_pool st)
    ∧ ∃ st1 w2 snippet line,
        refresh_text module_constants AiProviders.generate_ai_text_snippet
          procedural (Studio.params 10 5) (StudioFacts.settings 10 5) st w'
        = (Ok (Next st1), w2)
        ∧ py_index (text_pool st1) (Z.of_nat (current_pool_index st1))
          = Ok snippet
        ∧ py_index (lines snippet) (highlight_index snippet) = Ok line.
Proof.
  assert (∃ st w',
            frame_passes Studio.host module_constants
              AiProviders.generate_ai_text_snippet procedural
              (ImageProcessing.create_text_image_frame Studio.host)
              (Studio.params 10 5) Studio.app_config
              (StudioFacts.settings 10 5) 7 initial Studio.world
            = (Ok (Next st), w')
            ∧ length (text_pool st) = 3
            ∧ ∃ st1 w2,
                refresh_text module_constants
                  AiProviders.generate_ai_text_snippet procedural
                  (Studio.params 10 5) (StudioFacts.settings 10 5) st w'
                = (Ok (Next st1), w2)) as (st & w' & E & Hne & st1 & w2 & Er).
  { eexists. eexists. split; [vm_compute; reflexivity|].
    split; [vm_compute; reflexivity|]. eexists. eexists. vm_compute. reflexivity. }
  exists st, w'. split; [exact E|].
  destruct (pool_indices_in_bounds Studio.host module_constants
              (ImageProcessing.create_text_image_frame Studio.host)
              (Studio.params 10 5) Studio.app_config
              (StudioFacts.settings 10 5) 7 Studio.world st w' E)
    as [[Hcur _] Hstep].
  split.
  { apply Hcur. intros Hempty. rewrite Hempty in Hne. discriminate Hne. }
  destruct (Hstep w' st1 w2 Er) as (_ & _ & _ & snippet & line & Hs & Hl).
  exists st1, w2, snippet, line. exact (conj Er (conj Hs Hl)).
Defined.

(** * The frame *)

(** C1 fails down the frame.  Whatever the blur mode, the phrase in the bold
    font is drawn last, at the position the layout gives it: across, at
    [(W - hlWidth) / 2]; down, not at [(H - hlHeight) / 2] but on its line of
    the text block, [max(10, (H - line_height * len(text_lines)) / 2) +
    highlight_line_index * line_height]. *)
Theorem highlight_position host a w img w' :
  ImageProcessing.create_text_image_frame host a w = (Ok img, w') →
  ∃ font bold_font lay,
    load_fonts host a = Ok (font, bold_font)
    ∧ calculations host a font bold_font = Ok lay
    ∧ FrameFacts.overlay_position img
      = Some (((inject_Z (width a) - highlight_width_bold lay) / 2)%Q,
              (Qmax 10
                 ((inject_Z (height a)
                   - inject_Z (line_height lay
                               * Z.of_nat (length (text_lines a)))) / 2)
               + inject_Z (highlight_line_index a * line_height lay))%Q).
Proof.
  intros H.
  apply FrameFacts.create_text_image_frame_overlay in H
    as (font & bold_font & lay & under & Hf & Hc & ->).
  exists font, bold_font, lay. split; [done|]. split; [done|].
  destruct (FrameFacts.calculations_position _ _ _ _ _ Hc) as (Hx & Hb & Hy).
  cbn [FrameFacts.overlay_position]. by rewrite Hy, Hb, Hx.
Qed.

(** A frame of 1024 by 1024 with twelve lines, the phrase in the first, a
    font of 51 pixels and Gaussian blur: the phrase is 51 pixels high and is
    drawn 26 pixels from the top, 460.5 pixels above the middle. *)
Lemma highlight_position_witness :
  ∃ img w' x y,
    ImageProcessing.create_text_image_frame Studio.host
      (Studio.frame (str "paper.jpg") "gaussian") Studio.world = (Ok img, w')
    ∧ FrameFacts.overlay_position img = Some (x, y)
    ∧ (x == 206)%Q ∧ (y == 26)%Q
    ∧ ((inject_Z 1024 - inject_Z 51) / 2 - y == 460.5)%Q.
Proof.
  assert (∃ img w',
            ImageProcessing.create_text_image_frame Studio.host
              (Studio.frame (str "paper.jpg") "gaussian") Studio.world
            = (Ok img, w')) as (img & w' & E).
  { eexists. eexists. vm_compute. reflexivity. }
  destruct (highlight_position Studio.host
              (Studio.frame (str "paper.jpg") "gaussian") Studio.world img w'
              E) as (font & bold_font & lay & Hf & Hc & Hp).
  exists img, w'. eexists. eexists. split; [exact E|]. split; [exact Hp|].
  injection Hf as <- <-. injection Hc as <-.
  split; [reflexivity|]. split; reflexivity.
Defined.

(** ** What a picture is made of

    The pixel values of the array that [Image.fromarray] turns into the
    noise layer of a picture, and the boxes and the brightness of the dots
    that [draw.ellipse] puts on its grain, in the order of drawing. *)
Fixpoint noise_values (i : Img) : option (list Z) :=
  match i with
  | Image_fromarray _ _ values => Some values
  | Image_new _ _ _ _ | Image_open _ => None
  | Resize i _ _ | Crop i _ _ _ _ | Brightness i _ | Contrast i _
  | Sharpness i _ | GaussianBlur i _ | Ellipse i _ _ _ _ _
  | Rectangle i _ _ _ _ _ _ | Text i _ _ _ _ _ => noise_values i
  | Putalpha a b | Blend a b _ | Paste a b _ _ =>
      match noise_values a with
      | Some values => Some values
      | None => noise_values b
      end
  | Composite a b mask =>
      match noise_values a, noise_values b with
      | Some values, _ | None, Some values => Some values
      | None, None => noise_values mask
      end
  end.

Fixpoint grain_dots (i : Img) : list (Q * Q * Q * Q * Paint) :=
  match i with
  | Image_fromarray _ _ _ | Image_new _ _ _ _ | Image_open _ => []
  | Ellipse i x0 y0 x1 y1 fill => grain_dots i ++ [(x0, y0, x1, y1, fill)]
  | Resize i _ _ | Crop i _ _ _ _ | Brightness i _ | Contrast i _
  | Sharpness i _ | GaussianBlur i _ | Rectangle i _ _ _ _ _ _
  | Text i _ _ _ _ _ => grain_dots i
  | Putalpha a b | Blend a b _ | Paste a b _ _ =>
      grain_dots a ++ grain_dots b
  | Composite a b mask => grain_dots a ++ grain_dots b ++ grain_dots mask
  end.

(** C2, as the specification has it, fails: the procedural paper takes its
    noise from numpy's generator and its grain from [random], and neither is
    seeded.  The same frame of 72 by 64 on procedural paper, without blur,
    rendered twice in a row: the two pictures are made of different layers.
    The first value of the noise layer is 86 in the first and 168 in the
    second.  The first has a grain dot of brightness 208 on the pixels from
    (10, 36) to (11, 37), where the noise shows through; the second has no
    dot that touches those pixels, so that its paper has the plain
    background colour there.  In both pictures the phrase is drawn at
    (12, 29), 4 pixels high, above those pixels. *)
Lemma paper_is_drawn_afresh :
  ∃ first w1 second w2,
    ImageProcessing.create_text_image_frame Studio.host Studio.plain
      Studio.world = (Ok first, w1)
    ∧ ImageProcessing.create_text_image_frame Studio.host Studio.plain
        w1 = (Ok second, w2)
    ∧ first ≠ second
    ∧ (∃ noise noise',
         noise_values first = Some noise
         ∧ noise_values second = Some noise'
         ∧ noise !! 0 = Some 86%Z
         ∧ noise' !! 0 = Some 168%Z)
    ∧ grain_dots first !! 27 = Some (10%Q, 36%Q, 11%Q, 37%Q, Level 208)
    ∧ forallb (λ '(x0, y0, x1, y1, _),
                 Qltb x1 10 || Qltb 11 x0 || Qltb y1 36 || Qltb 37 y0)
        (grain_dots second) = true
    ∧ ∃ x y,
        FrameFacts.overlay_position first = Some (x, y)
        ∧ FrameFacts.overlay_position second = Some (x, y)
        ∧ (x == 12)%Q ∧ (y == 29)%Q.
Proof.
  eexists. eexists. eexists. eexists.
  split; [vm_compute; reflexivity|].
  split; [vm_compute; reflexivity|].
  split; [discriminate|].
  split.
  { eexists. eexists. split; [vm_compute; reflexivity|].
    split; [vm_compute; reflexivity|]. split; vm_compute; reflexivity. }
  split; [vm_compute; reflexivity|].
  split; [vm_compute; reflexivity|].
  eexists. eexists. split; [vm_compute; reflexivity|].
  split; [vm_compute; reflexivity|]. split; reflexivity.
Qed.

(** C2 amended: when the texture selector names a texture and the texture
    loads, rendering the same frame again gives the same picture, whatever
    the state of the random generators, and leaves them as they were. *)
Theorem rendering_repeatable host a w1 w2 :
  FrameFacts.texture_loads host a →
  fst (ImageProcessing.create_text_image_frame host a w1)
  = fst (ImageProcessing.create_text_image_frame host a w2)
  ∧ snd (ImageProcessing.create_text_image_frame host a w1) = w1.
Proof.
  intros Hl.
  destruct (FrameFacts.create_text_image_frame_loaded host a Hl)
    as [result Hr].
  by rewrite !Hr.
Qed.

(** The frame of the studio on [media/paper.jpg], before and after another
    rendering has used the generators. *)
Lemma rendering_repeatable_witness :
  FrameFacts.texture_loads Studio.host (Studio.frame (str "paper.jpg") "radial")
  ∧ fst (ImageProcessing.create_text_image_frame Studio.host
           (Studio.frame (str "paper.jpg") "radial") Studio.world)
    = fst (ImageProcessing.create_text_image_frame Studio.host
             (Studio.frame (str "paper.jpg") "radial")
             (snd (ImageProcessing.create_text_image_frame Studio.host
                     Studio.thumbnail Studio.world))).
Proof.
  assert (FrameFacts.texture_loads Studio.host
            (Studio.frame (str "paper.jpg") "radial")) as Hl.
  { split; [reflexivity|]. split; [discriminate|]. split; [reflexivity|].
    eexists. vm_compute. reflexivity. }
  split; [exact Hl|].
  apply (rendering_repeatable Studio.host
           (Studio.frame (str "paper.jpg") "radial") Studio.world _ Hl).
Defined.

(** * The snippets *)

(** C5 fails in the code.  Of the procedural generator:
    with the phrase of scenario B a line is cut at the space in position 80
    and closed with a full stop, 81 characters; the word "time" is in no line
    when the sentence structure drawn for its line has no slot of the part of
    speech drawn for it, and in all seven lines when it is also the word the
    vocabulary gives first.  Of the validation of the answers of the text
    service: twelve lines that all hold the phrase are accepted. *)
Lemma snippets_stray :
  (∃ ls idx r',
     TextGeneration.generate_random_text_snippet Studio.phrase 7 12
       (λ n, n * 2 + 10) = (Ok (Some ls, idx), r')
     ∧ existsb (λ line, length line =? 81) ls = true)
  ∧ (∃ ls idx r',
       TextGeneration.generate_random_text_snippet (str "time") 7 12
         (λ _, 2) = (Ok (Some ls, idx), r')
       ∧ length (List.filter (contains (str "time")) ls) = 0)
  ∧ (∃ ls idx r',
       TextGeneration.generate_random_text_snippet (str "time") 7 12
         (λ _, 0) = (Ok (Some ls, idx), r')
       ∧ length (List.filter (contains (str "time")) ls) = 7)
  ∧ (∃ ls idx w',
       AiProviders.generate_ai_text_snippet (Some Studio.client) "mistral"
         "mistral-large-latest" Studio.phrase 7 12
         (Studio.answering (replicate 12 Studio.line))
       = (Ok (Some ls, idx), w')
       ∧ length (List.filter (contains Studio.phrase) ls) = 12).
Proof.
  repeat split; eexists; eexists; eexists;
    (split; [vm_compute; reflexivity|vm_compute; reflexivity]).
Qed.

(** X22: In a snippet that the validation of the answers of the text
    service lets through, the highlight index points at a line that holds the
    phrase, the first of the lines that do, and every line has between 40 and
    100 characters. *)
Theorem validated_snippet client provider model highlighted_text min_lines
    max_lines w valid idx w' :
  AiProviders.generate_ai_text_snippet client provider model highlighted_text
    min_lines max_lines w = (Ok (Some valid, idx), w') →
  (0 <= idx < Z.of_nat (length valid))%Z
  ∧ Forall (λ line, 40 <= length line <= 100) valid
  ∧ ∃ line,
      valid !! Z.to_nat idx = Some line
      ∧ contains highlighted_text line = true
      ∧ ∀ j other,
          j < Z.to_nat idx → valid !! j = Some other →
          contains highlighted_text other = false.
Proof.
  intros H. apply AiFacts.generate_ai_text_snippet_some in H
    as (Hr & _ & Hband & Hline).
  done.
Qed.

(** The text service answers with the page of the studio. *)
Lemma validated_snippet_witness :
  ∃ valid idx w',
    AiProviders.generate_ai_text_snippet (Some Studio.client) "mistral"
      "mistral-large-latest" Studio.phrase 7 12
      (Studio.answering Studio.page) = (Ok (Some valid, idx), w')
    ∧ length valid = 12
    ∧ idx = 0%Z
    ∧ Forall (λ line, 40 <= length line <= 100) valid.
Proof.
  eexists. eexists. eexists.
  split; [vm_compute; reflexivity|].
  split; [reflexivity|]. split; [reflexivity|].
  apply (validated_snippet (Some Studio.client) "mistral"
           "mistral-large-latest" Studio.phrase 7 12
           (Studio.answering Studio.page) _ 0%Z
           (snd (AiProviders.generate_ai_text_snippet (Some Studio.client)
                   "mistral" "mistral-large-latest" Studio.phrase 7 12
                   (Studio.answering Studio.page)))).
  vm_compute. reflexivity.
Defined.

(** C6: for the phrase "Better Gaming Experience", [minLines = 7] and
    [maxLines = 12], whatever the random generator gives, the procedural
    generator returns a snippet of 7 to 12 lines, and the line at the
    returned highlight index holds the phrase. *)
Theorem scenario_b_snippet r :
  ∃ ls idx r',
    TextGeneration.generate_random_text_snippet
      (str "Better Gaming Experience") 7 12 r = (Ok (Some ls, idx), r')
    ∧ 7 <= length ls <= 12
    ∧ ∃ line,
        py_index ls idx = Ok line
        ∧ contains (str "Better Gaming Experience") line = true.
Proof.
  destruct (PhraseFacts.phrase_snippet 7 12 r)
    as (ls & idx & r' & H & Hn & _ & Hline); [lia|].
  exists ls, idx, r'. split; [exact H|]. split; [lia|]. exact Hline.
Qed.

(** * The lines beside the highlighted line *)
Module LineFacts.
Import PyStr PyStrFacts TextGeneration TextGenerationFacts.

(** The category whose placeholder starts [s], if one does. *)
Definition hole_at (s : text) : option Category :=
  List.find (λ c, startswith (placeholder c) s) categories.

(** A sentence structure as literal text and placeholders; [skip] characters
    of a placeholder are still to be passed, [lit] is the literal text read
    so far, last character first. *)
Fixpoint tokenize (s : text) (skip : nat) (lit : text) : list Tok :=
  match s with
  | [] => [Lit (rev lit)]
  | ch :: rest =>
      match skip with
      | S k => tokenize rest k lit
      | O =>
          match hole_at s with
          | Some c =>
              Lit (rev lit) :: Hole c
                :: tokenize rest (length (placeholder c) - 1) []
          | None => tokenize rest 0 (ch :: lit)
          end
      end
  end.

(** The character of the literal that closes a structure. *)
Definition closing (ts : list Tok) : option ascii :=
  match rev ts with
  | Lit [c] :: _ => Some c
  | _ => None
  end.

Definition ends (s : text) : bool :=
  endswith (str ".") s || endswith (str "?") s.

(** What is checked of the structures: the tokens spell the structure, no
    literal holds a brace, the shortest words give 23 characters or more,
    and a full stop or a question mark closes it. *)
Definition structure_ok (structure : text) : bool :=
  let ts := tokenize structure 0 [] in
  bool_decide (flatten ts = structure)
  && forallb tok_plain ts
  && (23 <=? list_sum (map lower ts))
  && match closing ts with
     | Some c => bool_decide (c = "."%char) || bool_decide (c = "?"%char)
     | None => false
     end.

Lemma structures_ok : forallb structure_ok structures = true.
Proof. vm_compute. reflexivity. Qed.

(** A sentence with every placeholder filled. *)
Definition whole (s : text) : Prop :=
  plain s = true ∧ ends s = true ∧ 23 <= length s.

Lemma plain_app a b : plain (a ++ b) = plain a && plain b.
Proof. unfold plain. apply forallb_app. Qed.

Lemma plain_drop n s : plain s = true → plain (drop n s) = true.
Proof.
  revert n. induction s as [|c s IH]; intros [|n]; simpl; try done.
  intros H. apply andb_true_iff in H as [_ H]. by apply IH.
Qed.

Lemma plain_take n s : plain s = true → plain (take n s) = true.
Proof.
  revert n. induction s as [|c s IH]; intros [|n]; simpl; try done.
  intros H. apply andb_true_iff in H as [-> H]. by rewrite IH.
Qed.

Lemma plain_contains s : plain s = true → contains (str "{") s = false.
Proof.
  induction s as [|c s IH]; [done|]. intros H. simpl in H.
  apply andb_true_iff in H as [Hc H]. rewrite contains_unfold, (IH H).
  assert (eqc "{"%char c = false) as Hneq.
  { destruct (eqc "{"%char c) eqn:E; [|done].
    apply eqc_true in E. subst c. done. }
  cbn [str list_ascii_of_string startswith]. by rewrite Hneq.
Qed.

Lemma replace_first_plain old new s :
  plain s = true → plain new = true →
  plain (replace_first old new s) = true.
Proof.
  intros Hs Hnew. induction s as [|c s IH].
  - rewrite replace_first_unfold. destruct (startswith old []); [|done].
    rewrite plain_app, Hnew. by rewrite plain_drop.
  - rewrite replace_first_unfold. destruct (startswith old (c :: s)).
    + rewrite plain_app, Hnew. by rewrite plain_drop.
    + simpl in Hs. apply andb_true_iff in Hs as [Hc Hs].
      change (plain (c :: replace_first old new s))
        with (negb (eqc c "{"%char) && plain (replace_first old new s)).
      by rewrite Hc, IH.
Qed.

Lemma ends_snoc s :
  ends s = true → ∃ s' c, s = s' ++ [c] ∧ (c = "."%char ∨ c = "?"%char).
Proof.
  unfold ends. intros H. apply orb_true_iff in H as [H | H];
    apply endswith_spec in H as [s' ->]; eauto.
Qed.

Lemma snoc_ends s c : c = "."%char ∨ c = "?"%char → ends (s ++ [c]) = true.
Proof.
  unfold ends. change (str ".") with ["."%char].
  change (str "?") with ["?"%char]. intros [-> | ->].
  - by rewrite (endswith_snoc s ".").
  - rewrite (endswith_snoc s "?"). apply orb_true_r.
Qed.

Lemma adj_plain w : w ∈ parts adj → plain w = true.
Proof.
  intros H. apply parts_word in H. unfold word_ok in H.
  by repeat (apply andb_true_iff in H as [H _]).
Qed.

Lemma whole_replace p w s :
  p = the_ ∨ p = a_ → w ∈ parts adj → whole s → contains p s = true →
  whole (replace_first p (p ++ w ++ str " ") s).
Proof.
  intros Hp Hw (Hplain & Hends & Hlen) Hc.
  assert (plain p = true ∧ p ≠ [] ∧ ("."%char ∉ p) ∧ ("?"%char ∉ p))
    as (Hpp & Hne & Hdot & Hq).
  { destruct Hp as [-> | ->]; (split; [done|]); (split; [done|]);
      split; apply (bool_decide_unpack _); by vm_compute. }
  split; [|split].
  - apply replace_first_plain; [done|].
    rewrite !plain_app, Hpp, (adj_plain w Hw). done.
  - apply ends_snoc in Hends as (s' & c & -> & Hcase).
    rewrite replace_first_snoc; [by apply snoc_ends|done|].
    by destruct Hcase as [-> | ->].
  - pose proof (replace_first_length p (p ++ w ++ str " ") s Hc) as Hl.
    rewrite length_app in Hl. lia.
Qed.

Lemma suffix_plain sfx : sfx ∈ suffixes → plain sfx = true.
Proof.
  intros H. assert (forallb plain suffixes = true) as Hall by (by vm_compute).
  rewrite forallb_forall in Hall. by apply Hall, list_elem_of_In.
Qed.

Lemma lengthen_whole s r :
  whole s →
  ∃ res r', lengthen lengthen_fuel s r = (Ok res, r') ∧ whole res.
Proof.
  intros Hs.
  destruct (lengthen_result whole) with (fuel := lengthen_fuel) (s := s)
    (r := r) as (s1 & res & r' & H & Hs1 & Hlen & Hcase).
  - intros s0 w Hs0 _ Hc Hw. apply whole_replace; [by left|done|done|done].
  - intros s0 w Hs0 _ _ Hc Hw. apply whole_replace; [by right|done|done|done].
  - unfold lengthen_fuel. lia.
  - unfold lengthen_fuel. lia.
  - done.
  - exists res, r'. split; [done|].
    destruct Hcase as [[_ ->] | (Hshort & _ & _ & Hend)]; [done|].
    destruct Hend as [[Hdot (sfx & Hsfx & ->)] | [_ ->]]; [|done].
    destruct Hs1 as (Hplain & _ & Hlong).
    apply endswith_spec in Hdot as [s' ->]. rewrite drop_last_snoc.
    rewrite plain_app in Hplain. apply andb_true_iff in Hplain as [Hplain _].
    rewrite length_app in Hlong. simpl in Hlong.
    split; [|split].
    + rewrite !plain_app, Hplain, (suffix_plain sfx Hsfx). done.
    + replace (s' ++ str " " ++ sfx ++ str ".")
        with ((s' ++ str " " ++ sfx) ++ ["."%char])
        by (by rewrite <- !app_assoc).
      apply snoc_ends. by left.
    + pose proof (PhraseFacts.suffix_length sfx Hsfx).
      rewrite !length_app. simpl. lia.
Qed.

Lemma closing_snoc ts c :
  closing ts = Some c → ∃ front, ts = front ++ [Lit [c]].
Proof.
  unfold closing. destruct (rev ts) as [|[[|c' [|? ?]]|?] l] eqn:E; try done.
  intros [= ->]. exists (rev l).
  rewrite <- (rev_involutive ts), E. done.
Qed.

Lemma worded_plain ts ts' :
  forallb tok_plain ts = true → Forall2 worded ts ts' →
  plain (flatten ts') = true.
Proof.
  intros Hp H. induction H as [|t t' ts ts' Ht _ IH]; [done|].
  simpl in Hp. apply andb_true_iff in Hp as [Hpt Hp].
  rewrite flatten_cons, plain_app, (IH Hp), andb_true_r.
  destruct t as [s|c]; simpl in Ht.
  - by subst t'.
  - destruct Ht as (w & Hw & ->). simpl. apply parts_word in Hw.
    unfold word_ok in Hw. by repeat (apply andb_true_iff in Hw as [Hw _]).
Qed.

Lemma filled_structure structure r :
  structure ∈ structures →
  ∃ res r',
    fill_categories categories None None structure r = (Ok res, r')
    ∧ whole res.
Proof.
  intros Hin. pose proof structures_ok as Hall.
  rewrite forallb_forall in Hall.
  specialize (Hall structure (proj1 (list_elem_of_In _ _) Hin)).
  unfold structure_ok in Hall. cbv zeta in Hall.
  set (ts := tokenize structure 0 []) in *.
  apply andb_true_iff in Hall as [Hall Hclose].
  apply andb_true_iff in Hall as [Hall Hlower].
  apply andb_true_iff in Hall as [Hspell Hplain].
  apply bool_decide_eq_true in Hspell. apply Nat.leb_le in Hlower.
  destruct (fill_all_tokens None ts r Hplain) as (ts' & r' & Hfill & Hw).
  rewrite Hspell in Hfill. exists (flatten ts'), r'. split; [done|].
  split; [|split].
  - by apply worded_plain with ts.
  - destruct (closing ts) as [c|] eqn:Ec; [|done].
    apply closing_snoc in Ec as [front Ets]. rewrite Ets in Hw.
    apply Forall2_app_inv_l in Hw as (front' & last' & _ & Hlast & ->).
    apply Forall2_cons_inv_l in Hlast as (t' & rest & Ht & Hrest & ->).
    apply Forall2_nil_inv_l in Hrest as ->. simpl in Ht. subst t'.
    rewrite flatten_app. change (flatten [Lit [c]]) with [c].
    apply snoc_ends. apply orb_true_iff in Hclose as [H | H];
      apply bool_decide_eq_true in H; auto.
  - pose proof (worded_length ts ts' Hw) as [Hlow _]. lia.
Qed.

Lemma fill_whole structure r :
  structure ∈ structures →
  ∃ res r',
    fill_sentence_structure structure None None r = (Ok res, r')
    ∧ whole res.
Proof.
  intros Hin. unfold fill_sentence_structure.
  destruct (filled_structure structure r Hin) as (s & r1 & H1 & Hs).
  unfold bind at 1. rewrite H1. by apply lengthen_whole.
Qed.

Lemma structure_fill_whole r :
  ∃ res r',
    (let* structure := generate_sentence_structure in
     fill_sentence_structure structure None None) r = (Ok res, r')
    ∧ whole res.
Proof.
  unfold generate_sentence_structure.
  destruct (choice_in structures r) as (st & H1 & Hin); [done|].
  unfold bind at 1. rewrite H1. by apply fill_whole.
Qed.

Lemma retry_short_keeps (P : text → Prop) left again :
  (∀ r, ∃ res r', again r = (Ok res, r') ∧ P res) →
  ∀ sentence r,
    P sentence →
    ∃ res r', retry_short left again sentence r = (Ok res, r') ∧ P res.
Proof.
  intros Hagain. induction left as [|left IH]; intros sentence r Hs;
    cbn [retry_short].
  - by exists sentence, r.
  - destruct (length sentence <? MIN_LINE_LENGTH); [|by exists sentence, r].
    destruct (Hagain r) as (s1 & r1 & H1 & Hs1).
    unfold bind at 1. rewrite H1. by apply IH.
Qed.

Lemma normal_line_whole r :
  ∃ res r', normal_line r = (Ok res, r') ∧ whole res.
Proof.
  unfold normal_line, generate_sentence_structure.
  destruct (choice_in structures r) as (st & H1 & Hin); [done|].
  unfold bind at 1. rewrite H1.
  destruct (fill_whole st (snd (Random.next r)) Hin) as (s & r2 & H2 & Hs).
  unfold bind at 1. rewrite H2.
  apply retry_short_keeps; [apply structure_fill_whole|done].
Qed.

(** A line as [fit_line] leaves it. *)
Definition fitted (line : text) : Prop :=
  50 <= length line ∧ plain line = true.

Lemma extra_phrase_ok e :
  e ∈ extra_phrases → 27 <= length e ∧ plain e = true.
Proof.
  intros H.
  assert (forallb (λ e, (27 <=? length e) && plain e) extra_phrases = true)
    as Hall by (by vm_compute).
  rewrite forallb_forall in Hall.
  specialize (Hall e (proj1 (list_elem_of_In _ _) H)).
  apply andb_true_iff in Hall as [Hlen Hplain].
  by apply Nat.leb_le in Hlen.
Qed.

Lemma extended s c e :
  plain (s ++ [c]) = true → 23 <= length (s ++ [c]) →
  e ∈ extra_phrases →
  fitted (s ++ e ++ [c]).
Proof.
  intros Hplain Hlen He. destruct (extra_phrase_ok e He) as [Hl Hp].
  rewrite plain_app in Hplain. apply andb_true_iff in Hplain as [Hs Hc].
  rewrite length_app in Hlen. simpl in Hlen. split.
  - rewrite !length_app. simpl. lia.
  - by rewrite !plain_app, Hs, Hp, Hc.
Qed.

Lemma fit_line_whole line r :
  whole line →
  ∃ line' r', fit_line line r = (Ok line', r') ∧ fitted line'.
Proof.
  intros (Hplain & Hends & Hlen). unfold fit_line.
  unfold MAX_LINE_LENGTH, MIN_LINE_LENGTH.
  destruct (80 <? length line) eqn:Emax.
  - apply Nat.ltb_lt in Emax.
    destruct (50 <? find_cut_point line 80) eqn:Ecut.
    + apply Nat.ltb_lt in Ecut.
      pose proof (PhraseFacts.find_cut_point_le line 80) as Hle.
      assert (length (take (find_cut_point line 80) line ++ str ".")
              = S (find_cut_point line 80)) as Hl.
      { rewrite length_app, length_take, Nat.min_l by lia.
        change (length (str ".")) with 1. lia. }
      replace (length (take (find_cut_point line 80) line ++ str ".") <? 50)
        with false by (symmetry; apply Nat.ltb_ge; rewrite Hl; lia).
      eexists _, _. split; [reflexivity|]. split; [rewrite Hl; lia|].
      by rewrite plain_app, plain_take.
    + replace (length line <? 50) with false
        by (symmetry; apply Nat.ltb_ge; lia).
      eexists _, _. split; [reflexivity|]. split; [lia|done].
  - destruct (length line <? 50) eqn:Emin;
      [|apply Nat.ltb_ge in Emin; eexists _, _; split; [reflexivity|];
        by split].
    apply ends_snoc in Hends as (s & c & -> & Hc).
    destruct (choice_in extra_phrases r) as (e & He & Hin); [done|].
    change (str ".") with ["."%char]. change (str "?") with ["?"%char].
    destruct Hc as [-> | ->].
    + rewrite (endswith_snoc s "."). unfold bind. rewrite He.
      rewrite drop_last_snoc. eexists _, _. split; [reflexivity|].
      by apply (extended s "."%char e).
    + replace (endswith ["."%char] (s ++ ["?"%char])) with false.
      * rewrite (endswith_snoc s "?"). unfold bind. rewrite He.
        rewrite drop_last_snoc. eexists _, _. split; [reflexivity|].
        by apply (extended s "?"%char e).
      * symmetry. unfold endswith. rewrite rev_app_distr. done.
Qed.

(** The lines of [build_lines], the highlighted one apart. *)
Lemma build_lines_others highlighted_text idx :
  ∀ todo i r,
    ∃ ls r',
      build_lines highlighted_text idx i todo r = (Ok ls, r')
      ∧ length ls = todo
      ∧ ∀ k line, ls !! k = Some line → (i + Z.of_nat k)%Z ≠ idx →
                  whole line.
Proof.
  induction todo as [|todo IH]; intros i r; cbn [build_lines].
  - exists [], r. by repeat split.
  - assert (∃ line r1,
              (if (i =? idx)%Z then highlighted_line highlighted_text
               else normal_line) r = (Ok line, r1)
              ∧ (i ≠ idx → whole line)) as (line & r1 & H1 & Hl).
    { destruct (i =? idx)%Z eqn:E.
      - apply Z.eqb_eq in E.
        destruct (highlighted_line_total highlighted_text r)
          as (line & r1 & H).
        exists line, r1. split; [done|]. intros Hne. done.
      - destruct (normal_line_whole r) as (line & r1 & H & Hw).
        by exists line, r1. }
    unfold bind at 1. rewrite H1.
    destruct (IH (i + 1)%Z r1) as (ls & r2 & H2 & Hlen & Hat).
    unfold bind at 1. rewrite H2. unfold ret.
    exists (line :: ls), r2. split; [done|]. split; [simpl; lia|].
    intros [|k] l Hk Hik.
    + injection Hk as <-. apply Hl. lia.
    + simpl in Hk. apply (Hat k l Hk). lia.
Qed.

(** The lines of [fit_lines], one by one. *)
Lemma fit_lines_each :
  ∀ ls r,
    ∃ ls' r',
      fit_lines ls r = (Ok ls', r')
      ∧ length ls' = length ls
      ∧ ∀ k line line', ls !! k = Some line → ls' !! k = Some line' →
                        whole line → fitted line'.
Proof.
  induction ls as [|l ls IH]; intros r; cbn [fit_lines].
  - exists [], r. by repeat split.
  - destruct (fit_line_total l r) as (l' & r1 & H1).
    unfold bind at 1. rewrite H1.
    destruct (IH r1) as (ls' & r2 & H2 & Hlen & Hat).
    unfold bind at 1. rewrite H2. unfold ret.
    exists (l' :: ls'), r2. split; [done|]. split; [simpl; lia|].
    intros [|k] line line' Hk Hk' Hw.
    + injection Hk as <-. injection Hk' as <-.
      destruct (fit_line_whole l r Hw) as (l2 & r3 & H3 & Hf).
      rewrite H1 in H3. by injection H3 as -> _.
    + simpl in Hk, Hk'. by apply (Hat k line line').
Qed.

End LineFacts.

(** X3: Every line of a snippet of the procedural generator beside the
    highlighted line has 50 characters or more and no placeholder left in it,
    whatever the phrase and the bounds. *)
Theorem other_lines_are_filled highlighted_text min_lines max_lines r ls idx
    r' :
  TextGeneration.generate_random_text_snippet highlighted_text min_lines
    max_lines r = (Ok (Some ls, idx), r') →
  ∀ k line,
    ls !! k = Some line → Z.of_nat k ≠ idx →
    50 <= length line ∧ PyStr.contains (str "{") line = false.
Proof.
  unfold TextGeneration.generate_random_text_snippet. intros H.
  bind_inv H. bind_inv H. bind_inv H. bind_inv H.
  destruct (Z.of_nat (length a2) <? min_lines)%Z;
    apply ret_ok in H as [[= <- <-] _].
  destruct (LineFacts.build_lines_others highlighted_text a0 (Z.to_nat a) 0%Z
              w0) as (built & r1 & Hb & Hlen & Hwhole).
  rewrite Hm1 in Hb. injection Hb as <- <-.
  destruct (LineFacts.fit_lines_each a1 w1) as (fit & r2 & Hf & Hlen' & Hfit).
  rewrite Hm2 in Hf. injection Hf as <- <-.
  intros k line Hk Hne.
  destruct (lookup_lt_is_Some_2 a1 k) as [before Hbefore].
  { rewrite <- Hlen'. by apply lookup_lt_Some in Hk. }
  destruct (Hfit k before line Hbefore Hk) as [Hlong Hplain].
  { apply (Hwhole k before Hbefore). lia. }
  split; [done|]. by apply LineFacts.plain_contains.
Qed.

(** The word "time" between 7 and 12 lines. *)
Lemma other_lines_are_filled_witness :
  ∃ ls idx r',
    TextGeneration.generate_random_text_snippet (str "time") 7 12 (λ _, 2)
    = (Ok (Some ls, idx), r')
    ∧ ∀ k line,
        ls !! k = Some line → Z.of_nat k ≠ idx →
        50 <= length line ∧ PyStr.contains (str "{") line = false.
Proof.
  eexists. eexists. eexists.
  split; [vm_compute; reflexivity|].
  apply (other_lines_are_filled (str "time") 7 12 (λ _, 2) _ _
           (snd (TextGeneration.generate_random_text_snippet (str "time") 7
                   12 (λ _, 2)))).
  vm_compute. reflexivity.
Defined.

(** * Further properties of the text generators *)

(** X1: Whatever the phrase, when one of the two bounds is at least one the
    procedural generator returns lines, never [(None, -1)] and never an
    exception: between [max(1, min_lines)] and [max(min_lines, max_lines)] of
    them, with the highlight index among them. *)
Theorem procedural_snippet_shape highlighted_text min_lines max_lines r :
  (1 <= Z.max min_lines max_lines)%Z →
  ∃ ls idx r',
    TextGeneration.generate_random_text_snippet highlighted_text min_lines
      max_lines r = (Ok (Some ls, idx), r')
    ∧ (Z.max 1 min_lines <= Z.of_nat (length ls)
       <= Z.max min_lines max_lines)%Z
    ∧ (0 <= idx < Z.of_nat (length ls))%Z.
Proof.
  intros Hrange.
  destruct (TextGenerationFacts.generate_result (λ _, True) (λ _, True)
              highlighted_text min_lines max_lines r)
    as (ls & idx & r' & H & Hn & Hi & _).
  - lia.
  - intros r0.
    destruct (TextGenerationFacts.highlighted_line_total highlighted_text r0)
      as (line & r1 & Hl).
    by exists line, r1.
  - intros line r0 _.
    destruct (TextGenerationFacts.fit_line_total line r0) as (line' & r1 & Hl).
    by exists line', r1.
  - by exists ls, idx, r'.
Qed.

(** The word "time", at least 3 lines, at most 5. *)
Lemma procedural_snippet_shape_witness :
  ∃ ls idx r',
    TextGeneration.generate_random_text_snippet (str "time") 3 5 (λ n, n)
    = (Ok (Some ls, idx), r')
    ∧ (3 <= Z.of_nat (length ls) <= 5)%Z
    ∧ (0 <= idx < Z.of_nat (length ls))%Z.
Proof.
  apply (procedural_snippet_shape (str "time") 3 5 (λ n, n)). simpl. lia.
Defined.

(** X2: With both bounds below one the first draw of the generator,
    [random.randint(1, max(min_lines, max_lines))], has an empty range: the
    generator raises [ValueError] and has drawn nothing. *)
Theorem procedural_snippet_empty_range highlighted_text min_lines max_lines r :
  (min_lines <= 0)%Z → (max_lines <= 0)%Z →
  TextGeneration.generate_random_text_snippet highlighted_text min_lines
    max_lines r = (Raised ValueError, r).
Proof.
  intros Hmin Hmax. unfold TextGeneration.generate_random_text_snippet, bind.
  unfold Random.randint at 1.
  replace (Z.max min_lines max_lines <? Z.max 1 min_lines)%Z with true;
    [done|].
  symmetry. apply Z.ltb_lt. lia.
Qed.

Lemma procedural_snippet_empty_range_witness :
  TextGeneration.generate_random_text_snippet (str "time") 0 0 (λ n, n)
  = (Raised ValueError, λ n, n).
Proof.
  apply (procedural_snippet_empty_range (str "time") 0 0 (λ n, n)); lia.
Defined.

(** * The answers of the text service *)
Module AnswerFacts.
Import PyStr AiProviders.

(** The lines of an answer that [process_ai_response] keeps: [filtered_lines]
    before the padding. *)
Definition kept_lines (content : text) : list text :=
  map unnumbered
    (filter (λ line, negb (skipped line))
       (map strip
          (filter (λ line, bool_decide (strip line ≠ []))
             (split_on "010"%char
                (strip (replace_all (str "**") []
                          (replace_all (str "```") [] content))))))).

(** The altered copy of a line that pads a short answer. *)
Definition altered (source_line : text) : text :=
  if 3 <? length (split source_line)
  then capitalize (join (str " ") (rev (split source_line))) ++ str "."
  else source_line.

Lemma duplicate_source original highlight_index i :
  original ≠ [] →
  ∃ j source_line,
    original !! j = Some source_line
    ∧ (1 < length original → Z.of_nat j ≠ highlight_index)
    ∧ duplicate original highlight_index i = Ok (altered source_line).
Proof.
  intros Hne. unfold duplicate. cbv zeta.
  assert (0 < length original) as Hlen by (destruct original; simpl; [done|lia]).
  destruct (length original =? 0) eqn:E0; [apply Nat.eqb_eq in E0; lia|].
  set (n := length original) in *.
  set (j := if (Z.of_nat (i mod n) =? highlight_index)%Z && (1 <? n)
            then (i mod n + 1) mod n else i mod n).
  assert (j < n) as Hj.
  { unfold j. destruct (_ && _); apply Nat.mod_upper_bound; lia. }
  destruct (lookup_lt_is_Some_2 original j Hj) as [source_line Hs].
  exists j, source_line. split; [done|]. split.
  - intros Hn. unfold j.
    destruct (Z.of_nat (i mod n) =? highlight_index)%Z eqn:Eh.
    + apply Z.eqb_eq in Eh. replace (1 <? n) with true
        by (symmetry; by apply Nat.ltb_lt).
      cbn [andb]. rewrite <- Eh. intros Heq. apply Nat2Z.inj in Heq.
      pose proof (Nat.mod_upper_bound i n ltac:(lia)) as Hi.
      destruct (decide (i mod n + 1 = n)) as [Hlast | Hnot].
      * rewrite Hlast, Nat.Div0.mod_same in Heq. lia.
      * rewrite Nat.mod_small in Heq by lia. lia.
    + cbn [andb]. by apply Z.eqb_neq in Eh.
  - fold j. rewrite Hs. unfold altered. by destruct (3 <? _).
Qed.

Lemma duplicates_sources original highlight_index passes :
  original ≠ [] →
  ∃ extra,
    duplicates original highlight_index passes = Ok extra
    ∧ length extra = length passes
    ∧ Forall (λ line,
                ∃ j source_line,
                  original !! j = Some source_line
                  ∧ (1 < length original → Z.of_nat j ≠ highlight_index)
                  ∧ line = altered source_line) extra.
Proof.
  intros Hne. induction passes as [|i passes IH].
  - exists []. by repeat split.
  - destruct IH as (extra & He & Hl & Hf).
    destruct (duplicate_source original highlight_index i Hne)
      as (j & source_line & Hs & Hh & Hd).
    exists (altered source_line :: extra). cbn [duplicates].
    rewrite Hd, He. split; [done|]. split; [simpl; lia|].
    constructor; [|done]. by exists j, source_line.
Qed.

End AnswerFacts.

(** X4: An answer of the text service in ASCII with at least one line that is
    kept comes back as those lines followed by the padding: as many altered
    copies as it takes to have 12 lines, each made from a kept line that is
    not the highlight line when there is more than one line. The highlight
    index is that of the first kept line with the phrase, or [-1]. *)
Theorem answer_is_padded content highlighted_text :
  PyStr.isascii content = true →
  AnswerFacts.kept_lines content ≠ [] →
  ∃ extra,
    AiProviders.process_ai_response content highlighted_text
    = Ok (AnswerFacts.kept_lines content ++ extra,
          first_index (PyStr.contains highlighted_text)
            (AnswerFacts.kept_lines content))
    ∧ length (AnswerFacts.kept_lines content ++ extra)
      = Nat.max 12 (length (AnswerFacts.kept_lines content))
    ∧ Forall (λ line,
                ∃ j source_line,
                  AnswerFacts.kept_lines content !! j = Some source_line
                  ∧ (1 < length (AnswerFacts.kept_lines content) →
                     Z.of_nat j
                     ≠ first_index (PyStr.contains highlighted_text)
                         (AnswerFacts.kept_lines content))
                  ∧ line = AnswerFacts.altered source_line) extra.
Proof.
  intros _ Hne. unfold AiProviders.process_ai_response. cbv zeta.
  fold (AnswerFacts.kept_lines content).
  set (kept := AnswerFacts.kept_lines content) in *.
  unfold AiProviders.MIN_REQUIRED_LINES.
  destruct (length kept <? 12) eqn:E.
  - apply Nat.ltb_lt in E.
    destruct (AnswerFacts.duplicates_sources kept
                (first_index (PyStr.contains highlighted_text) kept)
                (seq 0 (12 - length kept)) Hne) as (extra & -> & Hl & Hf).
    exists extra. split; [done|]. split; [|done].
    rewrite length_app, Hl, length_seq. lia.
  - apply Nat.ltb_ge in E. exists []. rewrite app_nil_r.
    split; [done|]. split; [lia|constructor].
Qed.

(** Three short lines, the phrase in the second. *)
Lemma answer_is_padded_witness :
  ∃ lines,
    AiProviders.process_ai_response
      (str "1. First line" ++ ["010"%char]
       ++ str "- a bullet that is dropped" ++ ["010"%char]
       ++ str "**Better Gaming Experience** for every single player"
       ++ ["010"%char] ++ str "Last line of the answer")
      Studio.phrase = Ok (lines, 1%Z)
    ∧ length lines = 12.
Proof.
  destruct (answer_is_padded
              (str "1. First line" ++ ["010"%char]
               ++ str "- a bullet that is dropped" ++ ["010"%char]
               ++ str "**Better Gaming Experience** for every single player"
               ++ ["010"%char] ++ str "Last line of the answer")
              Studio.phrase) as (extra & H & Hlen & _).
  - reflexivity.
  - vm_compute. discriminate.
  - eexists. split; [exact H|exact Hlen].
Defined.

(** An answer of which no line is kept makes the padding divide by zero:
    [i % original_line_count] with no line. *)
Lemma answer_without_lines content highlighted_text :
  AnswerFacts.kept_lines content = [] →
  AiProviders.process_ai_response content highlighted_text
  = Raised ZeroDivisionError.
Proof.
  intros Hempty. unfold AiProviders.process_ai_response. cbv zeta.
  fold (AnswerFacts.kept_lines content). by rewrite Hempty.
Qed.

(** The world after one request to the text service. *)
Definition asked_once (w : World) : World :=
  {| py_random := py_random w; np_random := np_random w;
     service := λ n, service w (S n) |}.

Lemma ai_request_unusable client provider model highlighted_text min_lines
    max_lines w :
  AiProviders.known_provider provider = true →
  service w 0 = None
  ∨ (∃ content, service w 0 = Some content
                ∧ AnswerFacts.kept_lines content = []) →
  AiProviders.generate_ai_text_snippet (Some client) provider model
    highlighted_text min_lines max_lines w
  = (Ok (None, (-1)%Z), asked_once w).
Proof.
  intros Hk Hs.
  unfold AiProviders.generate_ai_text_snippet, try_except.
  rewrite Hk.
  cbv [bind AiProviders.generate_provider_text AiProviders.ask_service
       of_result ret].
  destruct Hs as [-> | (content & -> & Hempty)]; [done|].
  by rewrite (answer_without_lines content highlighted_text Hempty).
Qed.

(** X5: [generate_ai_text_snippet] lets no exception out and answers every
    failure with [(None, -1)]: no client or a provider it does not know
    (nothing is asked of the service), a request that raises, and an answer of
    which no line is kept, whose padding divides by zero. *)
Theorem ai_snippet_failures provider model highlighted_text min_lines
    max_lines w :
  AiProviders.generate_ai_text_snippet None provider model highlighted_text
    min_lines max_lines w = (Ok (None, (-1)%Z), w)
  ∧ (∀ client,
       AiProviders.known_provider provider = false →
       AiProviders.generate_ai_text_snippet (Some client) provider model
         highlighted_text min_lines max_lines w = (Ok (None, (-1)%Z), w))
  ∧ (∀ client,
       AiProviders.known_provider provider = true →
       service w 0 = None
       ∨ (∃ content, service w 0 = Some content
                     ∧ AnswerFacts.kept_lines content = []) →
       AiProviders.generate_ai_text_snippet (Some client) provider model
         highlighted_text min_lines max_lines w
       = (Ok (None, (-1)%Z), asked_once w))
  ∧ (∀ client,
       ∃ lines idx w',
         AiProviders.generate_ai_text_snippet client provider model
           highlighted_text min_lines max_lines w = (Ok (lines, idx), w')
         ∧ (lines = None → idx = (-1)%Z)).
Proof.
  split; [done|]. split; [|split].
  - intros client Hk. unfold AiProviders.generate_ai_text_snippet, try_except.
    by rewrite Hk.
  - intros client. apply ai_request_unusable.
  - intros client.
    destruct (AiFacts.generate_ai_text_snippet_returns client provider model
                highlighted_text min_lines max_lines w)
      as ([lines idx] & w' & H).
    exists lines, idx, w'. split; [done|]. intros ->.
    revert H. unfold AiProviders.generate_ai_text_snippet.
    destruct client as [c|]; [|by intros [= <- _]].
    unfold try_except.
    match goal with
    | |- context [bind ?m ?k w] => destruct (bind m k w) as [[x|e|] w1] eqn:E
    end; [|by intros [= <- _]|done].
    intros [= -> _]. bind_inv E. destruct a as [ls hi].
    apply ret_ok in E as [E _]. revert E. unfold AiProviders.validate.
    repeat case_match; by intros [= <-].
Qed.

(** ** The text step of the loop with a text service *)

(** The settings of the studio with a client of the text service. *)
Definition connected : VideoGenerator.Settings :=
  {| VideoGenerator.min_lines := 7;
     VideoGenerator.max_lines := 12;
     VideoGenerator.vertical_spread_factor := 1.3;
     VideoGenerator.total_frames := 50;
     VideoGenerator.font_size := 51;
     VideoGenerator.ai_client := Some Studio.client;
     VideoGenerator.font_paths := [Studio.arial] |}.

Lemma acceptable_plausible line :
  AiProviders.acceptable line = true → plausible line = true.
Proof.
  unfold AiProviders.acceptable, plausible. intros H.
  repeat (apply andb_true_iff in H as [H ?]).
  apply Nat.leb_le in H. apply Nat.leb_le in H0.
  apply negb_true_iff. apply orb_false_iff. split.
  - apply orb_false_iff. split.
    + apply orb_false_iff. split.
      * apply Nat.ltb_ge. lia.
      * by apply negb_false_iff.
    + apply Nat.ltb_ge. lia.
  - apply negb_false_iff. cbn [existsb].
    apply orb_true_iff in H5 as [H5 | H5].
    + apply orb_true_iff in H5 as [-> | H5]; [done|].
      rewrite H5. by rewrite !orb_true_r.
    + rewrite H5. by rewrite !orb_true_r.
Qed.

Lemma generate_ai_text_snippet_acceptable client provider model
    highlighted_text min_lines max_lines w valid idx w' :
  AiProviders.generate_ai_text_snippet client provider model highlighted_text
    min_lines max_lines w = (Ok (Some valid, idx), w') →
  valid ≠ [] ∧ idx ≠ (-1)%Z
  ∧ Forall (λ line, AiProviders.acceptable line = true) valid.
Proof.
  unfold AiProviders.generate_ai_text_snippet. destruct client as [c|]; [|done].
  unfold try_except.
  match goal with
  | |- context [bind ?m ?k w] => destruct (bind m k w) as [[x|e|] w1] eqn:E
  end; try done.
  intros [= -> ->]. bind_inv E. destruct a as [ls hi].
  apply ret_ok in E as [E _]. revert E. unfold AiProviders.validate.
  destruct ls as [[|l ls]|]; try done.
  destruct (hi =? -1)%Z; [done|].
  destruct (filter AiProviders.acceptable (l :: ls)) as [|v vs] eqn:Ef; [done|].
  destruct (min_lines <=? _)%Z; [|done].
  destruct (first_index _ _ =? -1)%Z eqn:Ei; [done|].
  intros [= <- <-]. split; [done|]. split; [by apply Z.eqb_neq in Ei|].
  rewrite <- Ef. apply Forall_forall. intros y Hy.
  apply list_elem_of_filter in Hy as [Hy _]. by apply Is_true_true.
Qed.

(** X6: The loop checks the lines of the text service once more (40 characters,
    a space, five words, a mark of punctuation), and that check never turns a
    snippet of [generate_ai_text_snippet] down: the first attempt that returns
    lines is the snippet of the pool. *)
Theorem ai_lines_pass_the_loop params settings left w valid idx w' :
  AiProviders.generate_ai_text_snippet (ai_client settings)
    (p_ai_provider params)
    (default "mistral-large-latest" (p_mistral_model params))
    (p_highlighted_text params) (min_lines settings) (max_lines settings) w
  = (Ok (Some valid, idx), w') →
  forallb plausible valid = true
  ∧ ai_attempts AiProviders.generate_ai_text_snippet params settings (S left)
      w
    = (Ok (Some {| lines := valid; highlight_index := idx |}), w').
Proof.
  intros H.
  destruct (generate_ai_text_snippet_acceptable _ _ _ _ _ _ _ _ _ _ H)
    as (Hne & Hidx & Hacc).
  assert (forallb plausible valid = true) as Hp.
  { apply forallb_forall. intros line Hin.
    apply acceptable_plausible.
    rewrite Forall_forall in Hacc. apply Hacc. by apply list_elem_of_In. }
  split; [done|]. cbn [ai_attempts]. rewrite (bind_eq_ok _ _ _ _ _ H).
  unfold usable. destruct valid as [|l ls]; [done|].
  apply Z.eqb_neq in Hidx. rewrite Hidx. cbn [lines]. by rewrite Hp.
Qed.

(** The text service answers with the page of the studio. *)
Lemma ai_lines_pass_the_loop_witness :
  ∃ valid w',
    ai_attempts AiProviders.generate_ai_text_snippet (Studio.params 10 5)
      connected 3 (Studio.answering Studio.page)
    = (Ok (Some {| lines := valid; highlight_index := 0 |}), w')
    ∧ length valid = 12.
Proof.
  assert (∃ valid w',
            AiProviders.generate_ai_text_snippet (ai_client connected)
              (p_ai_provider (Studio.params 10 5))
              (default "mistral-large-latest"
                 (p_mistral_model (Studio.params 10 5)))
              (p_highlighted_text (Studio.params 10 5))
              (min_lines connected) (max_lines connected)
              (Studio.answering Studio.page)
            = (Ok (Some valid, 0%Z), w')
            ∧ length valid = 12) as (valid & w' & E & Hlen).
  { eexists. eexists. split; vm_compute; reflexivity. }
  exists valid, w'. split; [|exact Hlen].
  exact (proj2 (ai_lines_pass_the_loop (Studio.params 10 5) connected 2
                  (Studio.answering Studio.page) valid 0%Z w' E)).
Defined.

(** [w'] is [w] after [k] requests to the text service. *)
Definition asked (k : nat) (w w' : World) : Prop :=
  ∀ n, service w' n = service w (k + n).

Lemma asked_trans j k w w1 w2 :
  asked j w w1 → asked k w1 w2 → asked (j + k) w w2.
Proof.
  intros H1 H2 n. rewrite H2, H1. f_equal. lia.
Qed.

Lemma generate_ai_text_snippet_asked client provider model highlighted_text
    min_lines max_lines w :
  ∃ k, k <= 1
       ∧ asked k w
           (snd (AiProviders.generate_ai_text_snippet client provider model
                   highlighted_text min_lines max_lines w)).
Proof.
  unfold AiProviders.generate_ai_text_snippet.
  destruct client as [c|]; [|exists 0; split; [lia|done]].
  unfold try_except.
  cbv [bind AiProviders.generate_provider_text AiProviders.ask_service
       of_result ret].
  destruct (AiProviders.known_provider provider);
    [|exists 0; split; [lia|done]].
  exists 1. split; [lia|].
  destruct (service w 0); [|done].
  by destruct (AiProviders.process_ai_response _ _) as [[? ?]| |].
Qed.

Lemma random_text_asked params settings w :
  asked 0 w (snd (random_text procedural params settings w)).
Proof.
  unfold random_text, bind, procedural, with_random.
  destruct (TextGeneration.generate_random_text_snippet _ _ _ _)
    as [[res|e|] r]; done.
Qed.

Lemma ai_attempts_asked params settings left w :
  ∃ k, k <= left
       ∧ asked k w
           (snd (ai_attempts AiProviders.generate_ai_text_snippet params
                   settings left w)).
Proof.
  revert w. induction left as [|left IH]; intros w; cbn [ai_attempts].
  - exists 0. split; [lia|done].
  - destruct (generate_ai_text_snippet_asked (ai_client settings)
                (p_ai_provider params)
                (default "mistral-large-latest" (p_mistral_model params))
                (p_highlighted_text params) (min_lines settings)
                (max_lines settings) w) as (j & Hj & Hasked).
    unfold bind.
    destruct (AiProviders.generate_ai_text_snippet _ _ _ _ _ _ w)
      as [[result|e|] w1]; cbn [snd] in *;
      [|exists j; split; [lia|done]|exists j; split; [lia|done]].
    destruct (IH w1) as (k & Hk & Hrest).
    destruct (usable result) as [snippet|];
      [|exists (j + k); split; [lia|by eapply asked_trans]].
    destruct (forallb plausible (lines snippet));
      [exists j; split; [lia|done]
      |exists (j + k); split; [lia|by eapply asked_trans]].
Qed.

(** X7: A snippet costs at most three requests to the text service, and none
    without a client; after the third attempt without a usable answer the
    procedural generator is called, and it asks nothing of the service. *)
Theorem three_requests_per_snippet params settings w :
  (∃ k, k <= 3
        ∧ asked k w
            (snd (new_text AiProviders.generate_ai_text_snippet procedural
                    params settings w)))
  ∧ (ai_client settings = None →
     asked 0 w
       (snd (new_text AiProviders.generate_ai_text_snippet procedural params
               settings w))).
Proof.
  unfold new_text. destruct (ai_client settings) as [c|] eqn:Ec.
  - split; [|done].
    destruct (ai_attempts_asked params settings 3 w) as (k & Hk & Hasked).
    unfold bind.
    destruct (ai_attempts _ _ _ _ w) as [[found|e|] w1]; cbn [snd] in *;
      [|by exists k|by exists k].
    destruct found as [snippet|]; [by exists k|].
    exists (k + 0). split; [lia|].
    eapply asked_trans; [done|apply random_text_asked].
  - split; [|intros _; apply random_text_asked].
    exists 0. split; [lia|apply random_text_asked].
Qed.

(** * The size of the pictures *)

(** X8: The background that [create_paper_texture] returns, a texture from a
    file or the procedural paper, has the size that was asked for, whatever the
    size of the texture file. *)
Theorem paper_texture_size host width height color noise_intensity
    grain_size texture_name media_dir w img w' :
  Textures.create_paper_texture host width height color noise_intensity
    grain_size texture_name media_dir w = (Ok (Some img), w') →
  Textures.size host img = (width, height).
Proof.
  apply SizeFacts.create_paper_texture_size.
Qed.

(** A texture of 1024 by 1024 for a frame of 640 by 360. *)
Lemma paper_texture_size_witness :
  ∃ img,
    Textures.create_paper_texture Studio.host 640 360 "#FFFFFF" 0.08 2
      (Some (str "paper.jpg")) (Some (str "media")) Studio.world
    = (Ok (Some img), Studio.world)
    ∧ Textures.size Studio.host img = (640, 360)%Z.
Proof.
  eexists. split; [vm_compute; reflexivity|].
  apply (paper_texture_size Studio.host 640 360 "#FFFFFF" 0.08 2
           (Some (str "paper.jpg")) (Some (str "media")) Studio.world _
           Studio.world).
  vm_compute. reflexivity.
Defined.

(** X9: A frame that [create_text_image_frame] returns has the width and the
    height of its arguments: in every blur mode, on a texture or on paper. *)
Theorem frame_size host a w img w' :
  ImageProcessing.create_text_image_frame host a w = (Ok img, w') →
  Textures.size host img = (width a, height a).
Proof.
  apply SizeFacts.create_text_image_frame_size.
Qed.

(** The frame of the studio with radial blur. *)
Lemma frame_size_witness :
  ∃ img w',
    ImageProcessing.create_text_image_frame Studio.host
      (Studio.frame (str "paper.jpg") "radial") Studio.world = (Ok img, w')
    ∧ Textures.size Studio.host img = (1024, 1024)%Z.
Proof.
  assert (∃ img w',
            ImageProcessing.create_text_image_frame Studio.host
              (Studio.frame (str "paper.jpg") "radial") Studio.world
            = (Ok img, w')) as (img & w' & E).
  { eexists. eexists. vm_compute. reflexivity. }
  exists img, w'. split; [exact E|].
  exact (frame_size Studio.host (Studio.frame (str "paper.jpg") "radial")
           Studio.world img w' E).
Defined.

(** * Textures that do not load *)

(** The arguments of a frame with the texture selector set to ['none']. *)
Definition on_paper (a : FrameArgs) : FrameArgs :=
  {| width := width a; height := height a;
     text_lines := text_lines a;
     highlight_line_index := highlight_line_index a;
     highlighted_text := highlighted_text a;
     font_path := font_path a;
     ImageProcessing.font_size := ImageProcessing.font_size a;
     text_color := text_color a;
     bg_color := bg_color a;
     highlight_color := highlight_color a;
     blur_type := blur_type a;
     blur_radius := blur_radius a;
     radial_sharp_radius_factor := radial_sharp_radius_factor a;
     ImageProcessing.vertical_spread_factor :=
       ImageProcessing.vertical_spread_factor a;
     y_offset := y_offset a;
     background_texture := Some (str "none");
     media_dir := media_dir a |}.

Lemma draw_lines_on_paper host a lay font lines :
  ∀ i y img_base img_sharp,
    draw_lines host (on_paper a) lay font i lines y img_base img_sharp
    = draw_lines host a lay font i lines y img_base img_sharp.
Proof.
  induction lines as [|line rest IH]; intros i y b s; [done|].
  cbn [draw_lines].
  change (line_position host (on_paper a) lay font i line)
    with (line_position host a lay font i line).
  destruct (line_position host a lay font i line) as [x|e|]; [|done|done].
  cbn [pure_bind].
  change (draw_text_with_shadow host (on_paper a))
    with (draw_text_with_shadow host a).
  destruct (draw_text_with_shadow host a b x y line font _) as [b1|e|];
    [|done|done].
  cbn [pure_bind].
  destruct (draw_text_with_shadow host a s x y line font _) as [s1|e|];
    [|done|done].
  cbn [pure_bind]. apply IH.
Qed.

Lemma base_drawing_on_paper host a lay font img_base :
  base_drawing host (on_paper a) lay font img_base
  = base_drawing host a lay font img_base.
Proof.
  unfold base_drawing. cbn [on_paper text_lines y_offset].
  by rewrite draw_lines_on_paper.
Qed.

(** What [create_text_image_frame] does once it has its background. *)
Definition finish_frame (host : Host) (a : FrameArgs) (img_base : Img)
    : St World Img :=
  let* '(font, bold_font) := of_result (load_fonts host a) in
  let* lay := of_result (measure host a font bold_font) in
  let* '(img_base, img_sharp) :=
    of_result (base_drawing host a lay font img_base) in
  let* img_base := of_result (Textures.apply_vignette host img_base) in
  let* img_sharp := of_result (Textures.apply_vignette host img_sharp) in
  let* img_blurred := of_result (apply_blur a img_base img_sharp) in
  let* final_img :=
    of_result (final_overlay host a lay bold_font img_blurred) in
  let final_img := Contrast final_img 1.1 in
  let final_img := Sharpness final_img 1.2 in
  ret final_img.

Lemma finish_frame_on_paper host a img w :
  finish_frame host (on_paper a) img w = finish_frame host a img w.
Proof.
  unfold finish_frame, bind, of_result.
  change (load_fonts host (on_paper a)) with (load_fonts host a).
  destruct (load_fonts host a) as [[font bold_font]|e|]; [|done|done].
  change (measure host (on_paper a) font bold_font)
    with (measure host a font bold_font).
  destruct (measure host a font bold_font) as [lay|e|]; [|done|done].
  rewrite base_drawing_on_paper.
  destruct (base_drawing host a lay font img) as [[b s]|e|]; [|done|done].
  destruct (Textures.apply_vignette host b) as [vb|e|]; [|done|done].
  destruct (Textures.apply_vignette host s) as [vs|e|]; [|done|done].
  reflexivity.
Qed.

(** X10: A texture that is named but does not load (no such file, a file that
    is no picture, a picture with a side of zero) does not fail the frame: the
    frame is the frame on procedural paper, from the same draws of the random
    generators. *)
Theorem missing_texture_is_paper host a w :
  Textures.nonempty (background_texture a) = true →
  Textures.nonempty (media_dir a) = true →
  Textures.load_texture host (width a) (height a)
    (default [] (background_texture a)) (default [] (media_dir a)) = None →
  ImageProcessing.create_text_image_frame host a w
  = ImageProcessing.create_text_image_frame host (on_paper a) w.
Proof.
  intros Ht Hm Hload.
  change (ImageProcessing.create_text_image_frame host a)
    with (let* bg :=
            Textures.create_paper_texture host (width a) (height a)
              (bg_color a) 0.08 2 (background_texture a) (media_dir a) in
          let* img_base :=
            match bg with
            | Some img => ret img
            | None => Textures.paper (width a) (height a) (bg_color a) 0.08 2
            end in
          finish_frame host a img_base).
  change (ImageProcessing.create_text_image_frame host (on_paper a))
    with (let* bg :=
            Textures.create_paper_texture host (width a) (height a)
              (bg_color a) 0.08 2 (Some (str "none")) (media_dir a) in
          let* img_base :=
            match bg with
            | Some img => ret img
            | None => Textures.paper (width a) (height a) (bg_color a) 0.08 2
            end in
          finish_frame host (on_paper a) img_base).
  unfold Textures.create_paper_texture. rewrite Ht, Hm, Hload.
  change (Textures.nonempty (Some (str "none"))) with true.
  change (bool_decide (Some (str "none") ≠ Some (str "none"))) with false.
  destruct (bool_decide (background_texture a ≠ Some (str "none")));
    cbn [andb]; cbv iota; unfold bind, ret;
    destruct (Textures.paper (width a) (height a) (bg_color a) 0.08 2 w)
      as [[img|e|] w1]; try done; symmetry; apply finish_frame_on_paper.
Qed.

(** The frame of the studio on a texture that is not in [media/]. *)
Lemma missing_texture_is_paper_witness :
  ImageProcessing.create_text_image_frame Studio.host
    (Studio.frame (str "marble.jpg") "gaussian") Studio.world
  = ImageProcessing.create_text_image_frame Studio.host
      (Studio.frame (str "none") "gaussian") Studio.world.
Proof.
  apply (missing_texture_is_paper Studio.host
           (Studio.frame (str "marble.jpg") "gaussian") Studio.world).
  - reflexivity.
  - reflexivity.
  - vm_compute. reflexivity.
Defined.

(** * Runs of [generate_video] *)

(** The studio with a [fonts/] directory that holds no font file, on a
    machine with a system font. *)
Definition unfurnished : Host :=
  {| path_exists := path_exists Studio.host;
     isdir := isdir Studio.host;
     listdir := λ _, [str "README.txt"; str "Arial.ttf.bak"];
     image_open := image_open Studio.host;
     truetype := truetype Studio.host;
     getmetrics := getmetrics Studio.host;
     getlength := getlength Studio.host;
     getbbox := getbbox Studio.host;
     draws := draws Studio.host;
     system_fonts := Ok [str "/usr/share/fonts/DejaVuSans.ttf"];
     fallback_font := fallback_font Studio.host;
     provider_available := provider_available Studio.host;
     provider_client := provider_client Studio.host;
     exception_text := exception_text Studio.host |}.

(** X11: A font directory that exists and holds no file with the extension
    [.ttf] or [.otf], in any case of the letters, ends the run with the error
    "No fonts found": the fonts of the system are only searched when there is
    no directory. Nothing has been drawn or asked by then. *)
Theorem no_font_files host constants generate_ai_text_snippet
    generate_random_text_snippet create_text_image_frame uuid4
    write_videofile params app_config w :
  FONT_DIR app_config ≠ [] →
  isdir host (FONT_DIR app_config) = true →
  Forall (λ filename,
            endswith (str ".ttf") (lower filename) = false
            ∧ endswith (str ".otf") (lower filename) = false)
    (listdir host (FONT_DIR app_config)) →
  generate_video_with host constants generate_ai_text_snippet
    generate_random_text_snippet create_text_image_frame uuid4
    write_videofile params app_config w
  = (Ok (None,
         Some "No fonts found. Please add fonts to the 'fonts' directory or install system fonts."),
     w).
Proof.
  intros Hdir Hisdir Hfiles. unfold generate_video_with. cbv zeta.
  rewrite font_paths_settings. unfold discover_fonts.
  rewrite bool_decide_eq_true_2, Hisdir by done. cbn [andb].
  replace (filter _ (listdir host (FONT_DIR app_config))) with (@nil text);
    [done|].
  symmetry. induction Hfiles as [|f fs [Ht Ho] _ IH]; [done|].
  rewrite filter_cons. rewrite Ht, Ho. cbn [orb].
  destruct (decide (Is_true false)) as [[]|_]. exact IH.
Qed.

Lemma no_font_files_witness :
  generate_video unfurnished Studio.uuid4 Studio.write_videofile
    (Studio.params 10 5) Studio.app_config Studio.world
  = (Ok (None,
         Some "No fonts found. Please add fonts to the 'fonts' directory or install system fonts."),
     Studio.world).
Proof.
  apply (no_font_files unfurnished module_constants
           AiProviders.generate_ai_text_snippet procedural
           (ImageProcessing.create_text_image_frame unfurnished)
           Studio.uuid4 Studio.write_videofile (Studio.params 10 5)
           Studio.app_config Studio.world).
  - discriminate.
  - reflexivity.
  - repeat constructor.
Defined.

(** X12: A video of no frames ([fps * duration <= 0]) ends, when there are
    fonts, with the error "No frames were generated, possibly due to persistent
    font errors.": the loop is not entered and nothing is written. *)
Theorem no_frames_requested host constants generate_ai_text_snippet
    generate_random_text_snippet create_text_image_frame uuid4
    write_videofile params app_config w :
  font_paths (settings_of host params app_config) ≠ [] →
  (p_fps params * p_duration params <= 0)%Z →
  generate_video_with host constants generate_ai_text_snippet
    generate_random_text_snippet create_text_image_frame uuid4
    write_videofile params app_config w
  = (Ok (None,
         Some "No frames were generated, possibly due to persistent font errors."),
     w).
Proof.
  intros Hfonts Hframes. unfold generate_video_with. cbv zeta.
  destruct (font_paths _) as [|p ps]; [done|].
  unfold bind at 1. rewrite frame_loop_passes, total_frames_settings.
  unfold frame_count.
  replace (Z.to_nat (p_fps params * p_duration params)) with 0 by lia.
  reflexivity.
Qed.

Lemma no_frames_requested_witness :
  generate_video Studio.host Studio.uuid4 Studio.write_videofile
    (Studio.params 10 0) Studio.app_config Studio.world
  = (Ok (None,
         Some "No frames were generated, possibly due to persistent font errors."),
     Studio.world).
Proof.
  apply (no_frames_requested Studio.host module_constants
           AiProviders.generate_ai_text_snippet procedural
           (ImageProcessing.create_text_image_frame Studio.host)
           Studio.uuid4 Studio.write_videofile (Studio.params 10 0)
           Studio.app_config Studio.world).
  - vm_compute. discriminate.
  - vm_compute. discriminate.
Defined.

(** X13: A run of at least ten frames in which text is supplied with its
    highlight index inside its lines, a font is found and the frames of such
    snippets in such a font render goes through all its frames and returns the
    name of the file it wrote, [text_match_cut_<uuid>.mp4], and no error; when
    writing the file raises, it returns no name and the error "Error during
    video writing: <the text of the exception>. Check server logs and FFmpeg
    installation/codec support (libx264).". *)
Theorem complete_run host constants generate_ai_text_snippet
    generate_random_text_snippet create_text_image_frame uuid4
    write_videofile params app_config w :
  font_paths (settings_of host params app_config) ≠ [] →
  1 <= TEXT_POOL_SIZE constants →
  1 <= MAX_FONT_RETRIES_PER_FRAME constants →
  (10 <= total_frames (settings_of host params app_config))%Z →
  (∀ w, ∃ s w',
     new_text generate_ai_text_snippet generate_random_text_snippet params
       (settings_of host params app_config) w = (Ok (Some s), w')) →
  (∀ w s w',
     new_text generate_ai_text_snippet generate_random_text_snippet params
       (settings_of host params app_config) w = (Ok (Some s), w') →
     (0 <= highlight_index s < Z.of_nat (length (lines s)))%Z) →
  (∀ w, ∃ path w',
     select_font host params app_config (settings_of host params app_config)
       ∅ w = (Ok (Some path), w')) →
  (∀ s path jitter w,
     (0 <= highlight_index s < Z.of_nat (length (lines s)))%Z →
     (∃ w0 w1,
        select_font host params app_config
          (settings_of host params app_config) ∅ w0
        = (Ok (Some path), w1)) →
     ∃ img w',
       create_text_image_frame
         (frame_args constants params app_config
            (settings_of host params app_config) s path jitter) w
       = (Ok img, w')) →
  (∀ w, ∃ unique_id w', uuid4 w = (Ok unique_id, w')) →
  ∃ st w1 unique_id w2,
    frame_loop host constants generate_ai_text_snippet
      generate_random_text_snippet create_text_image_frame params app_config
      (settings_of host params app_config) w = (Ok (Next st), w1)
    ∧ Z.of_nat (length (frames st))
      = total_frames (settings_of host params app_config)
    ∧ uuid4 w1 = (Ok unique_id, w2)
    ∧ ∀ w3,
        (write_videofile (frames st) (p_fps params)
           (path_join (UPLOAD_FOLDER app_config)
              (str "text_match_cut_" ++ unique_id ++ str ".mp4")) w2
         = (Ok (), w3) →
         generate_video_with host constants generate_ai_text_snippet
           generate_random_text_snippet create_text_image_frame uuid4
           write_videofile params app_config w
         = (Ok (Some (str "text_match_cut_" ++ unique_id ++ str ".mp4"),
                None), w3))
        ∧ (∀ e,
             write_videofile (frames st) (p_fps params)
               (path_join (UPLOAD_FOLDER app_config)
                  (str "text_match_cut_" ++ unique_id ++ str ".mp4")) w2
             = (Raised e, w3) →
             generate_video_with host constants generate_ai_text_snippet
               generate_random_text_snippet create_text_image_frame uuid4
               write_videofile params app_config w
             = (Ok (None,
                    Some ("Error during video writing: "
                          +:+ exception_text host e
                          +:+ ". Check server logs and FFmpeg installation/codec support (libx264).")),
                w3)).
Proof.
  intros Hfonts HP Hmax Hten Hs Hrange Hsel Hrender Huuid.
  destruct (RunFacts.frame_loop_progress host constants
              generate_ai_text_snippet generate_random_text_snippet
              create_text_image_frame params app_config
              (settings_of host params app_config) HP Hmax Hten
              Hs Hrange Hsel Hrender w)
    as (st & w1 & Hloop & Hlen & _).
  destruct (Huuid w1) as (unique_id & w2 & Hid).
  exists st, w1, unique_id, w2.
  split; [exact Hloop|]. split; [exact Hlen|]. split; [exact Hid|].
  assert (frames st ≠ []) as Hframes.
  { intros Hempty. rewrite Hempty in Hlen. simpl in Hlen. lia. }
  assert (generate_video_with host constants generate_ai_text_snippet
            generate_random_text_snippet create_text_image_frame uuid4
            write_videofile params app_config w
          = match
              write_videofile (frames st) (p_fps params)
                (path_join (UPLOAD_FOLDER app_config)
                   (str "text_match_cut_" ++ unique_id ++ str ".mp4")) w2
            with
            | (Ok _, w3) =>
                (Ok (Some (str "text_match_cut_" ++ unique_id
                           ++ str ".mp4"), None), w3)
            | (Raised e, w3) =>
                (Ok (None, Some (writing_failure (exception_text host e))),
                 w3)
            | (OutOfFuel, w3) => (OutOfFuel, w3)
            end) as Hrun.
  { unfold generate_video_with. cbv zeta.
    destruct (font_paths (settings_of host params app_config)) as [|p ps];
      [done|].
    rewrite (bind_eq_ok _ _ _ _ _ Hloop).
    unfold create_video. destruct (frames st) as [|f fs]; [done|].
    rewrite (bind_eq_ok _ _ _ _ _ Hid). unfold try_except, bind, ret.
    by destruct (write_videofile _ _ _ w2) as [[[]|e|] w4]. }
  intros w3. split.
  - intros Hw. by rewrite Hrun, Hw.
  - intros e Hw. by rewrite Hrun, Hw.
Qed.

(** Twelve frames of the studio, with the generators and the renderer of
    the repository. *)
Lemma complete_run_witness :
  ∃ w',
    generate_video_with Studio.host module_constants
      AiProviders.generate_ai_text_snippet procedural
      (ImageProcessing.create_text_image_frame Studio.host)
      Studio.uuid4 Studio.write_videofile (Studio.params 4 3)
      Studio.app_config Studio.world
    = (Ok (Some (str "text_match_cut_0f8fad5b.mp4"), None), w').
Proof.
  destruct (complete_run Studio.host module_constants
              AiProviders.generate_ai_text_snippet procedural
              (ImageProcessing.create_text_image_frame Studio.host)
              Studio.uuid4 Studio.write_videofile (Studio.params 4 3)
              Studio.app_config Studio.world)
    as (st & w1 & unique_id & w2 & _ & _ & Hid & Hwrite).
  - vm_compute. discriminate.
  - simpl. lia.
  - simpl. lia.
  - vm_compute. discriminate.
  - apply studio_supplied.
  - apply new_text_ok.
  - apply studio_font_found.
  - intros s path jitter w. apply studio_renders.
  - intros w. eexists _, _. reflexivity.
  - injection Hid as <- <-. exists w1.
    apply (proj1 (Hwrite w1)). reflexivity.
Defined.

(** * Frames that are too flat *)

(** A frame of 1024 by 256 on the texture of the studio. *)
Definition banner : FrameArgs :=
  {| width := 1024; height := 256;
     text_lines := Studio.page;
     highlight_line_index := 0;
     highlighted_text := Studio.phrase;
     font_path := Studio.arial;
     ImageProcessing.font_size := 12;
     text_color := "#000000";
     bg_color := "#FFFFFF";
     highlight_color := "#FFFF00";
     blur_type := "gaussian";
     blur_radius := 4;
     radial_sharp_radius_factor := 0.3;
     ImageProcessing.vertical_spread_factor := 1.3;
     y_offset := 0;
     background_texture := Some (str "paper.jpg");
     media_dir := Some (str "media") |}.

(** X14: The vignette draws the rectangles [[i, i, width - i, height - i]]
    for [i] below [width // 4], and the raster library refuses a rectangle
    whose second corner lies above the first.  So a frame with [height < 2 *
    (width // 4 - 1)], 1024 by 256 for one, is never rendered; when its
    texture loads, its fonts load, its text is measured and drawn, what
    [create_text_image_frame] raises is [ValueError], which is not one of the
    two exceptions that the frame loop catches. *)
Theorem flat_frame_raises host a w :
  (height a < 2 * (width a / 4 - 1))%Z →
  (∀ img w', ImageProcessing.create_text_image_frame host a w ≠ (Ok img, w'))
  ∧ (∀ font bold_font lay,
       FrameFacts.texture_loads host a →
       load_fonts host a = Ok (font, bold_font) →
       measure host a font bold_font = Ok lay →
       (∀ img, ∃ drawn, base_drawing host a lay font img = Ok drawn) →
       ImageProcessing.create_text_image_frame host a w
       = (Raised ValueError, w))
  ∧ is_font_error ValueError = false.
Proof.
  intros Hflat. split; [|split; [|done]].
  - intros img w' H. unfold ImageProcessing.create_text_image_frame in H.
    bind_inv H. bind_inv H. bind_inv H. destruct a2 as [font bold_font].
    bind_inv H. bind_inv H. destruct a3 as [img_base img_sharp].
    bind_inv H.
    assert (Textures.size host a1 = (width a, height a)) as Hbase.
    { destruct a0 as [loaded|].
      - apply ret_ok in Hm0 as [-> _].
        by apply SizeFacts.create_paper_texture_size in Hm.
      - by apply (SizeFacts.paper_size host) in Hm0. }
    unfold of_result in Hm3, Hm4.
    injection Hm3 as Hm3 _. injection Hm4 as Hm4 _.
    unfold base_drawing in Hm3.
    destruct (draw_lines _ _ _ _ _ _ _ _ _) as [[b s]|e|] eqn:Ed; try done.
    injection Hm3 as <- <-.
    apply SizeFacts.draw_lines_size in Ed as [Hb _].
    rewrite (RenderFacts.apply_vignette_flat host b (width a) (height a))
      in Hm4; [done|congruence|done].
  - intros font bold_font lay Hl Hfonts Hmeasure Hdraw.
    destruct (FrameFacts.create_paper_texture_loaded host a (bg_color a)
                0.08 2 Hl) as [texture Hp].
    pose proof (SizeFacts.create_paper_texture_size host _ _ _ _ _ _ _ _ _ _
                  (Hp w)) as Hsize.
    unfold ImageProcessing.create_text_image_frame, bind. rewrite Hp.
    unfold ret, of_result. rewrite Hfonts, Hmeasure.
    destruct (Hdraw texture) as [[b s] Hd]. rewrite Hd.
    unfold base_drawing in Hd.
    destruct (draw_lines _ _ _ _ _ _ _ _ _) as [[b' s']|e|] eqn:Ed; try done.
    injection Hd as <- <-.
    apply SizeFacts.draw_lines_size in Ed as [Hb _].
    rewrite (RenderFacts.apply_vignette_flat host b' (width a) (height a));
      [done|congruence|done].
Qed.

(** The banner of the studio: everything is there, and the frame raises
    [ValueError]. *)
Lemma flat_frame_raises_witness :
  ImageProcessing.create_text_image_frame Studio.host banner Studio.world
  = (Raised ValueError, Studio.world).
Proof.
  set (font := {| font_file := Studio.arial; font_px := 12 |}).
  assert (∃ lay, measure Studio.host banner font font = Ok lay) as [lay Hm]
    by (eexists; vm_compute; reflexivity).
  destruct (flat_frame_raises Studio.host banner Studio.world) as (_ & H & _).
  - vm_compute. reflexivity.
  - apply (H font font lay).
    + split; [done|]. split; [done|]. split; [done|].
      eexists. vm_compute. reflexivity.
    + vm_compute. reflexivity.
    + exact Hm.
    + intros img. unfold base_drawing.
      destruct (RenderFacts.draw_lines_ok Studio.host banner lay font
                  (text_lines banner)) with (i := 0)
        (y := (block_start_y lay + y_offset banner)%Q)
        (img_base := img) (img_sharp := img) as [drawn Hd].
      * intros i line _. unfold line_position.
        destruct (_ && _); [eauto|].
        cbn [getlength Studio.host Studio.installation pure_bind].
        destruct (Qltb _ _); eauto.
      * by apply Forall_forall.
      * eexists. rewrite Hd. reflexivity.
Defined.

(** * Fonts *)

(** A machine whose matplotlib has a fallback font. *)
Definition dejavu : text := str "/usr/share/fonts/DejaVuSans.ttf".

Definition with_fallback : Host :=
  {| path_exists := path_exists Studio.host;
     isdir := isdir Studio.host;
     listdir := listdir Studio.host;
     image_open := image_open Studio.host;
     truetype := truetype Studio.host;
     getmetrics := getmetrics Studio.host;
     getlength := getlength Studio.host;
     getbbox := getbbox Studio.host;
     draws := draws Studio.host;
     system_fonts := system_fonts Studio.host;
     fallback_font := Ok (Some dejavu);
     provider_available := provider_available Studio.host;
     provider_client := provider_client Studio.host;
     exception_text := exception_text Studio.host |}.

Lemma all_excluded (font_paths : list text) (exclude_list : gset text) :
  (∀ p, p ∈ font_paths → p ∈ exclude_list) →
  elements (list_to_set font_paths ∖ exclude_list : gset text) = [].
Proof.
  intros Hall.
  assert ((list_to_set font_paths ∖ exclude_list : gset text) = ∅) as ->.
  { apply set_eq. intros p. rewrite elem_of_difference, elem_of_list_to_set.
    split; [intros [Hin Hout]; destruct Hout; by apply Hall|].
    intros H. by apply not_elem_of_empty in H. }
  apply elements_empty.
Qed.

(** X15: Once every font of the list is excluded, [get_random_font] draws
    nothing and returns the fallback font of matplotlib, also when that font is
    one of the excluded ones; without a fallback, or when looking for it
    raises, it returns [None]. *)
Theorem fallback_font_is_reused host font_paths exclude_list w :
  (∀ p, p ∈ font_paths → p ∈ exclude_list) →
  (∀ fallback_path,
     fallback_font host = Ok (Some fallback_path) → fallback_path ≠ [] →
     get_random_font host font_paths exclude_list w
     = (Ok (Some fallback_path), w))
  ∧ (fallback_font host = Ok None ∨ (∃ e, fallback_font host = Raised e) →
     get_random_font host font_paths exclude_list w = (Ok None, w)).
Proof.
  intros Hall. unfold get_random_font. rewrite (all_excluded _ _ Hall).
  split.
  - intros fallback_path -> Hne. by rewrite bool_decide_eq_false_2.
  - intros [-> | [e ->]]; done.
Qed.

(** The font of the studio and the fallback have both failed. *)
Lemma fallback_font_is_reused_witness :
  dejavu ∈ ({[Studio.arial; dejavu]} : gset text)
  ∧ get_random_font with_fallback [Studio.arial] {[Studio.arial; dejavu]}
      Studio.world = (Ok (Some dejavu), Studio.world).
Proof.
  split; [set_solver|].
  apply (fallback_font_is_reused with_fallback [Studio.arial]
           {[Studio.arial; dejavu]} Studio.world).
  - intros p Hp. apply list_elem_of_singleton in Hp as ->. set_solver.
  - reflexivity.
  - discriminate.
Defined.

(** The files [find_bold] looks for, for one suffix. *)
Definition bold_candidates (path suffix : text) : list text :=
  [replace_all (str "regular") []
     (replace_all (str "Regular") [] (base_name path)) ++ suffix;
   base_name path ++ suffix].

Lemma find_bold_absent host base font_size regular suffixes :
  (∀ suffix, suffix ∈ suffixes →
             path_exists host
               (replace_all (str "regular") []
                  (replace_all (str "Regular") [] base) ++ suffix) = false
             ∧ path_exists host (base ++ suffix) = false) →
  find_bold host base font_size regular suffixes = Ok regular.
Proof.
  induction suffixes as [|suffix rest IH]; intros Hnone; [done|].
  cbn [find_bold]. destruct (Hnone suffix) as [-> ->]; [by left|].
  apply IH. intros s Hs. apply Hnone. by right.
Qed.

(** X16: When none of the files a bold variant is looked for in exists, the
    font that loaded is the bold font as well: the phrase is drawn in the
    regular font. *)
Theorem regular_font_stands_in host a font :
  truetype host (font_path a) (ImageProcessing.font_size a) = Ok font →
  (∀ suffix candidate,
     suffix ∈ common_bold_suffixes →
     candidate ∈ bold_candidates (font_path a) suffix →
     path_exists host candidate = false) →
  load_fonts host a = Ok (font, font).
Proof.
  intros Hfont Hnone. unfold load_fonts. rewrite Hfont.
  rewrite find_bold_absent; [done|].
  intros suffix Hs. unfold bold_candidates in Hnone.
  split; apply (Hnone suffix); [done|by left|done|by right; left].
Qed.

Lemma regular_font_stands_in_witness :
  load_fonts Studio.host (Studio.frame (str "paper.jpg") "none")
  = Ok ({| font_file := Studio.arial; font_px := 51 |},
        {| font_file := Studio.arial; font_px := 51 |}).
Proof.
  apply (regular_font_stands_in Studio.host
           (Studio.frame (str "paper.jpg") "none")).
  - reflexivity.
  - intros suffix candidate Hs Hc.
    assert (forallb
              (λ suffix,
                 forallb (λ c, negb (path_exists Studio.host c))
                   (bold_candidates
                      (font_path (Studio.frame (str "paper.jpg") "none"))
                      suffix))
              common_bold_suffixes = true) as Hall by (vm_compute; reflexivity).
    rewrite forallb_forall in Hall.
    specialize (Hall suffix (proj1 (list_elem_of_In _ _) Hs)).
    rewrite forallb_forall in Hall.
    specialize (Hall candidate (proj1 (list_elem_of_In _ _) Hc)).
    by apply negb_true_iff in Hall.
Defined.

(** * Falling back on the procedural generator *)

(** X17: Without a key, with AI switched off, or with a provider that is not
    one of the four or whose library is not installed, there is no client, and
    the text of the run is the text of the procedural generator. *)
Theorem no_client_no_service host params app_config w :
  p_ai_enabled params = false
  ∨ p_api_key params = EmptyString
  ∨ AiProviders.known_provider (p_ai_provider params) = false
  ∨ provider_available host (p_ai_provider params) = false →
  ai_client (settings_of host params app_config) = None
  ∧ new_text AiProviders.generate_ai_text_snippet procedural params
      (settings_of host params app_config) w
    = random_text procedural params (settings_of host params app_config) w.
Proof.
  intros Hcase.
  assert (ai_client (settings_of host params app_config) = None) as Hnone.
  { unfold settings_of. destruct (line_settings params) as [[? ?] ?].
    cbn [ai_client]. destruct (p_ai_enabled params); [|done].
    unfold AiProviders.initialize_ai_client.
    destruct Hcase as [H | [H | [H | H]]]; [done| | |].
    - by rewrite H.
    - destruct (bool_decide (p_api_key params = EmptyString)); [done|].
      replace (existsb _ _) with false; [done|].
      symmetry. unfold AiProviders.known_provider in H.
      apply bool_decide_eq_false in H. cbn [existsb].
      repeat (rewrite bool_decide_eq_false_2 by set_solver). done.
    - destruct (bool_decide (p_api_key params = EmptyString)); [done|].
      replace (existsb _ _) with false; [done|].
      symmetry. apply not_true_is_false. intros Hex.
      apply existsb_exists in Hex as (p & _ & Hp).
      apply andb_true_iff in Hp as [Hp Ha].
      apply bool_decide_eq_true in Hp. subst p. congruence. }
  split; [done|]. unfold new_text. by rewrite Hnone.
Qed.

(** The studio, where AI is switched off. *)
Lemma no_client_no_service_witness :
  ai_client (settings_of Studio.host (Studio.params 10 5) Studio.app_config)
  = None
  ∧ new_text AiProviders.generate_ai_text_snippet procedural
      (Studio.params 10 5)
      (settings_of Studio.host (Studio.params 10 5) Studio.app_config)
      Studio.world
    = random_text procedural (Studio.params 10 5)
        (settings_of Studio.host (Studio.params 10 5) Studio.app_config)
        Studio.world.
Proof.
  apply (no_client_no_service Studio.host (Studio.params 10 5)
           Studio.app_config Studio.world).
  left. reflexivity.
Defined.

(** X18: With a client of a provider that is known and a text service that
    fails three times in a row, the snippet is the one the procedural generator
    makes after the third request. *)
Theorem service_down_falls_back params settings client w :
  ai_client settings = Some client →
  AiProviders.known_provider (p_ai_provider params) = true →
  service w 0 = None → service w 1 = None → service w 2 = None →
  new_text AiProviders.generate_ai_text_snippet procedural params settings w
  = random_text procedural params settings
      (asked_once (asked_once (asked_once w))).
Proof.
  intros Hclient Hk H0 H1 H2. unfold new_text. rewrite Hclient.
  assert (∀ w0, service w0 0 = None →
                AiProviders.generate_ai_text_snippet (ai_client settings)
                  (p_ai_provider params)
                  (default "mistral-large-latest" (p_mistral_model params))
                  (p_highlighted_text params) (min_lines settings)
                  (max_lines settings) w0
                = (Ok (None, (-1)%Z), asked_once w0)) as Hask.
  { intros w0 Hs. rewrite Hclient.
    apply ai_request_unusable; [done|by left]. }
  unfold bind at 1. cbn [ai_attempts].
  unfold bind at 1. rewrite (Hask w H0). cbn [usable].
  unfold bind at 1. rewrite (Hask (asked_once w) H1). cbn [usable].
  unfold bind at 1. rewrite (Hask (asked_once (asked_once w)) H2).
  cbn [usable]. reflexivity.
Qed.

(** The studio with a client, the text service down. *)
Lemma service_down_falls_back_witness :
  ∃ snippet w',
    new_text AiProviders.generate_ai_text_snippet procedural
      (Studio.params 10 5) connected Studio.world
    = (Ok (Some snippet), w')
    ∧ snippet_ok snippet.
Proof.
  rewrite (service_down_falls_back (Studio.params 10 5) connected
             Studio.client Studio.world eq_refl eq_refl eq_refl eq_refl
             eq_refl).
  eexists. eexists. split; [vm_compute; reflexivity|].
  unfold snippet_ok. simpl. lia.
Defined.

(** * The phrase in its line *)

Lemma find_spec p s k :
  PyStr.find p s = Some k →
  s = take k s ++ p ++ drop (k + length p) s.
Proof.
  revert k. induction s as [|c s IH]; intros k; cbn [PyStr.find].
  - destruct (startswith p []) eqn:E; [|done]. intros [= <-].
    apply PyStrFacts.startswith_nil in E. by subst p.
  - destruct (startswith p (c :: s)) eqn:E.
    + intros [= <-]. apply PyStrFacts.startswith_spec in E as [t Ht].
      rewrite Ht at 1. cbn [take app Nat.add]. f_equal.
      rewrite Ht, drop_app_length. done.
    + destruct (PyStr.find p s) as [j|] eqn:Ej; [|done].
      intros [= <-]. cbn [take drop Nat.add app]. f_equal. by apply IH.
Qed.

Lemma find_le p s k : PyStr.find p s = Some k → k <= length s.
Proof.
  revert k. induction s as [|c s IH]; intros k; cbn [PyStr.find].
  - destruct (startswith p []); [|done]. intros [= <-]. done.
  - destruct (startswith p (c :: s)); [intros [= <-]; simpl; lia|].
    destruct (PyStr.find p s) as [j|]; [|done].
    intros [= <-]. specialize (IH j eq_refl). simpl. lia.
Qed.

Lemma find_contains p s :
  contains p s = true → ∃ k, PyStr.find p s = Some k.
Proof.
  induction s as [|c s IH]; rewrite PyStrFacts.contains_unfold;
    cbn [PyStr.find].
  - rewrite orb_false_r. intros ->. eauto.
  - destruct (startswith p (c :: s)); [eauto|]. cbn [orb].
    intros H. destruct (IH H) as [k ->]. cbn. eauto.
Qed.

(** X19: When the line at the highlight index holds the phrase, that line is
    put where its phrase starts at the x of the phrase in the bold font: its
    left edge is [highlight_target_x] less the width the regular font measures
    for the text before the first occurrence of the phrase. *)
Theorem phrase_under_overlay host a font bold_font lay line :
  calculations host a font bold_font = Ok lay →
  (0 <= highlight_line_index a)%Z →
  py_index (text_lines a) (highlight_line_index a) = Ok line →
  contains (highlighted_text a) line = true →
  ∃ before after prefix_width,
    line = before ++ highlighted_text a ++ after
    ∧ PyStr.find (highlighted_text a) line = Some (length before)
    ∧ getlength host font before = Ok prefix_width
    ∧ line_position host a lay font (Z.to_nat (highlight_line_index a)) line
      = Ok (highlight_target_x lay - prefix_width)%Q.
Proof.
  intros Hc Hidx Hline Hin. unfold calculations in Hc.
  apply FrameFacts.pure_bind_ok in Hc as (lh & _ & Hc).
  apply FrameFacts.pure_bind_ok in Hc as (hw & _ & Hc).
  apply FrameFacts.pure_bind_ok in Hc as ([[[x0 top] x1] bottom] & _ & Hc).
  cbv zeta in Hc.
  apply FrameFacts.pure_bind_ok in Hc as (full & Hfull & Hc).
  rewrite Hline in Hfull. injection Hfull as <-.
  destruct (find_contains _ _ Hin) as [k Hk]. rewrite Hk in Hc.
  apply FrameFacts.pure_bind_ok in Hc as (pw & Hpw & [= <-]).
  pose proof (find_spec _ _ _ Hk) as Hsplit.
  assert (length (take k line) = k) as Hlen.
  { rewrite length_take. apply Nat.min_l. by apply find_le in Hk. }
  exists (take k line), (drop (k + length (highlighted_text a)) line), pw.
  split; [done|]. split; [by rewrite Hlen|]. split; [done|].
  unfold line_position. cbn [highlight_found_in_line bg_highlight_line_start_x
    highlight_target_x].
  rewrite Z2Nat.id by done. by rewrite Z.eqb_refl.
Qed.

(** The frame of the studio: the phrase starts at column 23 of the first
    line. *)
Lemma phrase_under_overlay_witness :
  ∃ lay before after prefix_width,
    calculations Studio.host (Studio.frame (str "paper.jpg") "none")
      {| font_file := Studio.arial; font_px := 51 |}
      {| font_file := Studio.arial; font_px := 51 |} = Ok lay
    ∧ Studio.line = before ++ Studio.phrase ++ after
    ∧ length before = 23
    ∧ getlength Studio.host {| font_file := Studio.arial; font_px := 51 |}
        before = Ok prefix_width
    ∧ line_position Studio.host (Studio.frame (str "paper.jpg") "none") lay
        {| font_file := Studio.arial; font_px := 51 |} 0 Studio.line
      = Ok (highlight_target_x lay - prefix_width)%Q.
Proof.
  assert (∃ lay,
            calculations Studio.host (Studio.frame (str "paper.jpg") "none")
              {| font_file := Studio.arial; font_px := 51 |}
              {| font_file := Studio.arial; font_px := 51 |} = Ok lay)
    as [lay E] by (eexists; vm_compute; reflexivity).
  destruct (phrase_under_overlay Studio.host
              (Studio.frame (str "paper.jpg") "none")
              {| font_file := Studio.arial; font_px := 51 |}
              {| font_file := Studio.arial; font_px := 51 |} lay Studio.line
              E) as (before & after & pw & Hsplit & Hfind & Hpw & Hpos).
  - simpl. lia.
  - reflexivity.
  - vm_compute. reflexivity.
  - exists lay, before, after, pw. split; [exact E|]. split; [exact Hsplit|].
    split; [|split; [exact Hpw|exact Hpos]].
    assert (PyStr.find Studio.phrase Studio.line = Some 23) as H23
      by (vm_compute; reflexivity).
    change (highlighted_text (Studio.frame (str "paper.jpg") "none"))
      with Studio.phrase in Hfind.
    rewrite H23 in Hfind. by injection Hfind.
Defined.

(** * The special word of a sentence *)
Module WordFacts.
Import PyStrFacts TextGeneration TextGenerationFacts LineFacts.

(** The loop of a category other than the one of the special word hands the
    special word on untouched, and more fuel does not change its result. *)
Lemma fill_category_other fuel extra c c' special pos txt r out r' :
  c' ≠ c →
  fill_category fuel c' None pos txt r = (Ok (out, None), r') →
  fill_category (fuel + extra) c' special (Some c) txt r
  = (Ok (out, special), r').
Proof.
  intros Hne. revert txt r.
  induction fuel as [|fuel IH]; intros txt r; [done|].
  cbn [fill_category Nat.add].
  destruct (contains (placeholder c') txt); [|by intros [= -> ->]].
  unfold bind.
  destruct (Random.choice (parts c') r) as [[word| |] r1]; try done.
  change (truthy None) with false. cbn [andb].
  rewrite (bool_decide_eq_false_2 (Some c = Some c')) by congruence.
  rewrite andb_false_r. apply IH.
Qed.

Lemma filling_refl c ts : Forall2 (filling [] c) ts ts.
Proof.
  induction ts as [|t ts IH]; constructor; [|done].
  destruct t as [l|c0]; [done|]. unfold filling.
  rewrite bool_decide_eq_false_2 by (by intros ?%elem_of_nil).
  destruct (bool_decide (c0 = c)); auto.
Qed.

(** Filling placeholders makes no new ones. *)
Lemma filled_holes done c ts0 ts :
  Forall2 (filled done) ts0 ts →
  existsb (is_hole c) ts0 = false →
  existsb (is_hole c) ts = false.
Proof.
  induction 1 as [|t t' ts0 ts Ht H IH]; [done|].
  cbn [existsb]. intros [Hc Hno]%orb_false_iff.
  rewrite IH, orb_false_r by done.
  destruct t as [l|c0]; unfold filled in Ht.
  - by subst.
  - destruct (bool_decide (c0 ∈ done)).
    + by destruct Ht as (w & _ & ->).
    + by subst.
Qed.

(** Without a placeholder of its category the special word is not used. *)
Lemma special_unused cats special c ts r :
  forallb tok_plain ts = true →
  existsb (is_hole c) ts = false →
  fill_categories cats special (Some c) (flatten ts) r
  = fill_categories cats None None (flatten ts) r.
Proof.
  revert ts r. induction cats as [|c' cats IH]; intros ts r Hp Hno; [done|].
  cbn [fill_categories].
  destruct (decide (c' = c)) as [->|Hne].
  - unfold fill_fuel. cbn [fill_category].
    rewrite contains_flatten, Hno by done.
    unfold bind at 1 2, ret. by apply IH.
  - destruct (fill_category_tokens [] c' None ts
                (fill_fuel None (flatten ts)) ts r)
      as (ts1 & r1 & H1 & Hp1 & Hrel1).
    + by intros ?%elem_of_nil.
    + done.
    + apply filling_refl.
    + unfold fill_fuel. simpl. pose proof (holes_length c' ts). lia.
    + replace (fill_fuel special (flatten ts))
        with (fill_fuel None (flatten ts) + length (default [] special))
        by (unfold fill_fuel; simpl; lia).
      unfold bind at 1 2.
      rewrite (fill_category_other _ _ c c' special None _ _ _ _ Hne H1), H1.
      apply IH; [done|]. by eapply filled_holes.
Qed.

(** ** Where the special word ends up *)

Ltac list_eq := repeat (simpl; rewrite <- ?app_assoc); reflexivity.

(** [p] lies in [s], before its last character. *)
Definition inside (p s : text) : Prop := ∃ x y, s = x ++ p ++ y ∧ y ≠ [].

Lemma inside_contains p s : inside p s → contains p s = true.
Proof. intros (x & y & -> & _). apply contains_spec. by exists x, y. Qed.

Lemma replace_first_split old new s :
  contains old s = true →
  ∃ u v, s = u ++ old ++ v ∧ replace_first old new s = u ++ new ++ v.
Proof.
  induction s as [|ch s IH]; intros H;
    rewrite contains_unfold in H; rewrite replace_first_unfold.
  - rewrite orb_false_r in H. rewrite H.
    apply startswith_nil in H as ->. by exists [], [].
  - destruct (startswith old (ch :: s)) eqn:E.
    + apply startswith_spec in E as [t Ht].
      exists [], t. split; [exact Ht|]. by rewrite Ht, drop_app_length.
    + destruct (IH H) as (u & v & Hs & Hr).
      exists (ch :: u), v. split; [by rewrite Hs|by rewrite Hr].
Qed.

(** A word without [sp] that lies in [l1 ++ sp :: l2] lies in [l1] or in
    [l2]. *)
Lemma inside_split p l1 l2 sp :
  p ≠ [] → sp ∉ p → inside p (l1 ++ sp :: l2) →
  (∃ x y, l1 = x ++ p ++ y) ∨ inside p l2.
Proof.
  intros Hp Hsp (x & y & E & Hy).
  apply app_eq_app in E as [l [[-> E] | [-> E]]].
  - symmetry in E. apply app_eq_app in E as [l' [[-> E] | [-> E]]].
    + left. by exists x, l'.
    + destruct l' as [|c l'].
      * left. exists x, []. by rewrite !app_nil_r.
      * injection E as <- _. exfalso. apply Hsp.
        apply elem_of_app. right. by left.
  - destruct l as [|c l].
    + destruct p as [|c p]; [done|]. injection E as <- _.
      exfalso. apply Hsp. by left.
    + injection E as _ ->. right. by exists l, y.
Qed.

(** Putting an adjective after an article keeps a word without spaces. *)
Lemma inside_replace p m a s :
  p ≠ [] → " "%char ∉ p → inside p s →
  inside p (replace_first (" "%char :: m ++ [" "%char])
              ((" "%char :: m ++ [" "%char]) ++ a ++ [" "%char]) s).
Proof.
  intros Hp Hsp Hin.
  destruct (contains (" "%char :: m ++ [" "%char]) s) eqn:Hc;
    [|by rewrite replace_first_absent].
  destruct (replace_first_split _
              ((" "%char :: m ++ [" "%char]) ++ a ++ [" "%char]) _ Hc)
    as (u & v & -> & ->).
  replace (u ++ (" "%char :: m ++ [" "%char]) ++ v)
    with (u ++ " "%char :: (m ++ " "%char :: v)) in Hin by list_eq.
  apply inside_split in Hin as [(x & y & ->)|Hin]; [| |done|done].
  - exists x, (y ++ ((" "%char :: m ++ [" "%char]) ++ a ++ [" "%char]) ++ v).
    split; [list_eq|by destruct y].
  - apply inside_split in Hin as [(x & y & ->)|(x & y & -> & Hy)];
      [| |done|done].
    + exists (u ++ " "%char :: x), (y ++ " "%char :: a ++ " "%char :: v).
      split; [list_eq|by destruct y].
    + exists (u ++ ((" "%char :: m ++ [" "%char]) ++ a ++ [" "%char]) ++ x), y.
      split; [list_eq|done].
Qed.

Lemma inside_suffix p s sfx :
  inside p s → inside p (drop_last s ++ sfx ++ str ".").
Proof.
  intros (x & y & -> & Hy).
  destruct (exists_last Hy) as (y' & c & ->).
  replace (x ++ p ++ y' ++ [c]) with ((x ++ p ++ y') ++ [c]) by list_eq.
  rewrite drop_last_snoc. exists x, (y' ++ sfx ++ str ".").
  split; [list_eq|]. by destruct y', sfx.
Qed.

Lemma lengthen_inside p s r :
  p ≠ [] → " "%char ∉ p → inside p s →
  ∃ res r', lengthen lengthen_fuel s r = (Ok res, r') ∧ inside p res.
Proof.
  intros Hp Hsp Hin.
  destruct (lengthen_result (inside p)) with (fuel := lengthen_fuel) (s := s)
    (r := r) as (s1 & res & r' & H & Hs1 & _ & Hcase).
  - intros s0 w Hs0 _ _ _. by apply (inside_replace p (str "the")).
  - intros s0 w Hs0 _ _ _ _. by apply (inside_replace p (str "a")).
  - unfold lengthen_fuel. lia.
  - unfold lengthen_fuel. lia.
  - done.
  - exists res, r'. split; [done|].
    destruct Hcase as [[_ ->]|(_ & _ & _ & [[_ (sfx & _ & ->)]|[_ ->]])];
      try done.
    by apply (inside_suffix p s1 (str " " ++ sfx)).
Qed.

(** What [filled] keeps of the tokens. *)
Lemma filled_refl ts : Forall2 (filled []) ts ts.
Proof. induction ts as [|t ts IH]; constructor; [|done]. by destruct t. Qed.

Lemma filled_last done ts0 ts s :
  Forall2 (filled done) ts0 ts →
  last ts0 = Some (Lit s) → last ts = Some (Lit s).
Proof.
  induction 1 as [|t t' ts0 ts Ht H IH]; [done|].
  destruct H as [|t1 t1' ts0 ts Ht1 H].
  - simpl. intros [= ->]. simpl in Ht. by rewrite Ht.
  - rewrite !last_cons_cons. exact IH.
Qed.

Lemma filled_keeps_hole done c ts0 ts :
  c ∉ done →
  Forall2 (filled done) ts0 ts →
  existsb (is_hole c) ts0 = true → existsb (is_hole c) ts = true.
Proof.
  intros Hc. induction 1 as [|t t' ts0 ts Ht H IH]; [done|].
  cbn [existsb]. intros [Ht0|Hts]%orb_true_iff.
  - destruct t as [l|c0]; [done|]. simpl in Ht0.
    apply bool_decide_eq_true in Ht0 as ->. unfold filled in Ht.
    rewrite bool_decide_eq_false_2 in Ht by done. subst t'.
    simpl. by rewrite bool_decide_eq_true_2.
  - rewrite IH by done. apply orb_true_r.
Qed.

Lemma last_flatten ts ch s :
  last ts = Some (Lit (ch :: s)) → flatten ts ≠ [].
Proof.
  intros H. apply last_Some in H as [ts' ->].
  rewrite flatten_app. simpl. by destruct (flatten ts').
Qed.

(** The first placeholder of a category, and what is after it. *)
Lemma fill_first_split c w ts :
  existsb (is_hole c) ts = true →
  ∃ pre post, ts = pre ++ Hole c :: post
              ∧ fill_first c w ts = pre ++ Lit w :: post.
Proof.
  induction ts as [|t ts IH]; [done|]. cbn [existsb fill_first].
  destruct (is_hole c t) eqn:E.
  - intros _. destruct t as [l|c0]; [done|]. simpl in E.
    apply bool_decide_eq_true in E as ->. by exists [], ts.
  - intros H. destruct (IH H) as (pre & post & -> & ->).
    by exists (t :: pre), post.
Qed.

Lemma placed_inside done p pre post ts ch s :
  last (pre ++ Lit p :: post) = Some (Lit (ch :: s)) →
  post ≠ [] →
  Forall2 (filled done) (pre ++ Lit p :: post) ts →
  inside p (flatten ts).
Proof.
  intros Hlast Hpost H.
  apply Forall2_app_inv_l in H as (pre' & rest & _ & H & ->).
  apply Forall2_cons_inv_l in H as (t' & post' & Ht & H & ->).
  simpl in Ht. subst t'.
  exists (flatten pre'), (flatten post'). split.
  - by rewrite flatten_app, flatten_cons.
  - apply (last_flatten _ ch s). eapply filled_last; [done|].
    destruct post as [|t0 post]; [done|].
    by rewrite last_app_cons, last_cons_cons in Hlast.
Qed.

(** With a placeholder of its category the special word is put in the
    sentence, and the words drawn afterwards leave it there. *)
Lemma special_placed cats p c ch s ts r :
  NoDup cats → c ∈ cats →
  p ≠ [] → plain p = true →
  forallb tok_plain ts = true →
  existsb (is_hole c) ts = true →
  last ts = Some (Lit (ch :: s)) →
  ∃ ts' r',
    fill_categories cats (Some p) (Some c) (flatten ts) r
    = (Ok (flatten ts'), r')
    ∧ inside p (flatten ts').
Proof.
  intros Hnd Hc Hp Hplain. revert ts r Hnd Hc.
  induction cats as [|c' cats IH]; intros ts r Hnd Hc Hp0 Hex Hlast.
  { by apply elem_of_nil in Hc. }
  apply NoDup_cons in Hnd as [Hc' Hnd]. cbn [fill_categories].
  destruct (decide (c' = c)) as [->|Hne].
  - unfold fill_fuel. cbn [fill_category default].
    rewrite contains_flatten, Hex by done.
    destruct (choice_in (parts c) r (parts_nonempty c)) as (w & Hch & _).
    unfold bind. rewrite Hch.
    replace (truthy (Some p)) with true by (by destruct p).
    rewrite bool_decide_eq_true_2 by done. cbn [andb]. cbv beta iota.
    change (id p) with p. rewrite replace_first_flatten by done.
    destruct (fill_first_split c p ts Hex) as (pre & post & Hts & Hff).
    assert (post ≠ []) as Hpost.
    { intros ->. rewrite Hts, last_snoc in Hlast. done. }
    assert (last (fill_first c p ts) = Some (Lit (ch :: s))) as Hlast1.
    { rewrite Hff. rewrite Hts in Hlast.
      destruct post as [|t0 post]; [done|].
      by rewrite last_app_cons, last_cons_cons in Hlast |- *. }
    destruct (fill_category_tokens [] c (Some c) (fill_first c p ts)
                (length (flatten ts) + length p) (fill_first c p ts)
                (snd (Random.next r)))
      as (ts1 & r1 & H1 & Hp1 & Hrel1).
    + by intros ?%elem_of_nil.
    + by apply fill_first_plain.
    + apply filling_refl.
    + pose proof (holes_fill_first c p ts Hex).
      pose proof (holes_length c ts). lia.
    + rewrite H1.
      destruct (fill_categories_tokens (Some c) ts1 cats [] ts1 r1)
        as (ts2 & r2 & H2 & _ & Hrel2).
      * by rewrite app_nil_r.
      * done.
      * apply filled_refl.
      * exists ts2, r2. split; [done|].
        rewrite Hff in Hrel1, Hlast1.
        apply Forall2_app_inv_l in Hrel1 as (pre1 & rest & _ & Hrel1 & ->).
        apply Forall2_cons_inv_l in Hrel1 as (t1 & post1 & Ht1 & Hrel1 & ->).
        simpl in Ht1. subst t1.
        apply (placed_inside (rev cats ++ []) p pre1 post1 ts2 ch s);
          [| |exact Hrel2].
        -- destruct post as [|t0 post]; [done|].
           rewrite last_app_cons, last_cons_cons in Hlast1.
           pose proof (filled_last _ _ _ _ Hrel1 Hlast1) as Hl.
           destruct post1 as [|t1 post1]; [done|].
           by rewrite last_app_cons, last_cons_cons.
        -- intros ->. apply Forall2_nil_inv_r in Hrel1. done.
  - assert (c ∈ cats) as Hin by (by apply elem_of_cons in Hc as [?|?]).
    destruct (fill_category_tokens [] c' None ts
                (fill_fuel None (flatten ts)) ts r)
      as (ts1 & r1 & H1 & Hp1 & Hrel1).
    + by intros ?%elem_of_nil.
    + done.
    + apply filling_refl.
    + unfold fill_fuel. simpl. pose proof (holes_length c' ts). lia.
    + replace (fill_fuel (Some p) (flatten ts))
        with (fill_fuel None (flatten ts) + length p)
        by (unfold fill_fuel; simpl; lia).
      unfold bind at 1.
      rewrite (fill_category_other _ _ c c' (Some p) None _ _ _ _ Hne H1).
      apply IH; try done.
      * eapply filled_keeps_hole; [|done|done].
        intros [->|?%elem_of_nil]%elem_of_cons; done.
      * by eapply filled_last.
Qed.

End WordFacts.

(** X20: [fill_sentence_structure] uses the special word only at a placeholder
    of its category: for a structure of [generate_sentence_structure] without
    such a placeholder the sentence, and what is drawn from the random
    generator, are those of a call without a special word. *)
Theorem special_word_needs_placeholder structure special_word c r :
  structure ∈ TextGeneration.structures →
  contains (TextGeneration.placeholder c) structure = false →
  TextGeneration.fill_sentence_structure structure special_word (Some c) r
  = TextGeneration.fill_sentence_structure structure None None r.
Proof.
  intros Hin Hno.
  pose proof LineFacts.structures_ok as Hok.
  rewrite forallb_forall in Hok.
  apply list_elem_of_In in Hin. specialize (Hok _ Hin).
  unfold LineFacts.structure_ok in Hok.
  apply andb_true_iff in Hok as [Hok _].
  apply andb_true_iff in Hok as [Hok _].
  apply andb_true_iff in Hok as [Hflat Hplain].
  apply bool_decide_eq_true in Hflat.
  rewrite <- Hflat in Hno |- *.
  rewrite TextGenerationFacts.contains_flatten in Hno by done.
  unfold TextGeneration.fill_sentence_structure, bind.
  by rewrite WordFacts.special_unused.
Qed.

(** The third structure has no adjective. *)
Lemma special_word_needs_placeholder_witness :
  TextGeneration.fill_sentence_structure
    (str "{pronoun} {adv} {verb} that {det} {noun} {verb} {adv} {prep} {det} {noun}.")
    (Some (str "cut")) (Some TextGeneration.adj) (λ n, n)
  = TextGeneration.fill_sentence_structure
      (str "{pronoun} {adv} {verb} that {det} {noun} {verb} {adv} {prep} {det} {noun}.")
      None None (λ n, n).
Proof.
  apply (special_word_needs_placeholder _ (Some (str "cut"))
           TextGeneration.adj (λ n, n)).
  - apply (bool_decide_unpack _). vm_compute. reflexivity.
  - vm_compute. reflexivity.
Defined.

(** X21: With a placeholder of its category in the structure, a special word
    without space and without brace is in the sentence that
    [fill_sentence_structure] returns: the words drawn after it, the adjectives
    that lengthen the sentence and the suffix leave it whole. *)
Theorem special_word_is_placed structure word c r :
  structure ∈ TextGeneration.structures →
  contains (TextGeneration.placeholder c) structure = true →
  word ≠ [] → " "%char ∉ word → "{"%char ∉ word →
  ∃ sentence r',
    TextGeneration.fill_sentence_structure structure (Some word) (Some c) r
    = (Ok sentence, r')
    ∧ contains word sentence = true.
Proof.
  intros Hin Hhole Hne Hsp Hbr.
  pose proof LineFacts.structures_ok as Hok.
  rewrite forallb_forall in Hok.
  apply list_elem_of_In in Hin. specialize (Hok _ Hin).
  unfold LineFacts.structure_ok in Hok.
  apply andb_true_iff in Hok as [Hok Hclose].
  apply andb_true_iff in Hok as [Hok _].
  apply andb_true_iff in Hok as [Hflat Hplain].
  apply bool_decide_eq_true in Hflat.
  set (ts := LineFacts.tokenize structure 0 []) in *.
  assert (∃ ch, last ts = Some (TextGenerationFacts.Lit [ch])) as [ch Hlast].
  { unfold LineFacts.closing in Hclose.
    destruct (rev ts) as [|[[|ch [|]]|] rest] eqn:E; try done.
    exists ch. rewrite <- (rev_involutive ts), E. simpl.
    by rewrite last_snoc. }
  rewrite <- Hflat in Hhole |- *.
  rewrite TextGenerationFacts.contains_flatten in Hhole by done.
  destruct (WordFacts.special_placed TextGeneration.categories word c ch []
              ts r) as (ts' & r1 & H1 & Hin1); try done.
  - apply (bool_decide_unpack _). by vm_compute.
  - apply (bool_decide_unpack _). by destruct c; vm_compute.
  - unfold TextGenerationFacts.plain. apply forallb_forall.
    intros x Hx. apply negb_true_iff, not_true_is_false.
    intros ->%PyStrFacts.eqc_true. apply Hbr. by apply list_elem_of_In.
  - destruct (WordFacts.lengthen_inside word (TextGenerationFacts.flatten ts')
                r1 Hne Hsp Hin1) as (res & r' & H2 & Hres).
    exists res, r'. split.
    + unfold TextGeneration.fill_sentence_structure, bind. by rewrite H1.
    + by apply WordFacts.inside_contains.
Qed.

(** The word "cut" as the noun of the third structure. *)
Lemma special_word_is_placed_witness :
  ∃ sentence r',
    TextGeneration.fill_sentence_structure
      (str "{pronoun} {adv} {verb} that {det} {noun} {verb} {adv} {prep} {det} {noun}.")
      (Some (str "cut")) (Some TextGeneration.noun) (λ n, n)
    = (Ok sentence, r')
    ∧ contains (str "cut") sentence = true.
Proof.
  apply (special_word_is_placed _ (str "cut") TextGeneration.noun (λ n, n)).
  - apply (bool_decide_unpack _). vm_compute. reflexivity.
  - vm_compute. reflexivity.
  - discriminate.
  - apply (bool_decide_unpack _). vm_compute. reflexivity.
  - apply (bool_decide_unpack _). vm_compute. reflexivity.
Defined.
